(** * geodata-br (dtb-ibge): exporters, serializers and the export driver

    A shallow embedding of

    - [src/export.py]                         ([Database], [DTB.export_db]),
    - [src/exporters.py]                      ([BaseExporter.__toDict__], [CSV],
                                               [SQL], [XML]),
    - [src/lib/geodatabr/dataset/serializers.py]
                                              ([Serializer], [FlattenedSerializer]),

    followed by the properties of these functions.

    Python 2 byte strings ([str]) are [string]; [dict]s that are only looked up
    are [gmap string _]; [OrderedDict]s, whose iteration order is observable,
    are association lists kept in insertion order. *)

From Stdlib Require Import ZArith Ascii String List Bool Lia.
From Stdlib Require Import Numbers.DecimalString.
From Stdlib Require Import Sorting.Permutation Sorting.Sorted.
From stdpp Require Import base option list strings gmap fin_maps.

Local Open Scope string_scope.
Local Open Scope Z_scope.

(* ===================================================================== *)
(** * Python strings                                                      *)
(* ===================================================================== *)

Module Py.

(** Exceptions are identified by their class name (what
    [type(e).__name__] prints in [export.py]'s [__main__]) and message. *)
Record exn := Raise { exn_class : string; exn_msg : string }.

Inductive result (A : Type) : Type :=
| Ok (a : A)
| Err (e : exn).
Arguments Ok {A} a.
Arguments Err {A} e.

Definition bind {A B} (m : result A) (k : A -> result B) : result B :=
  match m with
  | Ok a => k a
  | Err e => Err e
  end.

Definition KeyError (k : string) : exn := Raise "KeyError" k.
Definition TypeError (m : string) : exn := Raise "TypeError" m.
Definition AttributeError (m : string) : exn := Raise "AttributeError" m.
Definition UnicodeDecodeError (m : string) : exn := Raise "UnicodeDecodeError" m.

(** [for x in l: body] where the body may raise: results in order. *)
Fixpoint mapM {A B} (f : A -> result B) (l : list A) : result (list B) :=
  match l with
  | [] => Ok []
  | x :: l' =>
      bind (f x) (fun y => bind (mapM f l') (fun ys => Ok (y :: ys)))
  end.

(** [for x in l: acc = body(acc, x)] where the body may raise. *)
Fixpoint foldM {A B} (f : A -> B -> result A) (a : A) (l : list B) : result A :=
  match l with
  | [] => Ok a
  | x :: l' => bind (f a x) (fun a' => foldM f a' l')
  end.

(** [d[k]] on a dict: [KeyError] when the key is missing. *)
Definition getitem {V} (d : gmap string V) (k : string) : result V :=
  match d !! k with
  | Some v => Ok v
  | None => Err (KeyError k)
  end.

(** Values that occur in rows and records: [None], [int], [str]. *)
Inductive value :=
| VNone
| VInt (z : Z)
| VStr (s : string).

Definition value_eqb (a b : value) : bool :=
  match a, b with
  | VNone, VNone => true
  | VInt x, VInt y => Z.eqb x y
  | VStr x, VStr y => String.eqb x y
  | _, _ => false
  end.

(** Python truth value: [None], [0] and [''] are false. *)
Definition truthy (v : value) : bool :=
  match v with
  | VNone => false
  | VInt z => negb (Z.eqb z 0)
  | VStr s => negb (String.eqb s "")
  end.

(** [str(z)] for an [int]. *)
Definition str_of_int (z : Z) : string :=
  NilZero.string_of_int (Z.to_int z).

(** [str(v)] / the text [str.format] substitutes for [v]. *)
Definition str (v : value) : string :=
  match v with
  | VNone => "None"
  | VInt z => str_of_int z
  | VStr s => s
  end.

(** [string.whitespace] of the C locale: what [str.strip()] removes and
    what [\s] matches in a byte pattern. *)
Definition isspace (c : ascii) : bool :=
  let n := nat_of_ascii c in
  ((9 <=? n) && (n <=? 13))%nat || (n =? 32)%nat.

(** [\w] in a byte pattern without LOCALE/UNICODE: [[a-zA-Z0-9_]]. *)
Definition isword (c : ascii) : bool :=
  let n := nat_of_ascii c in
  (((48 <=? n) && (n <=? 57)) || ((65 <=? n) && (n <=? 90))
   || ((97 <=? n) && (n <=? 122)) || (n =? 95))%nat.

Fixpoint lstrip (s : string) : string :=
  match s with
  | String c s' => if isspace c then lstrip s' else s
  | EmptyString => EmptyString
  end.

(** Right strip: a character is kept when something non-blank follows or
    it is itself non-blank. *)
Fixpoint rstrip (s : string) : string :=
  match s with
  | EmptyString => EmptyString
  | String c s' =>
      match rstrip s' with
      | EmptyString => if isspace c then EmptyString else String c EmptyString
      | r => String c r
      end
  end.

(** [s.strip()] *)
Definition strip (s : string) : string := rstrip (lstrip s).

(** [sep.join(l)] *)
Definition join (sep : string) (l : list string) : string :=
  String.concat sep l.

(** [''.join(l)], the effect of repeated [sql += piece]. *)
Fixpoint concat_all (l : list string) : string :=
  match l with
  | [] => ""
  | s :: l' => s ++ concat_all l'
  end.

(** [s.replace(old, new)]: every non-overlapping occurrence, left to right.
    [skip] counts the characters of a matched occurrence still to drop.
    (An empty [old] is not used by the program and is left as the identity.) *)
Fixpoint replace_go (old new : string) (skip : nat) (s : string) : string :=
  match s with
  | EmptyString => EmptyString
  | String c s' =>
      match skip with
      | S k => replace_go old new k s'
      | O =>
          if (negb (String.eqb old "")) && String.prefix old s
          then new ++ replace_go old new (Nat.pred (String.length old)) s'
          else String c (replace_go old new O s')
      end
  end.

Definition replace (s old new : string) : string := replace_go old new O s.

(** [s.find(sub)], as an option. *)
Fixpoint find (sub s : string) : option nat :=
  if String.prefix sub s then Some O
  else match s with
       | EmptyString => None
       | String _ s' => option_map S (find sub s')
       end.

(** [t.format] with keyword arguments [env], for templates whose only brace groups are named fields
    [{name}] (no [{{], no conversions), which is all the program formats:
    a missing name is a [KeyError]. [field] holds the name being read. *)
Fixpoint format_go (env : list (string * value)) (field : option string)
    (t : string) : result string :=
  match t with
  | EmptyString =>
      match field with
      | None => Ok ""
      | Some _ => Err (Raise "ValueError" "expected '}' before end of string")
      end
  | String c t' =>
      match field with
      | None =>
          if Ascii.eqb c "{" then format_go env (Some "") t'
          else bind (format_go env None t') (fun r => Ok (String c r))
      | Some name =>
          if Ascii.eqb c "}" then
            match List.find (fun kv => String.eqb (fst kv) name) env with
            | Some kv => bind (format_go env None t') (fun r => Ok (str (snd kv) ++ r))
            | None => Err (KeyError name)
            end
          else format_go env (Some (name ++ String c "")) t'
      end
  end.

Definition format (t : string) (env : list (string * value)) : result string :=
  format_go env None t.

(** ['\'' + s + '\''], what [repr] gives for a [str] without quotes or
    escapes, which is the case of the field place-holders. *)
Definition repr_plain (s : string) : string := "'" ++ s ++ "'".

End Py.

Import Py.

(* ===================================================================== *)
(** * The fragment of Python's [re] used by the SQL minifier              *)
(* ===================================================================== *)

Module Re.

(** Pattern syntax: character classes, sequence, alternation, greedy
    repetition, look-ahead, one-character look-behind and [$]. *)
Inductive re :=
| Chr (p : ascii -> bool)
| Seq (a b : re)
| Alt (a b : re)
| Star (a : re)
| Ahead (a : re)
| Behind (p : ascii -> bool)
| Eos.

Definition Plus (a : re) : re := Seq a (Star a).

Definition only (c : ascii) : ascii -> bool := Ascii.eqb c.
Definition except (c : ascii) : ascii -> bool := fun x => negb (Ascii.eqb c x).
Definition oneof (cs : string) : ascii -> bool :=
  fun x => existsb (Ascii.eqb x) (list_ascii_of_string cs).

Definition newline : ascii := ascii_of_nat 10.

(** Backtracking matcher in continuation-passing style. A position is the
    reversed text before it and the text after it; [k] is what must match
    next. The first alternative that makes [k] succeed wins, repetition tries
    one more iteration before it gives up, and an iteration has to consume
    something: that bounds the iterations by the length of the text left. *)
Fixpoint exec {R : Type} (r : re) :
    list ascii -> string -> (list ascii -> string -> option R) -> option R :=
  match r with
  | Chr p => fun bef aft k =>
      match aft with
      | String c aft' => if p c then k (c :: bef) aft' else None
      | EmptyString => None
      end
  | Seq a b => fun bef aft k =>
      exec a bef aft (fun bef' aft' => exec b bef' aft' k)
  | Alt a b => fun bef aft k =>
      match exec a bef aft k with
      | Some x => Some x
      | None => exec b bef aft k
      end
  | Star a => fun bef aft k =>
      (fix star (n : nat) (bef : list ascii) (aft : string) {struct n} : option R :=
         match n with
         | O => k bef aft
         | S n' =>
             match exec a bef aft
                     (fun bef' aft' =>
                        if (String.length aft' <? String.length aft)%nat
                        then star n' bef' aft' else None) with
             | Some x => Some x
             | None => k bef aft
             end
         end) (String.length aft) bef aft
  | Ahead a => fun bef aft k =>
      match exec a bef aft (fun _ _ => Some tt) with
      | Some _ => k bef aft
      | None => None
      end
  | Behind p => fun bef aft k =>
      match bef with
      | c :: _ => if p c then k bef aft else None
      | [] => None
      end
  | Eos => fun bef aft k =>
      match aft with
      | EmptyString => k bef aft
      | String c EmptyString => if Ascii.eqb c newline then k bef aft else None
      | _ => None
      end
  end.

(** Number of characters the leftmost-first match starting here consumes. *)
Definition match_len (r : re) (bef : list ascii) (s : string) : option nat :=
  exec r bef s (fun _ aft' => Some (String.length s - String.length aft')%nat).

(** [re.sub(r, repl, s)] for a pattern that matches no empty string (true of
    every pattern of the program) and a replacement without back-references:
    scan left to right, replace each match, resume after it. [skip] counts the
    characters of the current match still to pass over. *)
Fixpoint sub_go (r : re) (repl : string) (skip : nat) (bef : list ascii)
    (s : string) : string :=
  match s with
  | EmptyString => EmptyString
  | String c s' =>
      match skip with
      | S k => sub_go r repl k (c :: bef) s'
      | O =>
          match match_len r bef s with
          | Some (S n) => repl ++ sub_go r repl n (c :: bef) s'
          | _ => String c (sub_go r repl O (c :: bef) s')
          end
      end
  end.

Definition sub (r : re) (repl s : string) : string := sub_go r repl O [] s.

End Re.

(* ===================================================================== *)
(** * [export.py]: the data model                                         *)
(* ===================================================================== *)

Declare Scope py_scope.
Notation "'let?' x ':=' m 'in' k" := (Py.bind m (fun x => k))
  (at level 10, x name, m at level 100, k at level 200) : py_scope.
Local Open Scope py_scope.

(** A record of a table: a dict from field name to value. The exporters
    test values for [int] and [str] only, so those (and [None], which pads
    rows) are the values of the model. *)
Abbreviation item := (gmap string value).

Module Database.

(** [Database._tables] *)
Definition _tables : list string :=
  ["uf"; "mesorregiao"; "microrregiao"; "municipio"; "distrito"; "subdistrito"].

(** [Database._fields] *)
Definition _fields : list (string * list string) :=
  [ ("uf", ["id"; "nome"]);
    ("mesorregiao", ["id"; "id_uf"; "nome"]);
    ("microrregiao", ["id"; "id_mesorregiao"; "id_uf"; "nome"]);
    ("municipio", ["id"; "id_microrregiao"; "id_mesorregiao"; "id_uf"; "nome"]);
    ("distrito",
       ["id"; "id_municipio"; "id_microrregiao"; "id_mesorregiao"; "id_uf"; "nome"]);
    ("subdistrito",
       ["id"; "id_distrito"; "id_municipio"; "id_microrregiao"; "id_mesorregiao";
        "id_uf"; "nome"]) ].

(** [Struct(base)]: one entry of [bases.yaml]. *)
Record Base := {
  year : Z;
  format : string;
  archive : string;
  file : string
}.

(** What the attributes of a [Database] instance evaluate to when an
    exporter reads them ([self._db._cols], [self._db._data], ...). *)
Record t := {
  _base : Base;
  _name : string;
  _cols : list string;
  _rows : list (list value);
  _data : gmap string (list item);
  _rawdata : option string
}.

(** ** Where the attributes live

    [_cols], [_rows] and [_data] are assigned in the class body and never
    on an instance, so each is ONE object owned by the class; an instance
    owns [_base] and [_name] (assigned in [__init__]) and, once [get_db] ran,
    [_rawdata]. [class_store] is the part of the heap holding the class-level
    containers; an instance holds no container of its own. *)
Record class_store := {
  cls_cols : list string;
  cls_rows : list (list value);
  cls_data : gmap string (list item);
  cls_rawdata : option string
}.

Record instance := {
  inst_base : Base;
  inst_name : string;
  inst_rawdata : option (option string)   (* instance attribute, if assigned *)
}.

(** The class body: [_cols = []], [_rows = []], [_data = {}],
    [_rawdata = None]. *)
Definition class_body : class_store :=
  {| cls_cols := []; cls_rows := []; cls_data := ∅; cls_rawdata := None |}.

(** One iteration of the loop of [__init__]: two [append]s on the list
    [self._cols] resolves to and one item assignment on the dict
    [self._data] resolves to, both class-level objects. *)
Definition init_step (c : class_store) (table_name : string) : class_store :=
  {| cls_cols := (cls_cols c ++ ["id_" +:+ table_name]) ++ ["nome_" +:+ table_name];
     cls_rows := cls_rows c;
     cls_data := <[table_name := []]> (cls_data c);
     cls_rawdata := cls_rawdata c |}.

(** [Database.__init__(self, base)]: the new instance and the class store
    after the constructor ran. *)
Definition __init__ (base : Base) (c : class_store) : instance * class_store :=
  ({| inst_base := base;
      inst_name := "dtb_" +:+ str_of_int (year base);
      inst_rawdata := None |},
   fold_left init_step _tables c).

(** Attribute lookup on an instance: the instance's own attribute when it
    has one, the class attribute otherwise. *)
Definition attrs (i : instance) (c : class_store) : t :=
  {| _base := inst_base i;
     _name := inst_name i;
     _cols := cls_cols c;
     _rows := cls_rows c;
     _data := cls_data c;
     _rawdata := match inst_rawdata i with
                 | Some r => r
                 | None => cls_rawdata c
                 end |}.

End Database.

(** [d[k]] for a constant dict written as a table. *)
Definition lookup_table {V} (d : list (string * V)) (k : string) : result V :=
  match List.find (fun kv => String.eqb (fst kv) k) d with
  | Some kv => Ok (snd kv)
  | None => Err (KeyError k)
  end.

(** [str.decode('utf-8')] on a Python 2 byte string whose bytes are all
    ASCII; [s.encode('utf-8')] on a [str] first decodes it as ASCII and
    raises on any other byte. *)
Definition isascii (s : string) : bool :=
  forallb (fun c => (nat_of_ascii c <? 128)%nat) (list_ascii_of_string s).

Definition encode_utf8 (s : string) : result string :=
  if isascii s then Ok s
  else Err (UnicodeDecodeError "'ascii' codec can't decode byte").

(* ===================================================================== *)
(** * [exporters.py]                                                      *)
(* ===================================================================== *)

(** An [OrderedDict]: keys in order of first insertion. *)
Section OrderedDict.
Context {K V : Type} (eqb : K -> K -> bool).

(** [d[k] = v] *)
Fixpoint od_set (d : list (K * V)) (k : K) (v : V) : list (K * V) :=
  match d with
  | [] => [(k, v)]
  | (k', v') :: d' =>
      if eqb k' k then (k', v) :: d' else (k', v') :: od_set d' k v
  end.

(** [d.get(k)] *)
Definition od_get (d : list (K * V)) (k : K) : option V :=
  option_map snd (List.find (fun kv => eqb (fst kv) k) d).

(** [del d[k]] for a key that is present *)
Definition od_del (d : list (K * V)) (k : K) : list (K * V) :=
  List.filter (fun kv => negb (eqb (fst kv) k)) d.

(** [OrderedDict(pairs)] *)
Definition od_of_pairs (l : list (K * V)) : list (K * V) :=
  fold_left (fun d kv => od_set d (fst kv) (snd kv)) l [].
End OrderedDict.

Module BaseExporter.

(** The exporter object: [self._db], [self._minified]. *)
Record t := { _db : Database.t; _minified : bool }.

Section ToDict.
(** [s.decode('utf-8')], which raises on a byte string that is not UTF-8. *)
Variable decode_utf8 : string -> result string.

(** The body of [for key in self._db._fields[table_name]]: the record
    rebuilt in field order. *)
Definition item_obj (unicode : bool) (fields : list string) (it : item)
  : result (list (string * value)) :=
  let? kvs := mapM (fun key =>
                 let? v := getitem it key in
                 match v with
                 | VStr s =>
                     if unicode then (let? u := decode_utf8 s in Ok (key, VStr u))
                     else Ok (key, v)
                 | _ => Ok (key, v)
                 end) fields in
  Ok (od_of_pairs String.eqb kvs).

(** The body of [for item in self._db._data[table_name]]. *)
Definition add_item (strKeys unicode : bool) (fields : list string)
    (tbl : list (value * list (string * value))) (it : item)
  : result (list (value * list (string * value))) :=
  let? obj := item_obj unicode fields it in
  match od_get String.eqb obj "id" with
  | None => Err (KeyError "id")
  | Some id =>
      let item_id := if strKeys then VStr (str id) else id in
      Ok (od_set value_eqb tbl item_id (od_del String.eqb obj "id"))
  end.

(** The body of [for table_name in self._db._tables]. *)
Definition add_table (self : t) (strKeys unicode : bool)
    (dict_obj : list (string * list (value * list (string * value))))
    (table_name : string)
  : result (list (string * list (value * list (string * value)))) :=
  let? rows := getitem (Database._data (_db self)) table_name in
  match rows with
  | [] => Ok dict_obj                       (* continue *)
  | _ =>
      let? fields := lookup_table Database._fields table_name in
      let? tbl := foldM (fun tbl it => add_item strKeys unicode fields tbl it) [] rows in
      Ok (od_set String.eqb dict_obj table_name tbl)
  end.

(** [BaseExporter.__toDict__(self, strKeys, unicode)] *)
Definition __toDict__ (self : t) (strKeys unicode : bool)
  : result (list (string * list (value * list (string * value)))) :=
  foldM (add_table self strKeys unicode) [] Database._tables.
End ToDict.

End BaseExporter.

(** ** [class CSV] *)
Module CSV.

(** [csv.QUOTE_NONNUMERIC], [csv.QUOTE_MINIMAL] *)
Inductive quoting := QUOTE_NONNUMERIC | QUOTE_MINIMAL.

(** [(csv.QUOTE_NONNUMERIC, csv.QUOTE_MINIMAL)[self._minified]] *)
Definition quoting_of (minified : bool) : quoting :=
  if minified then QUOTE_MINIMAL else QUOTE_NONNUMERIC.

(** The argument of [writerow] for a data row:
    [[bytes(col) if type(col) == str else col for col in filter(None, row)]].
    [filter(None, row)] keeps the values whose truth value is true; [bytes]
    is [str] in Python 2, so a [str] column is passed as it is. *)
Definition data_row (row : list value) : list value :=
  List.map (fun col => match col with VStr s => VStr s | _ => col end)
           (List.filter truthy row).

(** The argument of [writerow] for the header:
    [[col.encode('utf-8') for col in self._db._cols]]. *)
Definition header_row (cols : list string) : result (list value) :=
  mapM (fun col => let? b := encode_utf8 col in Ok (VStr b)) cols.

(** The rows handed to [csv_writer.writerow], in order. *)
Definition written_rows (self : BaseExporter.t) : result (list (list value)) :=
  let? h := header_row (Database._cols (BaseExporter._db self)) in
  Ok (h :: List.map data_row (Database._rows (BaseExporter._db self))).

Section Writer.
(** [csv.writer(csv_file, quoting=q, lineterminator='\n').writerow(row)]:
    the text one call appends to [csv_file] (library code). *)
Variable writerow : quoting -> list value -> string.

(** [CSV.__str__] *)
Definition __str__ (self : BaseExporter.t) : result string :=
  let? rows := written_rows self in
  Ok (concat_all
        (List.map (writerow (quoting_of (BaseExporter._minified self))) rows)).
End Writer.

End CSV.

(** ** [class XML] *)
Module XML.

(** An [lxml.etree] node: an element with its attributes, text and children,
    or a comment. *)
Inductive node :=
| Element (tag : string) (attrib : list (string * string))
          (text : option string) (children : list node)
| Comment (text : string).

Section Lxml.
(** [s.decode('utf-8')] followed by the assignment to [.text], which raise
    on bytes that are not UTF-8 or not XML-compatible (library code). *)
Variable decode_utf8 : string -> result string.
(** [lxml.etree.tostring(root, pretty_print=p, xml_declaration=True,
    encoding='utf-8')] (library code). *)
Variable tostring : node -> bool -> string.

(** [lxml.etree.SubElement(row, 'field', name=field_name).text = ...] *)
Definition field_element (it : item) (field_name : string) : result node :=
  let? v := getitem it field_name in
  let? txt := decode_utf8 (str v) in
  Ok (Element "field" [("name", field_name)] (Some txt) []).

(** [row = lxml.etree.SubElement(table, 'row')] and its fields. *)
Definition row_element (fields : list string) (it : item) : result node :=
  let? fs := mapM (field_element it) fields in
  Ok (Element "row" [] None fs).

(** The body of [for table_name in self._db._tables]: the children it
    appends to [database]. *)
Definition table_nodes (self : BaseExporter.t) (table_name : string)
  : result (list node) :=
  let? rows := getitem (Database._data (BaseExporter._db self)) table_name in
  match rows with
  | [] => Ok []                                (* continue *)
  | _ =>
      let? fields := lookup_table Database._fields table_name in
      let? rs := mapM (row_element fields) rows in
      Ok ((if BaseExporter._minified self then []
           else [Comment (" Table " +:+ table_name +:+ " ")])
          ++ [Element "table" [("name", table_name)] None rs])%list
  end.

(** The [database] element when the loop is over. *)
Definition database_element (self : BaseExporter.t) : result node :=
  let? cs := mapM (table_nodes self) Database._tables in
  Ok (Element "database"
              [("name", Database._name (BaseExporter._db self))] None
              (List.concat cs)).

(** [XML.__str__] *)
Definition __str__ (self : BaseExporter.t) : result string :=
  let? d := database_element self in
  Ok (tostring d (negb (BaseExporter._minified self))).
End Lxml.

(** The [<table>] elements among the children of a node, by [name]. *)
Definition table_names (n : node) : list string :=
  match n with
  | Element _ _ _ cs =>
      List.flat_map
        (fun c => match c with
                  | Element tag attrib _ _ =>
                      if String.eqb tag "table"
                      then match od_get String.eqb attrib "name" with
                           | Some nm => [nm]
                           | None => []
                           end
                      else []
                  | Comment _ => []
                  end) cs
  | Comment _ => []
  end.

End XML.

(** ** [class SQL] *)
Module SQL.

Definition nl : string := String (ascii_of_nat 10) EmptyString.
Definition dq : string := String (ascii_of_nat 34) EmptyString.

(** The attributes [SQL.__init__] sets on top of [BaseExporter]'s. *)
Record t := {
  base : BaseExporter.t;
  _lazy_constraints : bool;
  _create_indexes : bool;
  _bigint_type : string;
  _escape_char : string;
  _tables : list (string * list string);
  _constraints : list (string * list string);
  _indexes : list (string * list string);
  _inserts : list (string * list string)
}.

(** [SQL.__table] *)
Definition __table (table_name : string) (args : list string) : string :=
  "CREATE TABLE " +:+ table_name +:+ " (" +:+ nl +:+ join ("," +:+ nl) args
  +:+ nl +:+ ");" +:+ nl.

(** [SQL.__column] *)
Definition __column (column_name column_type : string) : string :=
  "  " +:+ column_name +:+ " " +:+ column_type.

(** [SQL.__primaryKey] *)
Definition __primaryKey (lazy_constraints : bool) (table column : string) : string :=
  let pk_name := "pk_" +:+ table in
  if lazy_constraints
  then "ALTER TABLE " +:+ table +:+ nl +:+ "  ADD CONSTRAINT " +:+ pk_name +:+ nl
       +:+ "    PRIMARY KEY (" +:+ column +:+ ");"
  else "  CONSTRAINT " +:+ pk_name +:+ nl +:+ "    PRIMARY KEY (" +:+ column +:+ ")".

(** [SQL.__foreignKey] *)
Definition __foreignKey (lazy_constraints : bool)
    (table column foreign_table foreign_column : string) : string :=
  let fk_name := "fk_" +:+ table +:+ "_" +:+ foreign_table in
  if lazy_constraints
  then "ALTER TABLE " +:+ table +:+ nl +:+ "  ADD CONSTRAINT " +:+ fk_name +:+ nl
       +:+ "    FOREIGN KEY (" +:+ column +:+ ")" +:+ nl
       +:+ "      REFERENCES " +:+ foreign_table +:+ "(" +:+ foreign_column +:+ ");"
  else "  CONSTRAINT " +:+ fk_name +:+ nl
       +:+ "    FOREIGN KEY (" +:+ column +:+ ")" +:+ nl
       +:+ "      REFERENCES " +:+ foreign_table +:+ "(" +:+ foreign_column +:+ ")".

(** [SQL.__constraints] *)
Definition __constraints (constraints : list string) : string :=
  join nl constraints +:+ nl.

(** [SQL.__index] *)
Definition __index (index_name table_name indexed_column : string) : string :=
  "CREATE INDEX " +:+ index_name +:+ " ON " +:+ table_name
  +:+ " (" +:+ indexed_column +:+ ");".

(** [SQL.__indexes] *)
Definition __indexes (indexes : list string) : string :=
  join nl indexes +:+ nl.

(** [SQL.__insert] *)
Definition __insert (table_name : string) (columns : list string) : string :=
  "INSERT INTO " +:+ table_name +:+ " VALUES (" +:+ join ", " columns +:+ ");".

(** The second argument of [__insertField]: [int] or [str]. *)
Inductive field_type := Int | Str.

(** [SQL.__insertField] *)
Definition __insertField (field_name : string) (ty : field_type) : string :=
  let repl_field := "{" +:+ field_name +:+ "}" in
  match ty with
  | Str => repr_plain repl_field
  | Int => repl_field
  end.

(** [SQL.__init__(self, db, minified, dialect)] *)
Definition __init__ (db : Database.t) (minified : bool) (dialect : string) : t :=
  let sqlite := String.eqb dialect "sqlite" in
  let lazy_constraints := if sqlite then false else true in
  let escape_char := if sqlite then "''" else "\'" in
  let bigint_type := "BIGINT" in
  let pk := __primaryKey lazy_constraints in
  let fk := __foreignKey lazy_constraints in
  {| base := {| BaseExporter._db := db; BaseExporter._minified := minified |};
     _lazy_constraints := lazy_constraints;
     _create_indexes := true;
     _bigint_type := bigint_type;
     _escape_char := escape_char;
     _tables :=
       [ ("uf",
           [ __column "id" "SMALLINT NOT NULL";
             __column "nome" "VARCHAR(32) NOT NULL" ]);
         ("mesorregiao",
           [ __column "id" "SMALLINT NOT NULL";
             __column "id_uf" "SMALLINT NOT NULL";
             __column "nome" "VARCHAR(64) NOT NULL" ]);
         ("microrregiao",
           [ __column "id" "INTEGER NOT NULL";
             __column "id_mesorregiao" "SMALLINT NOT NULL";
             __column "id_uf" "SMALLINT NOT NULL";
             __column "nome" "VARCHAR(64) NOT NULL" ]);
         ("municipio",
           [ __column "id" "INTEGER NOT NULL";
             __column "id_microrregiao" "INTEGER NOT NULL";
             __column "id_mesorregiao" "SMALLINT NOT NULL";
             __column "id_uf" "SMALLINT NOT NULL";
             __column "nome" "VARCHAR(64) NOT NULL" ]);
         ("distrito",
           [ __column "id" "INTEGER NOT NULL";
             __column "id_municipio" "INTEGER NOT NULL";
             __column "id_microrregiao" "INTEGER NOT NULL";
             __column "id_mesorregiao" "SMALLINT NOT NULL";
             __column "id_uf" "SMALLINT NOT NULL";
             __column "nome" "VARCHAR(64) NOT NULL" ]);
         ("subdistrito",
           [ __column "id" (bigint_type +:+ " NOT NULL");
             __column "id_distrito" "INTEGER NOT NULL";
             __column "id_municipio" "INTEGER NOT NULL";
             __column "id_microrregiao" "INTEGER NOT NULL";
             __column "id_mesorregiao" "SMALLINT NOT NULL";
             __column "id_uf" "SMALLINT NOT NULL";
             __column "nome" "VARCHAR(64) NOT NULL" ]) ];
     _constraints :=
       [ ("uf", [ pk "uf" "id" ]);
         ("mesorregiao",
           [ pk "mesorregiao" "id";
             fk "mesorregiao" "id_uf" "uf" "id" ]);
         ("microrregiao",
           [ pk "microrregiao" "id";
             fk "microrregiao" "id_mesorregiao" "mesorregiao" "id";
             fk "microrregiao" "id_uf" "uf" "id" ]);
         ("municipio",
           [ pk "municipio" "id";
             fk "municipio" "id_microrregiao" "microrregiao" "id";
             fk "municipio" "id_mesorregiao" "mesorregiao" "id";
             fk "municipio" "id_uf" "uf" "id" ]);
         ("distrito",
           [ pk "distrito" "id";
             fk "distrito" "id_municipio" "municipio" "id";
             fk "distrito" "id_microrregiao" "microrregiao" "id";
             fk "distrito" "id_mesorregiao" "mesorregiao" "id";
             fk "distrito" "id_uf" "uf" "id" ]);
         ("subdistrito",
           [ pk "subdistrito" "id";
             fk "subdistrito" "id_distrito" "distrito" "id";
             fk "subdistrito" "id_municipio" "municipio" "id";
             fk "subdistrito" "id_microrregiao" "microrregiao" "id";
             fk "subdistrito" "id_mesorregiao" "mesorregiao" "id";
             fk "subdistrito" "id_uf" "uf" "id" ]) ];
     _indexes :=
       [ ("mesorregiao",
           [ __index "fk_mesorregiao_uf" "mesorregiao" "id_uf" ]);
         ("microrregiao",
           [ __index "fk_microrregiao_mesorregiao" "microrregiao" "id_mesorregiao";
             __index "fk_microrregiao_uf" "microrregiao" "id_uf" ]);
         ("municipio",
           [ __index "fk_municipio_microrregiao" "municipio" "id_microrregiao";
             __index "fk_municipio_mesorregiao" "municipio" "id_mesorregiao";
             __index "fk_municipio_uf" "municipio" "id_uf" ]);
         ("distrito",
           [ __index "fk_distrito_municipio" "distrito" "id_municipio";
             __index "fk_distrito_microrregiao" "distrito" "id_microrregiao";
             __index "fk_distrito_mesorregiao" "distrito" "id_mesorregiao";
             __index "fk_distrito_uf" "distrito" "id_uf" ]);
         ("subdistrito",
           [ __index "fk_subdistrito_distrito" "subdistrito" "id_distrito";
             __index "fk_subdistrito_municipio" "subdistrito" "id_municipio";
             __index "fk_subdistrito_microrregiao" "subdistrito" "id_microrregiao";
             __index "fk_subdistrito_mesorregiao" "subdistrito" "id_mesorregiao";
             __index "fk_subdistrito_uf" "subdistrito" "id_uf" ]) ];
     _inserts :=
       [ ("uf",
           [ __insertField "id" Int; __insertField "nome" Str ]);
         ("mesorregiao",
           [ __insertField "id" Int; __insertField "id_uf" Int;
             __insertField "nome" Str ]);
         ("microrregiao",
           [ __insertField "id" Int; __insertField "id_mesorregiao" Int;
             __insertField "id_uf" Int; __insertField "nome" Str ]);
         ("municipio",
           [ __insertField "id" Int; __insertField "id_microrregiao" Int;
             __insertField "id_mesorregiao" Int; __insertField "id_uf" Int;
             __insertField "nome" Str ]);
         ("distrito",
           [ __insertField "id" Int; __insertField "id_municipio" Int;
             __insertField "id_microrregiao" Int; __insertField "id_mesorregiao" Int;
             __insertField "id_uf" Int; __insertField "nome" Str ]);
         ("subdistrito",
           [ __insertField "id" Int; __insertField "id_distrito" Int;
             __insertField "id_municipio" Int; __insertField "id_microrregiao" Int;
             __insertField "id_mesorregiao" Int; __insertField "id_uf" Int;
             __insertField "nome" Str ]) ]
  |}.

(** [SQL.__quote]: [value.replace("'", self._escape_char)]; only [str] has
    [replace]. *)
Definition __quote (self : t) (v : value) : result value :=
  match v with
  | VStr s => Ok (VStr (replace s "'" (_escape_char self)))
  | VInt _ => Err (AttributeError "'int' object has no attribute 'replace'")
  | VNone => Err (AttributeError "'NoneType' object has no attribute 'replace'")
  end.

(** The comment block written before each part when not minified. *)
Definition banner (what table_name : string) : string :=
  nl +:+ "--" +:+ nl +:+ "-- " +:+ what +:+ " for table " +:+ dq +:+ table_name
  +:+ dq +:+ nl +:+ "--" +:+ nl.

(** Each [sql += ...] of [__str__] appends one piece; the kind and table
    record which statement of the loop body appended it. *)
Inductive kind := KBanner | KCreateTable | KInsert | KConstraints | KIndexes.

Record piece := { p_kind : kind; p_table : string; p_text : string }.

(** The [data] dict of one record: ints as they are, everything else
    through [__quote]. *)
Definition insert_data (self : t) (fields : list string) (it : item)
  : result (list (string * value)) :=
  let? kvs := mapM (fun key =>
                      let? v := getitem it key in
                      match v with
                      | VInt _ => Ok (key, v)
                      | _ => let? q := __quote self v in Ok (key, q)
                      end) fields in
  Ok (od_of_pairs String.eqb kvs).

(** The body of [for item in self._db._data[table_name]]: one line. *)
Definition insert_line (self : t) (table_name : string) (it : item)
  : result string :=
  let? fields := lookup_table Database._fields table_name in
  let? data := insert_data self fields it in
  let? ins := lookup_table (_inserts self) table_name in
  let? line := format (strip (__insert table_name ins)) data in
  Ok (line +:+ nl).

(** The body of [for table_name in self._db._tables]. *)
Definition table_pieces (self : t) (table_name : string) : result (list piece) :=
  let minified := BaseExporter._minified (base self) in
  let note what := if minified then []
                   else [ {| p_kind := KBanner; p_table := table_name;
                             p_text := banner what table_name |} ] in
  let? rows := getitem (Database._data (BaseExporter._db (base self))) table_name in
  match rows with
  | [] => Ok []                                (* continue *)
  | _ =>
      let? cols :=
        (let? tcols := lookup_table (_tables self) table_name in
         if _lazy_constraints self then Ok tcols
         else let? cs := lookup_table (_constraints self) table_name in
              Ok (tcols ++ cs)%list) in
      let? lines := mapM (insert_line self table_name) rows in
      let? constraints :=
        (if _lazy_constraints self
         then let? cs := lookup_table (_constraints self) table_name in
              Ok (note "Constraints"
                  ++ [ {| p_kind := KConstraints; p_table := table_name;
                          p_text := __constraints cs |} ])%list
         else Ok []) in
      let indexes :=
        if _create_indexes self
        then match od_get String.eqb (_indexes self) table_name with
             | Some ixs =>
                 (note "Indexes"
                  ++ [ {| p_kind := KIndexes; p_table := table_name;
                          p_text := __indexes ixs |} ])%list
             | None => []
             end
        else [] in
      Ok (note "Structure"
          ++ [ {| p_kind := KCreateTable; p_table := table_name;
                  p_text := __table table_name cols |} ]
          ++ note "Data"
          ++ List.map (fun l => {| p_kind := KInsert; p_table := table_name;
                                   p_text := l |}) lines
          ++ constraints
          ++ indexes)%list
  end.

(** Every piece appended by the loop, in order. *)
Definition pieces (self : t) : result (list piece) :=
  let? ps := mapM (table_pieces self) Database._tables in
  Ok (List.concat ps).

Import Re.

Definition space : re := Chr isspace.
Definition nonquote : re := Chr (except "'").
Definition quote : re := Chr (only "'").

(** The six patterns of the minifier with their replacements, in order:
<<
    (?<=[;(])\s+                        ''
    ,\s(?=\')|,\s+                      ','
    \s+                                 ' '
    (?<=\W)\s(?=\W)                     ''
    (?<=\w)\s(?=\))                     ''
    \s\((?=(?:(?:[^']*'){2})*[^']*$)    '('
>> *)
Definition minify_passes : list (re * string) :=
  [ (Seq (Behind (oneof ";(")) (Plus space), "");
    (Alt (Seq (Chr (only ",")) (Seq space (Ahead quote)))
         (Seq (Chr (only ",")) (Plus space)), ",");
    (Plus space, " ");
    (Seq (Behind (fun c => negb (isword c)))
         (Seq space (Ahead (Chr (fun c => negb (isword c))))), "");
    (Seq (Behind isword) (Seq space (Ahead (Chr (only ")")))), "");
    (Seq space
       (Seq (Chr (only "("))
          (Ahead (Seq (Star (Seq (Seq (Star nonquote) quote)
                                 (Seq (Star nonquote) quote)))
                      (Seq (Star nonquote) Eos)))), "(") ].

Definition minify (sql : string) : string :=
  fold_left (fun sql p => Re.sub (fst p) (snd p) sql) minify_passes sql.

(** [SQL.__str__] *)
Definition __str__ (self : t) : result string :=
  let? ps := pieces self in
  let sql := strip (concat_all (List.map p_text ps)) in
  Ok (if BaseExporter._minified (base self) then minify sql else sql).

End SQL.

(* ===================================================================== *)
(** * [export.py]: [class DTB]                                            *)
(* ===================================================================== *)

Module DTB.

(** An exporter class as [export_db] uses it: its [__name__], its
    [_extension], and [str(exporter(db, minified))]. *)
Record Exporter := {
  __name__ : string;
  _format : string;
  _extension : string;
  render : Database.t -> bool -> result string
}.

(** What [export_db] does to the world, in order. *)
Inductive event :=
| Parse (input_format : string)      (* [parser(self._db, self._logger).parse()] *)
| Log (msg : string)                 (* [logger.info(msg)] *)
| Render (exporter : string)         (* [str(exporter(self._db, minified))] *)
| WriteFile (filename data : string) (* [open(filename, 'w').write(data)] *)
| Stdout (data : string).            (* [sys.stdout.write(data)] *)

(** The [DTB] object ([self._db]) together with the events so far. *)
Record t := { _db : Database.t; trace : list event }.

Section Registries.
(** [parsers.FORMATS]: the module [parsers] is not part of the sources; a
    parser takes the database and returns the parsed one or raises. *)
Variable parsers_FORMATS : list (string * (Database.t -> result Database.t)).
(** [exporters.FORMATS]: the registry of exporter classes by format
    identifier. *)
Variable exporters_FORMATS : list (string * Exporter).

Definition emit (e : event) (self : t) : t :=
  {| _db := _db self; trace := trace self ++ [e] |}.

(** The tail of [export_db], once [data] is rendered. *)
Definition write_out (exporter : Exporter) (data : string)
    (filename : option string) (self : t) : t :=
  match filename with
  | Some f =>
      if String.eqb f "" then emit (Stdout data) self
      else if String.eqb f "auto"
           then emit (WriteFile ("dtb" +:+ _extension exporter) data) self
           else emit (WriteFile f data) self
  | None => emit (Stdout data) self
  end.

(** [DTB.export_db(self, format, minified, filename)]: the outcome and the
    object afterwards. *)
Definition export_db (self : t) (format : string) (minified : bool)
    (filename : option string) : result unit * t :=
  let input_format := Database.format (Database._base (_db self)) in
  match od_get String.eqb parsers_FORMATS input_format with
  | None => (Err (TypeError "'NoneType' object is not callable"), self)
  | Some parser =>
      let self := emit (Parse input_format) self in
      match parser (_db self) with
      | Err e => (Err e, self)
      | Ok db =>
          let self := {| _db := db; trace := trace self |} in
          match od_get String.eqb exporters_FORMATS format with
          | None => (Err (Raise "Exception" "Unsupported output format."), self)
          | Some exporter =>
              let self :=
                emit (Log ("Exporting database to " +:+ __name__ exporter
                           +:+ " format...")) self in
              let self := emit (Render (__name__ exporter)) self in
              match render exporter (_db self) minified with
              | Err e => (Err e, self)
              | Ok data =>
                  let self := emit (Log "Done.") self in
                  (Ok tt, write_out exporter data filename self)
              end
          end
      end
  end.
End Registries.

(** The [SQL] class as a registry entry. *)
Definition SQL_exporter : Exporter :=
  {| __name__ := "SQL"; _format := "sql"; _extension := ".sql";
     render := fun db minified => SQL.__str__ (SQL.__init__ db minified "standard") |}.

End DTB.

(* ===================================================================== *)
(** * [geodatabr/dataset/serializers.py]                                  *)
(* ===================================================================== *)

Module Serializers.

(** An [OrderedMap] with string keys. *)
Abbreviation omap V := (list (string * V)).

(** What the serializers use of an entity class: [__table__.name] and the
    names of [__table__.columns]. *)
Record Entity := { table_name : string; columns : list string }.

(** [self._options] *)
Record options := { localize : bool; forceStr : bool }.

(** [record.get(k) or 0] *)
Definition get_or_0 (record : omap value) (k : string) : value :=
  match od_get String.eqb record k with
  | Some v => if truthy v then v else VInt 0
  | None => VInt 0
  end.

(** The [key] function of the sort. *)
Definition sort_key (record : omap value) : list value :=
  List.map (get_or_0 record)
    ["state_id"; "mesoregion_id"; "microregion_id"; "municipality_id";
     "district_id"; "subdistrict_id"].

(** [a < b] on values (Python 3): defined between two ints and between two
    strings, a [TypeError] otherwise. *)
Definition value_lt (a b : value) : result bool :=
  match a, b with
  | VInt x, VInt y => Ok (Z.ltb x y)
  | VStr x, VStr y => Ok (String.ltb x y)
  | _, _ => Err (TypeError "'<' not supported between instances")
  end.

(** [a < b] on tuples: the first position where the two differ decides. *)
Fixpoint tuple_lt (a b : list value) : result bool :=
  match a, b with
  | x :: a', y :: b' => if value_eqb x y then tuple_lt a' b' else value_lt x y
  | [], _ :: _ => Ok true
  | _, [] => Ok false
  end.

(** [list.sort(key=...)] is a stable ascending sort that compares keys with
    [<]. The embedding is the insertion sort that CPython runs on short
    lists: each element in turn goes into the sorted prefix, after every
    element that is not greater. A comparison that raises aborts the sort. *)
Fixpoint sort_insert {A} (key : A -> list value) (x : A) (sorted : list A)
  : result (list A) :=
  match sorted with
  | [] => Ok [x]
  | y :: sorted' =>
      let? lt := tuple_lt (key x) (key y) in
      if lt then Ok (x :: y :: sorted')
      else let? r := sort_insert key x sorted' in Ok (y :: r)
  end.

Definition sort {A} (key : A -> list value) (l : list A) : result (list A) :=
  foldM (fun sorted x => sort_insert key x sorted) [] l.

Section Dataset.
(** The schema, the repositories and the translation function are imported
    from modules that are not part of the sources; the serializers are
    embedded over them. [row] is a loaded entity object. *)
Variable row : Type.
(** [geodatabr.dataset.schema.Entities] *)
Variable Entities : list Entity.
(** [StateRepository().loadAll()] *)
Variable loadAll : list row.
(** [getattr(state, entity)]: the descendants of a state in one table. *)
Variable getattr : row -> string -> list row.
(** [record.serialize()] and [record.serialize(flatten=True)], as the
    ordered items of the mapping returned. *)
Variable serialize_row : row -> omap value.
Variable serialize_row_flat : row -> omap value.
(** [geodatabr.core.i18n._] *)
Variable gettext : string -> string.

(** A serializer instance: its options, the per-instance caches of the two
    decorated methods, and two counters that observe the computation: how
    often [loadAll()] was called and how often the body of [serialize] ran. *)
Record obj (A : Type) := {
  _options : options;
  cached_records : option (omap (list row));
  cached_serialize : option A;
  loads : nat;
  runs : nat
}.
Arguments _options {A}.
Arguments cached_records {A}.
Arguments cached_serialize {A}.
Arguments loads {A}.
Arguments runs {A}.

(** Modelled from the spec: the decorator
    [geodatabr.core.helpers.decorators.cachedmethod] is not part of the
    sources. The spec: computation is memoized per serializer instance;
    once computed, repeated requests return the cached result without
    recomputation. [get]/[set] select the cache slot of the decorated
    method on the instance; a call that raises caches nothing. *)
Definition cachedmethod {S R : Type} (get : S -> option R) (set : R -> S -> S)
    (body : S -> result R * S) : S -> result R * S :=
  fun self =>
    match get self with
    | Some r => (Ok r, self)
    | None =>
        match body self with
        | (Ok r, self') => (Ok r, set r self')
        | (Err e, self') => (Err e, self')
        end
    end.

(** The loop of [__records__]: a table not yet in [records] is filled with
    the descendants of every state, in state order. *)
Definition records_step (records : omap (list row)) (e : Entity)
  : result (omap (list row)) :=
  let entity := table_name e in
  match od_get String.eqb records entity with
  | Some _ => Ok records
  | None =>
      match od_get String.eqb records "states" with
      | None => Err (AttributeError "states")
      | Some states =>
          Ok (od_set String.eqb records entity
                (List.flat_map (fun state => getattr state entity) states))
      end
  end.

(** The body of [BaseSerializer.__records__] *)
Definition records_body {A} (self : obj A) : result (omap (list row)) * obj A :=
  (foldM records_step [("states", loadAll)] Entities,
   {| _options := _options self; cached_records := cached_records self;
      cached_serialize := cached_serialize self;
      loads := S (loads self); runs := runs self |}).

(** [BaseSerializer.__records__], a cached property *)
Definition __records__ {A} : obj A -> result (omap (list row)) * obj A :=
  cachedmethod cached_records
    (fun r self => {| _options := _options self; cached_records := Some r;
                      cached_serialize := cached_serialize self;
                      loads := loads self; runs := runs self |})
    records_body.

(** [self.__records__[table]] *)
Definition records_of {A} (table : string) (self : obj A)
  : result (list row) * obj A :=
  match __records__ self with
  | (Ok recs, self') =>
      (match od_get String.eqb recs table with
       | Some l => Ok l
       | None => Err (KeyError table)
       end, self')
  | (Err e, self') => (Err e, self')
  end.

(** ** [class Serializer] *)

(** The loop over [entity.__table__.columns] for one record. *)
Definition serialize_record (o : options) (e : Entity) (r : row)
  : result (omap value) :=
  let _record := serialize_row r in
  foldM (fun record column =>
           match od_get String.eqb _record column with
           | None => Err (KeyError column)
           | Some value =>
               let column := if localize o then gettext column else column in
               Ok (od_set String.eqb record column
                     (if forceStr o then VStr (str value) else value))
           end) [] (columns e).

(** The loop over [Entities] of [Serializer.serialize]. *)
Fixpoint serialize_loop {A} (es : list Entity) (records : omap (list (omap value)))
    (self : obj A) : result (omap (list (omap value))) * obj A :=
  match es with
  | [] => (Ok records, self)
  | entity :: es' =>
      match records_of (table_name entity) self with
      | (Err e, self') => (Err e, self')
      | (Ok [], self') => serialize_loop es' records self'        (* continue *)
      | (Ok _records, self') =>
          let table := if localize (_options self') then gettext (table_name entity)
                       else table_name entity in
          match mapM (serialize_record (_options self') entity) _records with
          | Err e => (Err e, self')
          | Ok rs => serialize_loop es' (od_set String.eqb records table rs) self'
          end
      end
  end.

Definition count_run {A} (self : obj A) : obj A :=
  {| _options := _options self; cached_records := cached_records self;
     cached_serialize := cached_serialize self;
     loads := loads self; runs := S (runs self) |}.

Definition set_serialize {A} (r : A) (self : obj A) : obj A :=
  {| _options := _options self; cached_records := cached_records self;
     cached_serialize := Some r; loads := loads self; runs := runs self |}.

(** [Serializer.serialize] *)
Definition Serializer_serialize
  : obj (omap (list (omap value))) ->
    result (omap (list (omap value))) * obj (omap (list (omap value))) :=
  cachedmethod cached_serialize set_serialize
    (fun self => serialize_loop Entities [] (count_run self)).

(** ** [class FlattenedSerializer] *)

(** [OrderedMap([(_(key), value) for key, value in
    record.serialize(flatten=True).items()])] *)
Definition flatten_record (r : row) : omap value :=
  od_of_pairs String.eqb
    (List.map (fun kv => (gettext (fst kv), snd kv)) (serialize_row_flat r)).

(** The loop over [Entities] of [FlattenedSerializer.serialize]: the
    records before the sort. *)
Fixpoint flatten_loop {A} (es : list Entity) (records : list (omap value))
    (self : obj A) : result (list (omap value)) * obj A :=
  match es with
  | [] => (Ok records, self)
  | entity :: es' =>
      match records_of (table_name entity) self with
      | (Err e, self') => (Err e, self')
      | (Ok rs, self') =>
          flatten_loop es' (records ++ List.map flatten_record rs)%list self'
      end
  end.

(** The body of [FlattenedSerializer.serialize] *)
Definition flattened_body (self : obj (list (omap value)))
  : result (list (omap value)) * obj (list (omap value)) :=
  match flatten_loop Entities [] (count_run self) with
  | (Ok records, self') => (sort sort_key records, self')
  | (Err e, self') => (Err e, self')
  end.

(** [FlattenedSerializer.serialize] *)
Definition FlattenedSerializer_serialize
  : obj (list (omap value)) ->
    result (list (omap value)) * obj (list (omap value)) :=
  cachedmethod cached_serialize set_serialize flattened_body.

End Dataset.

Arguments _options {row A}.
Arguments cached_records {row A}.
Arguments cached_serialize {row A}.
Arguments loads {row A}.
Arguments runs {row A}.

End Serializers.

(* ===================================================================== *)
(** * Vocabulary of the properties                                       *)
(* ===================================================================== *)

(** A sample entry of [bases.yaml]. *)
Definition base_2014 : Database.Base :=
  {| Database.year := 2014; Database.format := "xls";
     Database.archive := "ftp://geoftp.ibge.gov.br/dtb_2014.zip";
     Database.file := "DTB_2014_subdistrito.xls" |}.

(** The attributes of a freshly constructed [Database(base_2014)] whose
    [_data] was then filled by a parser with [data] and [_rows] with [rows]. *)
Definition loaded (rows : list (list value)) (data : list (string * list item))
  : Database.t :=
  let '(i, c) := Database.__init__ base_2014 Database.class_body in
  let d := Database.attrs i c in
  {| Database._base := Database._base d;
     Database._name := Database._name d;
     Database._cols := Database._cols d;
     Database._rows := rows;
     Database._data := fold_left (fun m kv => <[fst kv := snd kv]> m) data
                                 (Database._data d);
     Database._rawdata := Database._rawdata d |}.

Definition exporter (db : Database.t) (minified : bool) : BaseExporter.t :=
  {| BaseExporter._db := db; BaseExporter._minified := minified |}.

(** The twelve column names one construction appends to [_cols]. *)
Definition init_cols : list string :=
  List.flat_map (fun t => ["id_" +:+ t; "nome_" +:+ t]) Database._tables.

(** ** Unregistered formats *)

(** The claim C1 as it is written, for one run of [export_db]: the run fails
    with a [ConfigurationError] and nothing was done before. *)
Definition rejected_before_any_read (before : DTB.t) (r : result unit * DTB.t)
  : Prop :=
  (exists msg, fst r = Err (Raise "ConfigurationError" msg))
  /\ DTB.trace (snd r) = DTB.trace before.

(** Events of the exporter proper: rendering and output. *)
Definition export_work (e : DTB.event) : bool :=
  match e with
  | DTB.Render _ | DTB.WriteFile _ _ | DTB.Stdout _ | DTB.Log _ => true
  | DTB.Parse _ => false
  end.

(** A parser that fills the [uf] table with one record. *)
Definition sample_parser (db : Database.t) : result Database.t :=
  Ok {| Database._base := Database._base db;
        Database._name := Database._name db;
        Database._cols := Database._cols db;
        Database._rows := [[VInt 11; VStr "Rondonia"]];
        Database._data :=
          <["uf" := [ {[ "id" := VInt 11; "nome" := VStr "Rondonia" ]} ]]>
            (Database._data db);
        Database._rawdata := Database._rawdata db |}.

Definition sample_dtb : DTB.t :=
  {| DTB._db := loaded [] []; DTB.trace := [] |}.

(** ** CSV rows *)

(** A database whose only row holds a zero, an empty string, a padding
    [None] and a name. *)
Definition db_falsy_row : Database.t :=
  loaded [[VInt 0; VStr ""; VNone; VStr "Rondonia"]] [].

(** ** Repeated calls of a method on one instance *)

(** [n] calls in a row: the results, and the instance afterwards. *)
Fixpoint calls {S R : Type} (f : S -> result R * S) (n : nat) (self : S)
  : list (result R) * S :=
  match n with
  | O => ([], self)
  | S n' =>
      let '(r, self') := f self in
      let '(rs, self'') := calls f n' self' in
      (r :: rs, self'')
  end.

(** A small dataset for the serializers: rows are numbered, a state has the
    id itself, and state 11 has the mesoregions 1101 and 1102. *)
Definition sample_entities : list Serializers.Entity :=
  [ {| Serializers.table_name := "states";
       Serializers.columns := ["id"; "name"] |};
    {| Serializers.table_name := "mesoregions";
       Serializers.columns := ["id"; "state_id"; "name"] |} ].

Definition sample_getattr (state : Z) (entity : string) : list Z :=
  if String.eqb entity "mesoregions"
  then (if Z.eqb state 11 then [1102; 1101] else [])
  else [].

Definition sample_serialize_row (r : Z) : list (string * value) :=
  if Z.ltb r 100
  then [("id", VInt r); ("name", VStr "state")]
  else [("id", VInt r); ("state_id", VInt (r / 100)); ("name", VStr "meso")].

Definition sample_serialize_row_flat (r : Z) : list (string * value) :=
  if Z.ltb r 100
  then [("state_id", VInt r); ("state_name", VStr "state")]
  else [("state_id", VInt (r / 100)); ("mesoregion_id", VInt r);
        ("mesoregion_name", VStr "meso")].

Definition fresh_serializer (A : Type) : Serializers.obj Z A :=
  {| Serializers._options := {| Serializers.localize := false;
                                Serializers.forceStr := false |};
     Serializers.cached_records := None;
     Serializers.cached_serialize := None;
     Serializers.loads := 0; Serializers.runs := 0 |}.

(** ** Tables with and without records *)

(** [bool(self._db._data[table_name])] *)
Definition has_records (db : Database.t) (table_name : string) : bool :=
  match Database._data db !! table_name with
  | Some (_ :: _) => true
  | _ => false
  end.

(** The tables that have at least one record, in the order of [_tables]. *)
Definition nonempty_tables (db : Database.t) : list string :=
  List.filter (has_records db) Database._tables.

(** The six tables are present and every record has the fields of its
    table: what [Database.__init__] and a parser establish. *)
Definition well_formed (self : BaseExporter.t) : Prop :=
  forall t fields, In (t, fields) Database._fields ->
    exists rows, Database._data (BaseExporter._db self) !! t = Some rows
      /\ forall it f, In it rows -> In f fields -> exists v, it !! f = Some v.

(** Every string the exporters decode is valid UTF-8. *)
Definition decodable (decode_utf8 : string -> result string)
    (self : BaseExporter.t) : Prop :=
  forall t rows it f v,
    Database._data (BaseExporter._db self) !! t = Some rows ->
    In it rows -> it !! f = Some v ->
    exists u, decode_utf8 (str v) = Ok u.

(** One state, one mesoregion below it, nothing deeper. *)
Definition db_one_child : Database.t :=
  loaded []
    [ ("uf", [ {[ "id" := VInt 11; "nome" := VStr "Rondonia" ]} ]);
      ("mesorregiao",
         [ {[ "id" := VInt 1101; "id_uf" := VInt 11;
              "nome" := VStr "Madeira-Guapore" ]} ]) ].

(** ** Quotes in SQL values *)

(** [s] with [esc] written in place of every quote character and every
    other character kept. *)
Fixpoint escape_quotes (esc s : string) : string :=
  match s with
  | EmptyString => EmptyString
  | String c s' =>
      if Ascii.eqb c "'" then esc +:+ escape_quotes esc s'
      else String c (escape_quotes esc s')
  end.

(** The columns of a table that hold ints: all but the last, [nome]. *)
Definition int_columns (table_name : string) : list string :=
  match lookup_table Database._fields table_name with
  | Ok fields => removelast fields
  | Err _ => []
  end.

(** ** Order of the SQL statements *)

(** Position of a table in [Database._tables]. *)
Fixpoint index_of (t : string) (l : list string) : nat :=
  match l with
  | [] => O
  | x :: l' => if String.eqb x t then O else S (index_of t l')
  end.

Definition rank (t : string) : nat := index_of t Database._tables.

(** Pieces that create or fill a table. *)
Definition is_load (k : SQL.kind) : bool :=
  match k with
  | SQL.KCreateTable | SQL.KInsert => true
  | _ => false
  end.

Definition is_banner (k : SQL.kind) : bool :=
  match k with
  | SQL.KBanner => true
  | _ => false
  end.

(** How a lazy constraint of a table starts, and an inline one. *)
Definition alter_table (t : string) : string :=
  "ALTER TABLE " +:+ t +:+ SQL.nl +:+ "  ADD CONSTRAINT ".

Definition inline_constraint : string := "  CONSTRAINT ".

(** Place of a statement in the script: the table's position, and within a
    table the load (CREATE TABLE, INSERT) before the rest. *)
Definition place (p : SQL.piece) : nat :=
  (2 * rank (SQL.p_table p) + (if is_load (SQL.p_kind p) then 0 else 1))%nat.

(** The banner [table_pieces] writes before a part, unless minified. *)
Definition note (self : SQL.t) (what t : string) : list SQL.piece :=
  if BaseExporter._minified (SQL.base self) then []
  else [ {| SQL.p_kind := SQL.KBanner; SQL.p_table := t;
            SQL.p_text := SQL.banner what t |} ].

(** The statements of a table without the banners. *)
Definition statements (self : SQL.t) (t : string) (cols : list string)
    (lines : list string)
  : list SQL.piece :=
  ([ {| SQL.p_kind := SQL.KCreateTable; SQL.p_table := t;
        SQL.p_text := SQL.__table t cols |} ]
   ++ List.map (fun l => {| SQL.p_kind := SQL.KInsert; SQL.p_table := t;
                            SQL.p_text := l |}) lines
   ++ (if SQL._lazy_constraints self
       then match lookup_table (SQL._constraints self) t with
            | Ok cs => [ {| SQL.p_kind := SQL.KConstraints; SQL.p_table := t;
                            SQL.p_text := SQL.__constraints cs |} ]
            | Err _ => []
            end
       else [])
   ++ (if SQL._create_indexes self
       then match od_get String.eqb (SQL._indexes self) t with
            | Some ixs => [ {| SQL.p_kind := SQL.KIndexes; SQL.p_table := t;
                               SQL.p_text := SQL.__indexes ixs |} ]
            | None => []
            end
       else []))%list.

Definition no_banner (ps : list SQL.piece) : list SQL.piece :=
  List.filter (fun p => negb (is_banner (SQL.p_kind p))) ps.


(** A table's share of the script: its name, the column and constraint
    lines of its CREATE TABLE, and its INSERT lines. *)
Definition block : Type := string * list string * list string.

Definition block_table (b : block) : string := fst (fst b).

Definition block_statements (self : SQL.t) (b : block) : list SQL.piece :=
  statements self (fst (fst b)) (snd (fst b)) (snd b).

(** The CREATE TABLE of a block lists the columns of the table, followed by
    its constraints when they are not lazy; lazy constraints exist. *)
Definition block_ok (self : SQL.t) (b : block) : Prop :=
  exists tcols cs,
    lookup_table (SQL._tables self) (block_table b) = Ok tcols
    /\ lookup_table (SQL._constraints self) (block_table b) = Ok cs
    /\ snd (fst b) = if SQL._lazy_constraints self then tcols
                     else (tcols ++ cs)%list.

Definition place_le (p q : SQL.piece) : Prop := (place p <= place q)%nat.


(** ** The records cache of a serializer *)

(** A key is present in an ordered map. *)
Definition present {V} (d : list (string * V)) (k : string) : Prop :=
  exists v, od_get String.eqb d k = Some v.

(** The records cached on an instance, if any, hold every table of the
    schema (what [__records__] stores; a new instance has no cache). *)
Definition cache_ok {row A} (Entities : list Serializers.Entity)
    (self : Serializers.obj row A) : Prop :=
  match Serializers.cached_records self with
  | Some recs => forall e, In e Entities -> present recs (Serializers.table_name e)
  | None => True
  end.

(** ** Order of the flattened records *)

Definition key_fields : list string :=
  ["state_id"; "mesoregion_id"; "microregion_id"; "municipality_id";
   "district_id"; "subdistrict_id"].

(** A field of the composite key, an absent (or [None]) field counting as
    zero. *)
Definition field_or_zero (record : list (string * value)) (k : string) : Z :=
  match od_get String.eqb record k with
  | Some (VInt z) => z
  | _ => 0
  end.

(** The composite key (state_id, mesoregion_id, microregion_id,
    municipality_id, district_id, subdistrict_id) of a record. *)
Definition composite_key (record : list (string * value)) : list Z :=
  List.map (field_or_zero record) key_fields.

(** The ids of a record are numeric: each key field is an int, [None] or
    absent. *)
Definition ids_numeric (record : list (string * value)) : Prop :=
  forall k, In k key_fields ->
    od_get String.eqb record k = None
    \/ od_get String.eqb record k = Some VNone
    \/ exists z, od_get String.eqb record k = Some (VInt z).

(** Lexicographic [<] and [<=] on keys. *)
Fixpoint lex_ltb (a b : list Z) : bool :=
  match a, b with
  | x :: a', y :: b' => if Z.eqb x y then lex_ltb a' b' else Z.ltb x y
  | [], _ :: _ => true
  | _, [] => false
  end.

Definition key_le (a b : list Z) : Prop := lex_ltb b a = false.

Definition has_key (k : list Z) (record : list (string * value)) : bool :=
  if List.list_eq_dec Z.eq_dec (composite_key record) k then true else false.

(** Insertion sort on the composite key, without the exceptions. *)
Fixpoint key_insert (x : list (string * value)) (sorted : list (list (string * value)))
  : list (list (string * value)) :=
  match sorted with
  | [] => [x]
  | y :: sorted' =>
      if lex_ltb (composite_key x) (composite_key y) then x :: y :: sorted'
      else y :: key_insert x sorted'
  end.

Definition key_sort (l : list (list (string * value))) : list (list (string * value)) :=
  fold_left (fun sorted x => key_insert x sorted) l [].


Definition record_le (a b : list (string * value)) : Prop :=
  key_le (composite_key a) (composite_key b).

(** The hierarchy ids of a flattened record, read under the names the
    record has them: its keys went through [_]. *)
Definition hierarchy_key (gettext : string -> string)
    (record : list (string * value)) : list Z :=
  List.map (fun k => field_or_zero record (gettext k)) key_fields.

Definition has_hierarchy_key (gettext : string -> string) (k : list Z)
    (record : list (string * value)) : bool :=
  if List.list_eq_dec Z.eq_dec (hierarchy_key gettext record) k then true else false.

(** A catalogue that translates the field names, as the Portuguese one
    does. *)
Definition translated (s : string) : string :=
  if String.eqb s "state_id" then "id_uf"
  else if String.eqb s "state_name" then "nome_uf"
  else if String.eqb s "mesoregion_id" then "id_mesorregiao"
  else if String.eqb s "mesoregion_name" then "nome_mesorregiao"
  else s.

(** Two states, the first with two mesoregions, all in id order. *)
Definition ordered_getattr (state : Z) (entity : string) : list Z :=
  if String.eqb entity "mesoregions"
  then (if Z.eqb state 11 then [1101; 1102] else [])
  else [].

(** ** Reading an SQL script back *)

(** Modelled from the spec: the reader of the relational format is not part
    of the sources. It returns the string values of a script, in order: a
    value starts after a quote and runs to the next quote that is not
    escaped; a backslash makes the character after it part of the value
    (the standard dialect's convention). [cur] is the value being read, if
    any, and [esc] tells that the last character was an escaping backslash. *)
Fixpoint read_literals (cur : option string) (esc : bool) (s : string)
  : list string :=
  match s with
  | EmptyString => []
  | String c s' =>
      match cur with
      | None =>
          if Ascii.eqb c "'" then read_literals (Some "") false s'
          else read_literals None false s'
      | Some v =>
          if esc then read_literals (Some (v +:+ String c "")) false s'
          else if Ascii.eqb c "\" then read_literals (Some v) true s'
          else if Ascii.eqb c "'" then v :: read_literals None false s'
          else read_literals (Some (v +:+ String c "")) false s'
      end
  end.

Definition sql_string_values (script : string) : list string :=
  read_literals None false script.

(** A state whose name holds a comma followed by a blank. *)
Definition db_comma_name : Database.t :=
  loaded [] [ ("uf", [ {[ "id" := VInt 11; "nome" := VStr "Sao Joao, Vila" ]} ]) ].

(** A state and a mesoregion whose names hold two blanks in a row, and a
    blank after an opening parenthesis. *)
Definition db_blank_names : Database.t :=
  loaded []
    [ ("uf", [ {[ "id" := VInt 11; "nome" := VStr "Alta  Floresta" ]} ]);
      ("mesorregiao",
         [ {[ "id" := VInt 1101; "id_uf" := VInt 11;
              "nome" := VStr "Leste ( Sede )" ]} ]) ].

(* ===================================================================== *)
(** * Vocabulary of the further properties                               *)
(* ===================================================================== *)

(** ** The SQL script *)

(** Order of the statements of one table. *)
Definition phase (k : SQL.kind) : nat :=
  match k with
  | SQL.KBanner => 0
  | SQL.KCreateTable => 0
  | SQL.KInsert => 1
  | SQL.KConstraints => 2
  | SQL.KIndexes => 3
  end.

Definition statement_place (p : SQL.piece) : nat :=
  (4 * rank (SQL.p_table p) + phase (SQL.p_kind p))%nat.

Definition is_kind (k : SQL.kind) (p : SQL.piece) : bool :=
  match k, SQL.p_kind p with
  | SQL.KBanner, SQL.KBanner | SQL.KCreateTable, SQL.KCreateTable
  | SQL.KInsert, SQL.KInsert | SQL.KConstraints, SQL.KConstraints
  | SQL.KIndexes, SQL.KIndexes => true
  | _, _ => false
  end.

(** The INSERT lines written for a table, in script order. *)
Definition inserts_of (t : string) (ps : list SQL.piece) : list string :=
  List.map SQL.p_text
    (List.filter (fun p => is_kind SQL.KInsert p && String.eqb (SQL.p_table p) t) ps).

(** Every table is present, and every record holds ints in its id columns
    and a string in [nome]. *)
Definition well_typed (db : Database.t) : Prop :=
  forall t, In t Database._tables ->
    exists rows, Database._data db !! t = Some rows
      /\ forall it, In it rows ->
           (forall f, In f (int_columns t) -> exists z, it !! f = Some (VInt z))
           /\ exists s, it !! "nome" = Some (VStr s).

Definition statement_le (p q : SQL.piece) : Prop :=
  (statement_place p <= statement_place q)%nat.

(** ** Characters of a string *)

Definition chars (s : string) : list ascii := list_ascii_of_string s.

(** [s] without the characters that satisfy [p]. *)
Fixpoint delete_chars (p : ascii -> bool) (s : string) : string :=
  match s with
  | EmptyString => EmptyString
  | String c s' => if p c then delete_chars p s' else String c (delete_chars p s')
  end.

(** The longest prefix of characters that satisfy [p], and what follows. *)
Fixpoint run_length (p : ascii -> bool) (s : string) : nat :=
  match s with
  | String c s' => if p c then S (run_length p s') else O
  | EmptyString => O
  end.

Fixpoint after_run (p : ascii -> bool) (s : string) : string :=
  match s with
  | String c s' => if p c then after_run p s' else s
  | EmptyString => EmptyString
  end.

Fixpoint run_rev (p : ascii -> bool) (s : string) (acc : list ascii) : list ascii :=
  match s with
  | String c s' => if p c then run_rev p s' (c :: acc) else acc
  | EmptyString => acc
  end.

(** ** [class plist] *)
Module plist.

Definition tab : ascii := ascii_of_nat 9.

(** The pattern of [re.sub('[\n\t]+', '', plist_str)]: a run of newlines
    and tabs. *)
Definition newlines_tabs : Re.re :=
  Re.Plus (Re.Chr (fun c => Ascii.eqb c Re.newline || Ascii.eqb c tab)).

Section Plistlib.
(** [s.decode('utf-8')] *)
Variable decode_utf8 : string -> result string.
(** [plistlib.writePlistToString] with the patched [writeDict] (library
    code). *)
Variable writePlistToString :
  list (string * list (value * list (string * value))) -> string.

(** [plist.__str__] *)
Definition __str__ (self : BaseExporter.t) : result string :=
  let? d := BaseExporter.__toDict__ decode_utf8 self true true in
  let plist_str := writePlistToString d in
  Ok (if BaseExporter._minified self then Re.sub newlines_tabs "" plist_str
      else plist_str).
End Plistlib.

End plist.

(** A stand-in for the property-list writer: one line per table, indented
    by a tab. *)
Definition sample_plist_writer
    (d : list (string * list (value * list (string * value)))) : string :=
  concat_all (List.map (fun kv => String plist.tab ("<key>" +:+ fst kv +:+ "</key>")
                                  +:+ SQL.nl) d).

(** ** Constructing several databases *)

(** The class store after constructing one [Database] per base. *)
Definition construct_all (bases : list Database.Base) (c : Database.class_store)
  : Database.class_store :=
  fold_left (fun c b => snd (Database.__init__ b c)) bases c.

(** ** The events of an export *)


(** A database with a column name that is not ASCII (the byte 195). *)
Definition db_latin_column : Database.t :=
  {| Database._base := base_2014; Database._name := "dtb_2014";
     Database._cols := ["id_uf"; String (ascii_of_nat 195) "rea"];
     Database._rows := [[VInt 11; VStr "Rondonia"]];
     Database._data := ∅; Database._rawdata := None |}.

(** A parser that fails and an exporter that fails. *)
Definition failing_parser (db : Database.t) : result Database.t :=
  Err (Raise "XLRDError" "Unsupported format, or corrupt file").


(** ** The records of the serializers *)

(** The records of a table: the states themselves, or the descendants in
    that table of every state, in state order. *)
Definition records_for {row : Type} (loadAll : list row)
    (getattr : row -> string -> list row) (name : string) : list row :=
  if String.eqb name "states" then loadAll
  else List.flat_map (fun state => getattr state name) loadAll.

(** The name a table or column goes by in the output. *)
Definition label (o : Serializers.options) (gettext : string -> string)
    (name : string) : string :=
  if Serializers.localize o then gettext name else name.

(** The value written for a column. *)
Definition written (o : Serializers.options) (v : value) : value :=
  if Serializers.forceStr o then VStr (str v) else v.

(** The records map holds the states and, for every name it has, the
    records of that table. *)
Definition records_filled {row : Type} (loadAll : list row)
    (getattr : row -> string -> list row) (recs : list (string * list row)) : Prop :=
  od_get String.eqb recs "states" = Some loadAll
  /\ forall k v, od_get String.eqb recs k = Some v -> v = records_for loadAll getattr k.

(** The records cached on an instance, if any, are those of the dataset. *)
Definition cache_filled {row A : Type} (Entities : list Serializers.Entity)
    (loadAll : list row) (getattr : row -> string -> list row)
    (self : Serializers.obj row A) : Prop :=
  match Serializers.cached_records self with
  | None => True
  | Some recs =>
      forall e, In e Entities ->
        od_get String.eqb recs (Serializers.table_name e)
        = Some (records_for loadAll getattr (Serializers.table_name e))
  end.

(** The table of an entity has records. *)
Definition has_rows {row : Type} (loadAll : list row)
    (getattr : row -> string -> list row) (e : Serializers.Entity) : bool :=
  match records_for loadAll getattr (Serializers.table_name e) with
  | [] => false
  | _ :: _ => true
  end.


(** The flattened records of the dataset, table after table in schema
    order, before they are sorted. *)
Definition flattened_records {row : Type} (Entities : list Serializers.Entity)
    (loadAll : list row) (getattr : row -> string -> list row)
    (serialize_row_flat : row -> list (string * value))
    (gettext : string -> string) : list (list (string * value)) :=
  List.flat_map
    (fun e => List.map (Serializers.flatten_record row serialize_row_flat gettext)
                (records_for loadAll getattr (Serializers.table_name e)))
    Entities.

(** An item of a serialized record: the column under its output name, with
    the value [record.serialize()] gives for it. *)
Definition column_item (o : Serializers.options) (gettext : string -> string)
    (_record : list (string * value)) (column : string) (kv : string * value) : Prop :=
  fst kv = label o gettext column
  /\ exists v, od_get String.eqb _record column = Some v /\ snd kv = written o v.

(** [item[key]] for a key the record has. *)
Definition item_field (it : item) (key : string) : value :=
  match it !! key with
  | Some v => v
  | None => VNone
  end.

(** The key a record is stored under: its id, as a string under [strKeys]. *)
Definition item_id (strKeys : bool) (it : item) : value :=
  if strKeys then VStr (str (item_field it "id")) else item_field it "id".

(** What is stored for a record: its fields other than the id, in the
    order of the table's fields. *)
Definition item_rest (fields : list string) (it : item) : list (string * value) :=
  List.map (fun f => (f, item_field it f))
           (List.filter (fun f => negb (String.eqb f "id")) fields).

(** Three states, the first two with the same id. *)
Definition db_repeated_id : Database.t :=
  loaded []
    [ ("uf", [ {[ "id" := VInt 11; "nome" := VStr "Rondonia" ]};
               {[ "id" := VInt 11; "nome" := VStr "Acre" ]};
               {[ "id" := VInt 13; "nome" := VStr "Amazonas" ]} ]) ].

(** A node that is not a comment. *)
Definition not_comment (n : XML.node) : bool :=
  match n with
  | XML.Comment _ => false
  | XML.Element _ _ _ _ => true
  end.

(** A node without the comments among its children. *)
Definition without_comments (n : XML.node) : XML.node :=
  match n with
  | XML.Element tag attrib text children =>
      XML.Element tag attrib text (List.filter not_comment children)
  | XML.Comment _ => n
  end.
(* ===================================================================== *)
(** * Properties                                                         *)
(* ===================================================================== *)

(** ** [Database]: class-level containers *)

Lemma init_step_cols (ts : list string) (c : Database.class_store) :
  Database.cls_cols (fold_left Database.init_step ts c)
  = (Database.cls_cols c
     ++ List.flat_map (fun t => ["id_" +:+ t; "nome_" +:+ t]) ts)%list.
Proof.
  revert c. induction ts as [|t ts IH]; intros c; simpl.
  - now rewrite app_nil_r.
  - rewrite IH. simpl. now rewrite <- !app_assoc.
Qed.

Lemma init_step_rows (ts : list string) (c : Database.class_store) :
  Database.cls_rows (fold_left Database.init_step ts c) = Database.cls_rows c.
Proof. revert c. induction ts as [|t ts IH]; intros c; simpl; [|rewrite IH]; reflexivity. Qed.

Lemma init_step_data_reset (ts : list string) (c : Database.class_store) (t : string) :
  In t ts -> Database.cls_data (fold_left Database.init_step ts c) !! t = Some [].
Proof.
  revert c. induction ts as [|t' ts IH]; intros c Hin; [destruct Hin|].
  simpl. destruct (in_dec string_dec t ts) as [Hi|Hn].
  - now apply IH.
  - destruct Hin as [->|Hi]; [|contradiction].
    clear IH. revert c. induction ts as [|u ts IH]; intros c; simpl.
    + apply lookup_insert_eq.
    + assert (Hne : u <> t) by (intros ->; apply Hn; now left).
      assert (Hn' : ~ In t ts) by (intros H; apply Hn; now right).
      specialize (IH Hn').
      (* the later assignments leave the entry of [t] alone *)
      assert (Hgen : forall c', Database.cls_data c' !! t = Some [] ->
                Database.cls_data (fold_left Database.init_step ts c') !! t = Some []).
      { clear -Hn'. induction ts as [|v ts IH]; intros c' Hc'; simpl; [exact Hc'|].
        apply IH.
        - intros H; apply Hn'; now right.
        - simpl. destruct (decide (v = t)) as [->|Hvt].
          + apply lookup_insert_eq.
          + rewrite lookup_insert_ne by exact Hvt. exact Hc'. }
      apply Hgen. simpl. rewrite lookup_insert_ne by exact Hne. apply lookup_insert_eq.
Qed.

(** C10. Two [Database] instances read [_cols], [_rows] and [_data] from the
    same class-level objects: after a second instance is constructed, the
    first one sees the twelve column names the second constructor appended
    (its [_cols] has changed without being touched through it), both
    instances see the same [_cols], [_rows] and [_data], and the [_data]
    entries seen through the first were reset by the second constructor. *)
Theorem C10_instances_alias_class_storage :
  forall (b1 b2 : Database.Base) (c0 : Database.class_store),
    let '(i1, c1) := Database.__init__ b1 c0 in
    let '(i2, c2) := Database.__init__ b2 c1 in
    Database._cols (Database.attrs i1 c2)
      = (Database._cols (Database.attrs i1 c1) ++ init_cols)%list
    /\ Database._cols (Database.attrs i1 c2) <> Database._cols (Database.attrs i1 c1)
    /\ Database._cols (Database.attrs i1 c2) = Database._cols (Database.attrs i2 c2)
    /\ Database._rows (Database.attrs i1 c2) = Database._rows (Database.attrs i2 c2)
    /\ Database._data (Database.attrs i1 c2) = Database._data (Database.attrs i2 c2)
    /\ (forall t, In t Database._tables ->
          Database._data (Database.attrs i1 c2) !! t = Some []).
Proof.
  intros b1 b2 c0. unfold Database.__init__. cbn [Database.attrs Database._cols
    Database._rows Database._data].
  set (c1 := fold_left Database.init_step Database._tables c0).
  repeat split.
  - apply init_step_cols.
  - rewrite init_step_cols. intros H.
    apply (f_equal (@List.length string)) in H.
    rewrite length_app in H. simpl in H. lia.
  - intros t Ht. now apply init_step_data_reset.
Qed.

(** ** [DTB.export_db]: unregistered formats *)

Lemma od_get_app_None {V} (d : list (string * V)) (k : string) :
  od_get String.eqb d k = None <-> ~ In k (List.map fst d).
Proof.
  unfold od_get. induction d as [|[k' v] d IH]; simpl.
  - tauto.
  - destruct (String.eqb_spec k' k) as [->|Hne]; simpl.
    + split; [discriminate|]. intros H. exfalso. apply H. now left.
    + rewrite IH. split; [intros H [E|E]; [now apply Hne|now apply H]|].
      intros H E. apply H. now right.
Qed.

(** C1 (as written) fails: with the format identifier ["unknown-format"]
    and a registry that holds the SQL exporter, [export_db] raises a plain
    [Exception], not a [ConfigurationError], and it does so after the parser
    ran on the database. *)
Lemma C1_counterexample :
  let r := DTB.export_db [("xls", sample_parser)] [("sql", DTB.SQL_exporter)]
             sample_dtb "unknown-format" false None in
  fst r = Err (Raise "Exception" "Unsupported output format.")
  /\ DTB.trace (snd r) = [DTB.Parse "xls"]
  /\ Database._rows (DTB._db (snd r)) = [[VInt 11; VStr "Rondonia"]]
  /\ ~ rejected_before_any_read sample_dtb r.
Proof.
  cbv zeta. split; [reflexivity|]. split; [reflexivity|]. split; [reflexivity|].
  intros [[msg Hmsg] Htrace]. cbn in Htrace. discriminate Htrace.
Qed.

(** C1 (amended). For a format identifier that is not registered,
    [export_db] fails, and it fails before any exporter work: no message is
    logged, nothing is rendered and nothing is written (the only event it may
    add is the run of the input parser). When the input parser is registered
    and returns, the failure is the plain
    [Exception('Unsupported output format.')]. *)
Theorem C1_unregistered_format_rejected :
  forall (parsers : list (string * (Database.t -> result Database.t)))
         (exporters : list (string * DTB.Exporter))
         (self : DTB.t) (format : string) (minified : bool)
         (filename : option string),
    ~ In format (List.map fst exporters) ->
    let r := DTB.export_db parsers exporters self format minified filename in
    (exists e, fst r = Err e)
    /\ (forall e, In e (DTB.trace (snd r)) ->
          In e (DTB.trace self) \/ export_work e = false)
    /\ (forall parser db,
          od_get String.eqb parsers (Database.format (Database._base (DTB._db self)))
            = Some parser ->
          parser (DTB._db self) = Ok db ->
          fst r = Err (Raise "Exception" "Unsupported output format.")
          /\ DTB._db (snd r) = db).
Proof.
  intros parsers exporters self format minified filename Hnot r.
  apply od_get_app_None in Hnot.
  subst r. unfold DTB.export_db.
  destruct (od_get String.eqb parsers _) as [parser|] eqn:Hp.
  - cbn [DTB._db DTB.emit].
    destruct (parser (DTB._db self)) as [db|e] eqn:Hparse.
    + rewrite Hnot. cbn. split; [eauto|]. split.
      * intros e He. apply in_app_or in He. destruct He as [He|[<-|[]]]; auto.
      * intros parser' db' [= <-] Hok. split; congruence.
    + cbn. split; [eauto|]. split.
      * intros e' He. apply in_app_or in He. destruct He as [He|[<-|[]]]; auto.
      * intros parser' db' [= <-] Hok. congruence.
  - cbn. split; [eauto|]. split; [auto|]. intros; discriminate.
Qed.

Lemma C1_unregistered_format_rejected_witness :
  ~ In "unknown-format" (List.map fst [("sql", DTB.SQL_exporter)])
  /\ fst (DTB.export_db [("xls", sample_parser)] [("sql", DTB.SQL_exporter)]
            sample_dtb "unknown-format" true (Some "auto"))
     = Err (Raise "Exception" "Unsupported output format.").
Proof.
  assert (H : ~ In "unknown-format" (List.map fst [("sql", DTB.SQL_exporter)])).
  { simpl. intros [E|[]]. discriminate E. }
  split; [exact H|].
  destruct (C1_unregistered_format_rejected
              [("xls", sample_parser)] [("sql", DTB.SQL_exporter)]
              sample_dtb "unknown-format" true (Some "auto") H)
    as (_ & _ & Hexn).
  exact (proj1 (Hexn sample_parser _ eq_refl eq_refl)).
Defined.

(** ** [CSV]: which fields of a row are written *)

Lemma truthy_false_iff (v : value) :
  truthy v = false <-> v = VNone \/ v = VInt 0 \/ v = VStr "".
Proof.
  destruct v as [|z|s]; simpl.
  - intuition.
  - rewrite negb_false_iff, Z.eqb_eq. split; [intros ->; auto|].
    intros [H|[H|H]]; congruence.
  - rewrite negb_false_iff. split.
    + intros H. apply String.eqb_eq in H. subst. auto.
    + intros [H|[H|H]]; try discriminate. injection H as ->. reflexivity.
Qed.

Lemma data_row_filter (row : list value) :
  CSV.data_row row = List.filter truthy row.
Proof.
  unfold CSV.data_row. induction (List.filter truthy row) as [|v l IH]; simpl.
  - reflexivity.
  - rewrite IH. now destruct v.
Qed.

(** C8 (as written) fails: a row that holds the int [0] and the empty
    string next to a [None] loses all three, although the zero and the
    empty string are present values; the row written has one field. *)
Lemma C8_counterexample :
  CSV.written_rows (exporter db_falsy_row false)
  = Ok [ List.map VStr init_cols; [VStr "Rondonia"] ]
  /\ In (VInt 0) [VInt 0; VStr ""; VNone; VStr "Rondonia"]
  /\ VInt 0 <> VNone
  /\ ~ In (VInt 0) (CSV.data_row [VInt 0; VStr ""; VNone; VStr "Rondonia"])
  /\ ~ (forall row v, In v row -> v <> VNone -> In v (CSV.data_row row)).
Proof.
  split; [reflexivity|]. split; [simpl; auto|]. split; [discriminate|].
  assert (H : ~ In (VInt 0) (CSV.data_row [VInt 0; VStr ""; VNone; VStr "Rondonia"])).
  { simpl. intros [E|[]]. discriminate E. }
  split; [exact H|].
  intros Hall. apply H. apply Hall; [simpl; auto|discriminate].
Qed.

(** C8 (amended). In the CSV export the header is followed by one written
    row per data row, and the written row holds, in their order, exactly the
    values of the data row whose Python truth value is true: a field is
    left out iff its value is [None], the int [0] or the empty string, and
    every other value is written. *)
Theorem C8_csv_rows_drop_falsy_values :
  forall (self : BaseExporter.t),
    CSV.written_rows self
    = Py.bind (CSV.header_row (Database._cols (BaseExporter._db self)))
        (fun h => Ok (h :: List.map (List.filter truthy)
                                    (Database._rows (BaseExporter._db self))))
    /\ (forall row v,
          In v (CSV.data_row row)
          <-> In v row /\ ~ (v = VNone \/ v = VInt 0 \/ v = VStr "")).
Proof.
  intros self. split.
  - unfold CSV.written_rows.
    destruct (CSV.header_row _) as [h|e]; simpl; [|reflexivity].
    do 2 f_equal. apply List.map_ext. intros row. apply data_row_filter.
  - intros row v. rewrite data_row_filter, List.filter_In, <- truthy_false_iff.
    destruct (truthy v); intuition congruence.
Qed.

(** ** Serializers: memoization *)

Section Memo.
Context {S R : Type} (get : S -> option R) (set : R -> S -> S)
        (body : S -> result R * S).
Hypothesis get_set : forall r s, get (set r s) = Some r.

Lemma cachedmethod_hit (s : S) (r : R) :
  get s = Some r -> Serializers.cachedmethod get set body s = (Ok r, s).
Proof. intros H. unfold Serializers.cachedmethod. now rewrite H. Qed.

Lemma cachedmethod_fills (s s1 : S) (r : R) :
  Serializers.cachedmethod get set body s = (Ok r, s1) -> get s1 = Some r.
Proof.
  unfold Serializers.cachedmethod. destruct (get s) as [r0|] eqn:Hg.
  - intros [= <- <-]. exact Hg.
  - destruct (body s) as [[r0|e] s']; intros [= <- <-]. apply get_set.
Qed.

Lemma cachedmethod_again (s s1 : S) (r : R) :
  Serializers.cachedmethod get set body s = (Ok r, s1) ->
  Serializers.cachedmethod get set body s1 = (Ok r, s1).
Proof. intros H. apply cachedmethod_hit. eapply cachedmethod_fills, H. Qed.

Lemma cachedmethod_calls (s s1 : S) (r : R) (n : nat) :
  Serializers.cachedmethod get set body s = (Ok r, s1) ->
  calls (Serializers.cachedmethod get set body) n s1 = (List.repeat (Ok r) n, s1).
Proof.
  intros H. apply cachedmethod_again in H.
  induction n as [|n IH]; simpl; [reflexivity|]. now rewrite H, IH.
Qed.
End Memo.

Section SerializerMemo.
Variable row : Type.
Variable Entities : list Serializers.Entity.
Variable loadAll : list row.
Variable getattr : row -> string -> list row.
Variable serialize_row : row -> list (string * value).
Variable gettext : string -> string.

Lemma records_runs {A} (self self' : Serializers.obj row A) r :
  Serializers.__records__ row Entities loadAll getattr self = (r, self') ->
  Serializers.runs self' = Serializers.runs self
  /\ Serializers._options self' = Serializers._options self
  /\ Serializers.cached_serialize self' = Serializers.cached_serialize self.
Proof.
  unfold Serializers.__records__, Serializers.cachedmethod.
  destruct (Serializers.cached_records self).
  - intros [= <- <-]. auto.
  - unfold Serializers.records_body.
    destruct (foldM _ _ _); intros [= <- <-]; auto.
Qed.

Lemma records_of_runs {A} (self self' : Serializers.obj row A) t r :
  Serializers.records_of row Entities loadAll getattr t self = (r, self') ->
  Serializers.runs self' = Serializers.runs self
  /\ Serializers._options self' = Serializers._options self
  /\ Serializers.cached_serialize self' = Serializers.cached_serialize self.
Proof.
  unfold Serializers.records_of.
  destruct (Serializers.__records__ _ _ _ _ self) as [[recs|e] s'] eqn:H;
    intros [= <- <-]; eapply records_runs, H.
Qed.

Lemma serialize_loop_runs {A} es acc (self self' : Serializers.obj row A) r :
  Serializers.serialize_loop row Entities loadAll getattr serialize_row gettext
    es acc self = (r, self') ->
  Serializers.runs self' = Serializers.runs self.
Proof.
  revert acc self. induction es as [|e es IH]; intros acc self; simpl.
  - intros [= <- <-]. reflexivity.
  - destruct (Serializers.records_of _ _ _ _ _ self) as [[l|err] s1] eqn:Hr.
    + apply records_of_runs in Hr. destruct Hr as (Hr & _).
      destruct l as [|x l].
      * intros H. apply IH in H. congruence.
      * destruct (mapM _ _) as [rs|err].
        -- intros H. apply IH in H. congruence.
        -- intros [= <- <-]. exact Hr.
    + apply records_of_runs in Hr. destruct Hr as (Hr & _).
      intros [= <- <-]. exact Hr.
Qed.

(** C9. [Serializer.serialize] is memoized per instance: when a call
    returns a mapping, every later call on that instance returns the same
    mapping and leaves the instance as it is, so neither the body of
    [serialize] runs again nor the dataset is loaded again; the call that
    filled the cache ran the body once. *)
Theorem C9_serialize_memoized :
  forall (self self1 : Serializers.obj row _) r,
    Serializers.Serializer_serialize row Entities loadAll getattr serialize_row
      gettext self = (Ok r, self1) ->
    let serialize :=
      Serializers.Serializer_serialize row Entities loadAll getattr serialize_row
        gettext in
    serialize self1 = (Ok r, self1)
    /\ (forall n, calls serialize n self1 = (List.repeat (Ok r) n, self1))
    /\ (forall n, Serializers.runs (snd (calls serialize n self1))
                  = Serializers.runs self1
                  /\ Serializers.loads (snd (calls serialize n self1))
                     = Serializers.loads self1)
    /\ (Serializers.cached_serialize self = None ->
        Serializers.runs self1 = Datatypes.S (Serializers.runs self)).
Proof.
  intros self self1 r H serialize. subst serialize.
  unfold Serializers.Serializer_serialize in *.
  split; [|split; [|split]].
  - eapply cachedmethod_again; [|exact H]. reflexivity.
  - intros n. eapply cachedmethod_calls; [|exact H]. reflexivity.
  - intros n. erewrite cachedmethod_calls; [|reflexivity|exact H]. auto.
  - intros Hnone. unfold Serializers.cachedmethod in H. rewrite Hnone in H.
    destruct (Serializers.serialize_loop _ _ _ _ _ _ _ _ _) as [[r0|e] s'] eqn:Hl;
      [|discriminate].
    injection H as <- <-. apply serialize_loop_runs in Hl. simpl in *. exact Hl.
Qed.
End SerializerMemo.

(** The same holds of [FlattenedSerializer.serialize] and of the cached
    property [__records__]. *)
Lemma flattened_serialize_memoized
    (row : Type) (Entities : list Serializers.Entity) (loadAll : list row)
    (getattr : row -> string -> list row)
    (serialize_row_flat : row -> list (string * value)) (gettext : string -> string)
    (self self1 : Serializers.obj row _) r :
  Serializers.FlattenedSerializer_serialize row Entities loadAll getattr
    serialize_row_flat gettext self = (Ok r, self1) ->
  Serializers.FlattenedSerializer_serialize row Entities loadAll getattr
    serialize_row_flat gettext self1 = (Ok r, self1).
Proof. apply cachedmethod_again. reflexivity. Qed.

Lemma records_memoized
    (row : Type) (Entities : list Serializers.Entity) (loadAll : list row)
    (getattr : row -> string -> list row) (A : Type)
    (self self1 : Serializers.obj row A) r :
  Serializers.__records__ row Entities loadAll getattr self = (Ok r, self1) ->
  Serializers.__records__ row Entities loadAll getattr self1 = (Ok r, self1).
Proof. apply cachedmethod_again. reflexivity. Qed.

Lemma C9_serialize_memoized_witness :
  let serialize :=
    Serializers.Serializer_serialize Z sample_entities [11; 12] sample_getattr
      sample_serialize_row (fun s => s) in
  let r := [ ("states", [ [("id", VInt 11); ("name", VStr "state")];
                          [("id", VInt 12); ("name", VStr "state")] ]);
             ("mesoregions",
                [ [("id", VInt 1102); ("state_id", VInt 11); ("name", VStr "meso")];
                  [("id", VInt 1101); ("state_id", VInt 11); ("name", VStr "meso")] ]) ] in
  exists self1,
    serialize (fresh_serializer _) = (Ok r, self1)
    /\ serialize self1 = (Ok r, self1)
    /\ Serializers.runs self1 = 1%nat /\ Serializers.loads self1 = 1%nat.
Proof.
  cbv zeta. eexists. split; [reflexivity|]. split.
  - refine (proj1 (C9_serialize_memoized Z sample_entities [11; 12] sample_getattr
                     sample_serialize_row (fun s => s) (fresh_serializer _) _ _ _)).
    reflexivity.
  - split; reflexivity.
Defined.

(** ** Empty tables are left out *)

Lemma od_set_keys_fresh {V} (d : list (string * V)) (k : string) (v : V) :
  ~ In k (List.map fst d) ->
  List.map fst (od_set String.eqb d k v) = (List.map fst d ++ [k])%list.
Proof.
  induction d as [|[k' v'] d IH]; simpl; intros Hn; [reflexivity|].
  destruct (String.eqb_spec k' k) as [->|Hne].
  - exfalso. apply Hn. now left.
  - simpl. f_equal. apply IH. intros H. apply Hn. now right.
Qed.

Section EmptyTables.
Variable decode_utf8 : string -> result string.
Variable self : BaseExporter.t.
Let db := BaseExporter._db self.

Lemma add_table_keys strKeys unicode acc t d :
  ~ In t (List.map fst acc) ->
  BaseExporter.add_table decode_utf8 self strKeys unicode acc t = Ok d ->
  List.map fst d
  = (List.map fst acc ++ (if has_records db t then [t] else []))%list.
Proof.
  intros Hfresh. unfold BaseExporter.add_table, has_records, getitem. fold db.
  destruct (Database._data db !! t) as [[|it rows]|]; simpl.
  - intros [= <-]. now rewrite app_nil_r.
  - destruct (lookup_table Database._fields t) as [fields|e]; simpl; [|discriminate].
    match goal with |- Py.bind ?m _ = _ -> _ =>
      destruct m as [tbl|e]; simpl; [|discriminate] end.
    intros [= <-]. now apply od_set_keys_fresh.
  - discriminate.
Qed.

Lemma toDict_keys strKeys unicode ts acc d :
  List.NoDup (List.map fst acc ++ ts) ->
  foldM (BaseExporter.add_table decode_utf8 self strKeys unicode) acc ts = Ok d ->
  List.map fst d = (List.map fst acc ++ List.filter (has_records db) ts)%list.
Proof.
  revert acc. induction ts as [|t ts IH]; intros acc Hnd; simpl.
  - intros [= <-]. now rewrite app_nil_r.
  - destruct (BaseExporter.add_table _ _ _ _ acc t) as [acc'|e] eqn:Ha; simpl;
      [|discriminate].
    intros Hf.
    assert (Hfresh : ~ In t (List.map fst acc)).
    { intros Hin. apply NoDup_remove_2 in Hnd. apply Hnd.
      apply in_or_app. now left. }
    pose proof (add_table_keys _ _ _ _ _ Hfresh Ha) as Hk.
    apply IH in Hf.
    + rewrite Hf, Hk, <- app_assoc. f_equal. now destruct (has_records db t).
    + rewrite Hk. destruct (has_records db t).
      * rewrite <- app_assoc. exact Hnd.
      * rewrite app_nil_r. apply NoDup_remove_1 in Hnd. exact Hnd.
Qed.

Lemma table_nodes_names a t ns :
  XML.table_nodes decode_utf8 self t = Ok ns ->
  XML.table_names (XML.Element "database" a None ns)
  = if has_records db t then [t] else [].
Proof.
  unfold XML.table_nodes, has_records, getitem. fold db.
  destruct (Database._data db !! t) as [[|it rows]|]; simpl.
  - intros [= <-]. reflexivity.
  - destruct (lookup_table Database._fields t) as [fields|e]; simpl; [|discriminate].
    match goal with |- Py.bind ?m _ = _ -> _ =>
      destruct m as [rs|e]; simpl; [|discriminate] end.
    intros [= <-]. destruct (BaseExporter._minified self); reflexivity.
  - discriminate.
Qed.

Lemma table_names_app a ns1 ns2 :
  XML.table_names (XML.Element "database" a None (ns1 ++ ns2))
  = (XML.table_names (XML.Element "database" a None ns1)
     ++ XML.table_names (XML.Element "database" a None ns2))%list.
Proof. simpl. now rewrite !List.flat_map_concat_map, List.map_app, List.concat_app. Qed.

Lemma database_children_names a ts cs :
  mapM (XML.table_nodes decode_utf8 self) ts = Ok cs ->
  XML.table_names (XML.Element "database" a None (List.concat cs))
  = List.filter (has_records db) ts.
Proof.
  revert cs. induction ts as [|t ts IH]; intros cs; cbn [mapM].
  - intros [= <-]. reflexivity.
  - destruct (XML.table_nodes _ _ t) as [ns|e] eqn:Hn; cbn [Py.bind]; [|discriminate].
    destruct (mapM _ ts) as [cs'|e]; cbn [Py.bind]; [|discriminate].
    intros [= <-]. change (List.concat (ns :: cs')) with (ns ++ List.concat cs')%list.
    rewrite table_names_app, (IH _ eq_refl), (table_nodes_names _ _ _ Hn).
    cbn [List.filter]. now destruct (has_records db t).
Qed.

Lemma mapM_ok {A B} (f : A -> result B) (l : list A) :
  (forall x, In x l -> exists y, f x = Ok y) -> exists ys, mapM f l = Ok ys.
Proof.
  induction l as [|x l IH]; intros H; simpl; [eauto|].
  destruct (H x (or_introl eq_refl)) as [y ->].
  destruct IH as [ys ->]; [intros; apply H; now right|]. simpl. eauto.
Qed.

Lemma foldM_ok {A B} (f : A -> B -> result A) (l : list B) :
  (forall a x, In x l -> exists a', f a x = Ok a') ->
  forall a, exists a', foldM f a l = Ok a'.
Proof.
  induction l as [|x l IH]; intros H a; simpl; [eauto|].
  destruct (H a x (or_introl eq_refl)) as [a' ->]. simpl.
  apply IH. intros; apply H; now right.
Qed.

Lemma mapM_keys {A} (f : string -> result A) (g : A -> string) l ys :
  (forall k y, f k = Ok y -> g y = k) ->
  mapM f l = Ok ys -> List.map g ys = l.
Proof.
  intros Hg. revert ys. induction l as [|k l IH]; intros ys; cbn [mapM].
  - intros [= <-]. reflexivity.
  - destruct (f k) as [y|e] eqn:Hf; cbn [Py.bind]; [|discriminate].
    destruct (mapM f l) as [ys'|e]; cbn [Py.bind]; [|discriminate].
    intros [= <-]. simpl. f_equal; [eapply Hg, Hf|now apply IH].
Qed.

Lemma od_set_get_same {V} (d : list (string * V)) k v :
  exists v', od_get String.eqb (od_set String.eqb d k v) k = Some v'.
Proof.
  unfold od_get. induction d as [|[k' v'] d IH]; simpl.
  - rewrite String.eqb_refl. simpl. eauto.
  - destruct (String.eqb_spec k' k) as [->|Hne]; simpl.
    + rewrite String.eqb_refl. simpl. eauto.
    + destruct (String.eqb_spec k' k); [contradiction|]. exact IH.
Qed.

Lemma od_set_get_keep {V} (d : list (string * V)) k k' v :
  (exists w, od_get String.eqb d k = Some w) ->
  exists w, od_get String.eqb (od_set String.eqb d k' v) k = Some w.
Proof.
  unfold od_get. induction d as [|[k0 v0] d IH]; simpl; intros [w Hw].
  - discriminate.
  - destruct (String.eqb_spec k0 k') as [->|Hne]; simpl.
    + destruct (String.eqb_spec k' k); simpl in *; eauto.
    + destruct (String.eqb_spec k0 k); simpl in *; eauto.
Qed.

Lemma od_of_pairs_get {V} (l : list (string * V)) k :
  In k (List.map fst l) -> exists v, od_get String.eqb (od_of_pairs String.eqb l) k = Some v.
Proof.
  unfold od_of_pairs.
  assert (H : forall acc,
             In k (List.map fst l) \/ (exists w, od_get String.eqb acc k = Some w) ->
             exists v, od_get String.eqb
                         (fold_left (fun d kv => od_set String.eqb d (fst kv) (snd kv)) l acc) k
                       = Some v).
  { induction l as [|[k' v'] l IH]; intros acc; simpl.
    - intros [[]|H]; exact H.
    - intros [[<-|Hin]|Hacc]; apply IH.
      + right. apply od_set_get_same.
      + now left.
      + right. now apply od_set_get_keep. }
  intros Hin. apply H. now left.
Qed.

Lemma table_fields t :
  In t Database._tables ->
  exists fields, lookup_table Database._fields t = Ok fields
                 /\ In (t, fields) Database._fields /\ In "id" fields.
Proof.
  simpl. intros H.
  repeat (destruct H as [<-|H];
          [eexists; split; [reflexivity|split; simpl; auto 10]|]).
  destruct H.
Qed.

Lemma toDict_total strKeys unicode :
  well_formed self -> decodable decode_utf8 self ->
  exists d, BaseExporter.__toDict__ decode_utf8 self strKeys unicode = Ok d.
Proof.
  intros Hwf Hdec. unfold BaseExporter.__toDict__.
  apply foldM_ok. intros acc t Ht.
  destruct (table_fields t Ht) as (fields & Hl & Hin & Hid).
  destruct (Hwf t fields Hin) as (rows & Hrows & Hitems).
  unfold BaseExporter.add_table, getitem. rewrite Hrows. cbn [Py.bind].
  destruct rows as [|it0 rows0] eqn:Erows; [eauto|]. rewrite <- Erows in *.
  rewrite Hl. cbn [Py.bind].
  destruct (foldM_ok (fun tbl it =>
              BaseExporter.add_item decode_utf8 strKeys unicode fields tbl it) rows)
    with (a := @nil (value * list (string * value))) as [tbl Htbl].
  - intros tbl it Hit. unfold BaseExporter.add_item, BaseExporter.item_obj.
    destruct (mapM_ok (fun key =>
                Py.bind (getitem it key) (fun v =>
                  match v with
                  | VStr s => if unicode
                              then Py.bind (decode_utf8 s) (fun u => Ok (key, VStr u))
                              else Ok (key, v)
                  | _ => Ok (key, v)
                  end)) fields) as [kvs Hkvs].
    { intros f Hf. destruct (Hitems it f Hit Hf) as [v Hv].
      unfold getitem. rewrite Hv. cbn [Py.bind].
      destruct v as [|z|s]; eauto. destruct unicode; eauto.
      destruct (Hdec t rows it f (VStr s) Hrows Hit Hv) as [u Hu].
      simpl in Hu. rewrite Hu. simpl. eauto. }
    rewrite Hkvs. cbn [Py.bind].
    assert (Hkeys : List.map fst kvs = fields).
    { eapply mapM_keys; [|exact Hkvs]. intros k y. unfold getitem.
      destruct (it !! k) as [v|]; cbn [Py.bind]; [|discriminate].
      destruct v as [|z|s]; try (intros [= <-]; reflexivity).
      destruct unicode; [|intros [= <-]; reflexivity].
      destruct (decode_utf8 s); cbn [Py.bind]; [|discriminate].
      intros [= <-]. reflexivity. }
    destruct (od_of_pairs_get kvs "id") as [id Hid']; [now rewrite Hkeys|].
    rewrite Hid'. eauto.
  - rewrite Htbl. cbn [Py.bind]. destruct rows; [discriminate|]. eauto.
Qed.

Lemma xml_total :
  well_formed self -> decodable decode_utf8 self ->
  exists n, XML.database_element decode_utf8 self = Ok n.
Proof.
  intros Hwf Hdec. unfold XML.database_element.
  destruct (mapM_ok (XML.table_nodes decode_utf8 self) Database._tables) as [cs Hcs].
  - intros t Ht.
    destruct (table_fields t Ht) as (fields & Hl & Hin & Hid).
    destruct (Hwf t fields Hin) as (rows & Hrows & Hitems).
    unfold XML.table_nodes, getitem. rewrite Hrows. cbn [Py.bind].
    destruct rows as [|it0 rows0] eqn:Erows; [eauto|]. rewrite <- Erows in *.
    rewrite Hl. cbn [Py.bind].
    destruct (mapM_ok (XML.row_element decode_utf8 fields) rows) as [rs Hrs].
    + intros it Hit. unfold XML.row_element.
      destruct (mapM_ok (XML.field_element decode_utf8 it) fields) as [fs Hfs].
      * intros f Hf. destruct (Hitems it f Hit Hf) as [v Hv].
        unfold XML.field_element, getitem. rewrite Hv. cbn [Py.bind].
        destruct (Hdec t rows it f v Hrows Hit Hv) as [u ->]. cbn [Py.bind]. eauto.
      * rewrite Hfs. cbn [Py.bind]. eauto.
    + rewrite Hrs. cbn [Py.bind]. destruct rows; [discriminate|]. eauto.
  - rewrite Hcs. cbn [Py.bind]. eauto.
Qed.

End EmptyTables.


(** C6. Tables without records are left out of the serialized output.
    Whenever [__toDict__] returns, the keys of the nested map are exactly
    the tables that have at least one record, in schema order; whenever the
    XML exporter builds its tree, the [<table>] children of [<database>] are,
    by name and in order, exactly the tables that have at least one record,
    so each of them has one element and an empty table has none. Both do
    return on a database that has its six tables, whose records have the
    fields of their table and whose strings decode. *)
Theorem C6_empty_tables_omitted :
  forall (decode_utf8 : string -> result string) (self : BaseExporter.t)
         (strKeys unicode : bool),
    let db := BaseExporter._db self in
    (forall d, BaseExporter.__toDict__ decode_utf8 self strKeys unicode = Ok d ->
       List.map fst d = nonempty_tables db
       /\ forall t, In t (List.map fst d)
                    <-> In t Database._tables /\ has_records db t = true)
    /\ (forall n, XML.database_element decode_utf8 self = Ok n ->
          XML.table_names n = nonempty_tables db
          /\ forall t, (has_records db t = false -> ~ In t (XML.table_names n))
                       /\ (In t Database._tables -> has_records db t = true ->
                           List.count_occ string_dec (XML.table_names n) t = 1%nat))
    /\ (well_formed self -> decodable decode_utf8 self ->
        (exists d, BaseExporter.__toDict__ decode_utf8 self strKeys unicode = Ok d)
        /\ (exists n, XML.database_element decode_utf8 self = Ok n)).
Proof.
  intros decode_utf8 self strKeys unicode db.
  split; [|split].
  - intros d Hd. unfold BaseExporter.__toDict__ in Hd.
    apply toDict_keys in Hd.
    + change (List.map fst d = nonempty_tables db) in Hd. split; [exact Hd|].
      intros t. rewrite Hd. unfold nonempty_tables. now rewrite List.filter_In.
    + simpl. repeat constructor; simpl; intuition discriminate.
  - intros n Hn. unfold XML.database_element in Hn.
    destruct (mapM _ _) as [cs|e] eqn:Hcs; cbn [Py.bind] in Hn; [|discriminate].
    injection Hn as <-.
    rewrite (database_children_names _ _ _ _ _ Hcs). fold db.
    split; [reflexivity|]. intros t. split.
    + intros Hf Hin. apply List.filter_In in Hin. destruct Hin as [_ Hin]. congruence.
    + intros Ht Hr. simpl in Ht.
      repeat (destruct Ht as [<-|Ht];
              [cbn [List.filter Database._tables];
               repeat match goal with
                 | |- context [has_records db ?u] =>
                     lazymatch goal with
                     | H : has_records db u = _ |- _ => rewrite H
                     | _ => destruct (has_records db u) eqn:?
                     end
                 end;
               reflexivity|]).
      destruct Ht.
  - intros Hwf Hdec. split; [now apply toDict_total|now apply xml_total].
Qed.

(** C6 at one state with one mesoregion and nothing deeper: the nested map
    has the keys [uf] and [mesorregiao], and the tree has one [<table>]
    element for each of the two and none for the four empty tables. *)
Lemma C6_empty_tables_omitted_witness :
  exists d n,
    BaseExporter.__toDict__ Ok (exporter db_one_child false) false false = Ok d
    /\ List.map fst d = ["uf"; "mesorregiao"]
    /\ XML.database_element Ok (exporter db_one_child false) = Ok n
    /\ XML.table_names n = ["uf"; "mesorregiao"].
Proof.
  destruct (C6_empty_tables_omitted Ok (exporter db_one_child false) false false)
    as (Hd & Hn & _).
  eexists. eexists.
  split; [vm_compute; reflexivity|].
  split; [refine (proj1 (Hd _ _)); vm_compute; reflexivity|].
  split; [vm_compute; reflexivity|].
  refine (proj1 (Hn _ _)); vm_compute; reflexivity.
Defined.

(** ** SQL: quotes in string values *)

Lemma append_assoc (a b c : string) : (a +:+ b) +:+ c = a +:+ (b +:+ c).
Proof.
  induction a as [|x a IH]; [reflexivity|].
  change (String x ((a +:+ b) +:+ c) = String x (a +:+ (b +:+ c))). now rewrite IH.
Qed.

Lemma append_cons (x : ascii) (a b : string) : String x a +:+ b = String x (a +:+ b).
Proof. reflexivity. Qed.

Lemma append_nil_l (b : string) : "" +:+ b = b.
Proof. reflexivity. Qed.

Ltac norm_append :=
  repeat (progress (rewrite ?append_assoc, ?append_cons, ?append_nil_l)).

Lemma replace_quote (new s : string) : replace s "'" new = escape_quotes new s.
Proof.
  unfold replace. induction s as [|c s IH]; [reflexivity|].
  cbn [replace_go escape_quotes String.prefix].
  cbn [String.eqb negb andb String.length Nat.pred].
  destruct (ascii_dec "'" c) as [<-|Hne].
  - simpl. replace (String.prefix "" s) with true by now destruct s.
    now rewrite IH.
  - destruct (Ascii.eqb_spec c "'") as [->|_]; [contradiction|]. now rewrite IH.
Qed.

Lemma escape_quotes_app (esc a b : string) :
  escape_quotes esc (a +:+ b) = escape_quotes esc a +:+ escape_quotes esc b.
Proof.
  induction a as [|c a IH]; [reflexivity|].
  rewrite append_cons. cbn [escape_quotes]. rewrite IH.
  destruct (Ascii.eqb c "'"); now norm_append.
Qed.

Lemma insert_line_spec db minified dialect t it zs s :
  In t Database._tables ->
  Forall2 (fun f z => it !! f = Some (VInt z)) (int_columns t) zs ->
  it !! "nome" = Some (VStr s) ->
  let self := SQL.__init__ db minified dialect in
  SQL.insert_line self t it
   = Ok ("INSERT INTO " +:+ t +:+ " VALUES ("
         +:+ join ", " (List.map str_of_int zs
                        ++ ["'" +:+ escape_quotes (SQL._escape_char self) s +:+ "'"])
         +:+ ");" +:+ SQL.nl).
Proof.
  intros Ht Hz Hn self.
  simpl in Ht.
  repeat (destruct Ht as [<-|Ht];
   [ cbv [int_columns lookup_table List.find Database._fields fst snd String.eqb
          Ascii.eqb Bool.eqb removelast] in Hz;
     repeat match goal with
       | H : Forall2 _ (_ :: _) _ |- _ => inversion H; subst; clear H
       | H : Forall2 _ [] _ |- _ => inversion H; subst; clear H
       end;
     unfold SQL.insert_line, SQL.insert_data, getitem;
     cbn [lookup_table List.find Database._fields fst snd String.eqb Ascii.eqb
          Bool.eqb Py.bind mapM];
     repeat match goal with H : it !! _ = Some _ |- _ => rewrite H end;
     cbn [Py.bind SQL.__quote]; rewrite replace_quote
   |]); [..|destruct Ht].
  all: set (e := escape_quotes _ s); clearbody e; subst self.
  all: cbv -[str_of_int String.append]; cbv [String.append]; fold String.append.
  all: norm_append; reflexivity.
Qed.

(** C7. The SQL exporter writes the dialect's escape sequence in place of
    every quote character of a string value: backslash-quote under the
    standard dialect, two quotes under the sqlite dialect, every other
    character unchanged; and the INSERT statement of a record carries its
    name, so escaped, between quotes as the last value. *)
Theorem C7_quotes_escaped :
  forall (db : Database.t) (minified : bool),
    let std := SQL.__init__ db minified "standard" in
    let lite := SQL.__init__ db minified "sqlite" in
    SQL._escape_char std = "\'" /\ SQL._escape_char lite = "''"
    /\ (forall s, SQL.__quote std (VStr s) = Ok (VStr (escape_quotes "\'" s)))
    /\ (forall s, SQL.__quote lite (VStr s) = Ok (VStr (escape_quotes "''" s)))
    /\ (forall esc a b,
          escape_quotes esc (a +:+ "'" +:+ b)
          = escape_quotes esc a +:+ esc +:+ escape_quotes esc b)
    /\ (forall t it zs s,
          In t Database._tables ->
          Forall2 (fun f z => it !! f = Some (VInt z)) (int_columns t) zs ->
          it !! "nome" = Some (VStr s) ->
          SQL.insert_line std t it
          = Ok ("INSERT INTO " +:+ t +:+ " VALUES ("
                +:+ join ", " (List.map str_of_int zs
                               ++ ["'" +:+ escape_quotes "\'" s +:+ "'"])
                +:+ ");" +:+ SQL.nl)
          /\ SQL.insert_line lite t it
             = Ok ("INSERT INTO " +:+ t +:+ " VALUES ("
                   +:+ join ", " (List.map str_of_int zs
                                  ++ ["'" +:+ escape_quotes "''" s +:+ "'"])
                   +:+ ");" +:+ SQL.nl)).
Proof.
  intros db minified std lite.
  split; [reflexivity|]. split; [reflexivity|].
  split; [intros s; cbn; now rewrite replace_quote|].
  split; [intros s; cbn; now rewrite replace_quote|].
  split.
  - intros esc a b. rewrite !escape_quotes_app. cbn [escape_quotes Ascii.eqb Bool.eqb].
    f_equal. generalize (escape_quotes esc b) as r. intros r.
    rewrite append_assoc. reflexivity.
  - intros t it zs s Ht Hz Hn. split.
    + exact (insert_line_spec db minified "standard" t it zs s Ht Hz Hn).
    + exact (insert_line_spec db minified "sqlite" t it zs s Ht Hz Hn).
Qed.

Lemma C7_quotes_escaped_witness :
  let it : item := {[ "id" := VInt 3546; "id_uf" := VInt 35;
                      "nome" := VStr "Santa Barbara d'Oeste" ]} in
  SQL.insert_line (SQL.__init__ (loaded [] []) false "standard") "mesorregiao" it
  = Ok ("INSERT INTO mesorregiao VALUES (3546, 35, 'Santa Barbara d\'Oeste');" +:+ SQL.nl)
  /\ SQL.insert_line (SQL.__init__ (loaded [] []) false "sqlite") "mesorregiao" it
     = Ok ("INSERT INTO mesorregiao VALUES (3546, 35, 'Santa Barbara d''Oeste');" +:+ SQL.nl).
Proof.
  cbv zeta.
  destruct (C7_quotes_escaped (loaded [] []) false) as (_ & _ & _ & _ & _ & H).
  apply (H "mesorregiao" _ [3546; 35] "Santa Barbara d'Oeste").
  - simpl. auto.
  - repeat constructor.
  - reflexivity.
Defined.

(** ** SQL: where the constraints are written *)

Section Pieces.
Variable self : SQL.t.
Let db := BaseExporter._db (SQL.base self).

Lemma no_banner_app (a b : list SQL.piece) :
  no_banner (a ++ b) = (no_banner a ++ no_banner b)%list.
Proof. apply List.filter_app. Qed.

Lemma no_banner_note what t : no_banner (note self what t) = [].
Proof. unfold note. now destruct (BaseExporter._minified _). Qed.

Lemma no_banner_inserts t lines :
  no_banner (List.map (fun l => {| SQL.p_kind := SQL.KInsert; SQL.p_table := t;
                                   SQL.p_text := l |}) lines)
  = List.map (fun l => {| SQL.p_kind := SQL.KInsert; SQL.p_table := t;
                          SQL.p_text := l |}) lines.
Proof. induction lines as [|l lines IH]; simpl; [reflexivity|]. now f_equal. Qed.

Lemma same_table_inserts t lines :
  List.Forall (fun p => SQL.p_table p = t)
    (List.map (fun l => {| SQL.p_kind := SQL.KInsert; SQL.p_table := t;
                           SQL.p_text := l |}) lines).
Proof. induction lines; simpl; constructor; auto. Qed.

Lemma no_banner_cons_keep p l :
  is_banner (SQL.p_kind p) = false -> no_banner (p :: l) = p :: no_banner l.
Proof. intros H. unfold no_banner. simpl. now rewrite H. Qed.

Ltac drop_banners :=
  repeat first [ rewrite no_banner_note | rewrite no_banner_inserts
               | rewrite no_banner_app
               | rewrite no_banner_cons_keep by reflexivity ];
  cbn [app no_banner List.filter].

(** What one round of the loop appends, banners aside: nothing for a table
    without records, otherwise CREATE TABLE, the INSERTs, then the
    constraints (when lazy) and the indexes. *)
Lemma table_pieces_statements t ps :
  SQL.table_pieces self t = Ok ps ->
  (has_records db t = false /\ ps = [])
  \/ (has_records db t = true
      /\ exists tcols cs lines,
           lookup_table (SQL._tables self) t = Ok tcols
           /\ lookup_table (SQL._constraints self) t = Ok cs
           /\ no_banner ps
              = statements self t (if SQL._lazy_constraints self then tcols
                                   else (tcols ++ cs)%list) lines).
Proof.
  unfold SQL.table_pieces, has_records, getitem. fold db.
  destruct (Database._data db !! t) as [[|it rows]|]; cbn [Py.bind];
    [intros [= <-]; left; auto| |discriminate].
  destruct (lookup_table (SQL._tables self) t) as [tcols|e] eqn:Htc; cbn [Py.bind];
    [|discriminate].
  fold (note self "Structure" t). fold (note self "Data" t).
  fold (note self "Constraints" t). fold (note self "Indexes" t).
  destruct (SQL._lazy_constraints self) eqn:Hlazy.
  - cbn [Py.bind].
    match goal with |- Py.bind ?m _ = _ -> _ =>
      destruct m as [lines|e]; cbn [Py.bind]; [|discriminate] end.
    destruct (lookup_table (SQL._constraints self) t) as [cs|e] eqn:Hcs;
      cbn [Py.bind]; [|discriminate].
    intros [= <-]. right. split; [reflexivity|].
    exists tcols, cs, lines. split; [reflexivity|]. split; [reflexivity|].
    unfold statements. rewrite Hlazy, Hcs.
    destruct (SQL._create_indexes self);
      [destruct (od_get String.eqb (SQL._indexes self) t)|];
      drop_banners; reflexivity.
  - destruct (lookup_table (SQL._constraints self) t) as [cs|e] eqn:Hcs;
      cbn [Py.bind]; [|discriminate].
    match goal with |- Py.bind ?m _ = _ -> _ =>
      destruct m as [lines|e]; cbn [Py.bind]; [|discriminate] end.
    intros [= <-]. right. split; [reflexivity|].
    exists tcols, cs, lines. split; [reflexivity|]. split; [reflexivity|].
    unfold statements. rewrite Hlazy.
    destruct (SQL._create_indexes self);
      [destruct (od_get String.eqb (SQL._indexes self) t)|];
      drop_banners; reflexivity.
Qed.

(** The script, banners aside, is the blocks of the tables that have
    records, in schema order. *)
Lemma blocks_of_tables ts pss :
  mapM (SQL.table_pieces self) ts = Ok pss ->
  exists blocks : list block,
    no_banner (List.concat pss) = List.flat_map (block_statements self) blocks
    /\ List.map block_table blocks = List.filter (has_records db) ts
    /\ List.Forall (block_ok self) blocks.
Proof.
  revert pss. induction ts as [|t ts IH]; intros pss; cbn [mapM].
  - intros [= <-]. exists []. repeat split. constructor.
  - destruct (SQL.table_pieces self t) as [ps|e] eqn:Ht; cbn [Py.bind]; [|discriminate].
    destruct (mapM _ ts) as [pss'|e]; cbn [Py.bind]; [|discriminate].
    intros [= <-]. destruct (IH _ eq_refl) as (blocks & Hb & Hm & Hok).
    cbn [List.concat List.filter]. rewrite no_banner_app, Hb.
    apply table_pieces_statements in Ht.
    destruct Ht as [[Hr ->]|(Hr & tcols & cs & lines & Htc & Hcs & Hs)]; rewrite Hr.
    + exists blocks. auto.
    + exists ((t, (if SQL._lazy_constraints self then tcols else (tcols ++ cs)%list),
               lines) :: blocks).
      split; [cbn [List.flat_map]; unfold block_statements at 1; cbn [fst snd];
              now rewrite Hs|].
      split; [cbn [List.map]; unfold block_table at 1; cbn [fst]; now rewrite Hm|].
      constructor; [|exact Hok]. exists tcols, cs. auto.
Qed.

Lemma pieces_blocks ps :
  SQL.pieces self = Ok ps ->
  exists blocks : list block,
    no_banner ps = List.flat_map (block_statements self) blocks
    /\ List.map block_table blocks = nonempty_tables db
    /\ List.Forall (block_ok self) blocks.
Proof.
  unfold SQL.pieces.
  destruct (mapM _ _) as [pss|e] eqn:Hm; cbn [Py.bind]; [|discriminate].
  intros [= <-]. now apply blocks_of_tables.
Qed.

Lemma in_statements t cols lines p :
  In p (statements self t cols lines) ->
  SQL.p_table p = t
  /\ (p = {| SQL.p_kind := SQL.KCreateTable; SQL.p_table := t;
             SQL.p_text := SQL.__table t cols |}
      \/ (SQL.p_kind p = SQL.KInsert /\ In (SQL.p_text p) lines)
      \/ (SQL._lazy_constraints self = true
          /\ exists cs, lookup_table (SQL._constraints self) t = Ok cs
               /\ p = {| SQL.p_kind := SQL.KConstraints; SQL.p_table := t;
                         SQL.p_text := SQL.__constraints cs |})
      \/ SQL.p_kind p = SQL.KIndexes).
Proof.
  unfold statements. intros H.
  apply in_app_or in H. destruct H as [[<-|[]]|H]; [auto|].
  apply in_app_or in H. destruct H as [H|H].
  { apply List.in_map_iff in H. destruct H as (l & <- & Hl). auto. }
  apply in_app_or in H. destruct H as [H|H].
  - destruct (SQL._lazy_constraints self); [|destruct H].
    destruct (lookup_table (SQL._constraints self) t) as [cs|e]; [|destruct H].
    destruct H as [<-|[]]. split; [reflexivity|]. right; right; left. eauto.
  - destruct (SQL._create_indexes self); [|destruct H].
    destruct (od_get String.eqb (SQL._indexes self) t); [|destruct H].
    destruct H as [<-|[]]. auto.
Qed.

Lemma create_in_statements t cols lines :
  In {| SQL.p_kind := SQL.KCreateTable; SQL.p_table := t;
        SQL.p_text := SQL.__table t cols |} (statements self t cols lines).
Proof. unfold statements. simpl. now left. Qed.

Lemma constraints_in_statements t cols lines cs :
  SQL._lazy_constraints self = true ->
  lookup_table (SQL._constraints self) t = Ok cs ->
  In {| SQL.p_kind := SQL.KConstraints; SQL.p_table := t;
        SQL.p_text := SQL.__constraints cs |} (statements self t cols lines).
Proof.
  intros Hl Hcs. unfold statements. rewrite Hl, Hcs.
  apply in_or_app; right. apply in_or_app; right. apply in_or_app; left.
  now left.
Qed.

Lemma strongly_sorted_app {A} (R : A -> A -> Prop) (a b : list A) :
  StronglySorted R a -> StronglySorted R b ->
  (forall x y, In x a -> In y b -> R x y) ->
  StronglySorted R (a ++ b).
Proof.
  induction a as [|x a IH]; intros Ha Hb Hab; [exact Hb|].
  inversion Ha as [|? ? Ha' Hx]; subst. simpl. constructor.
  - apply IH; auto. intros; apply Hab; simpl; auto.
  - apply List.Forall_app. split; [exact Hx|].
    apply List.Forall_forall. intros y Hy. apply Hab; simpl; auto.
Qed.

Lemma strongly_sorted_after {A} (R : A -> A -> Prop) (a b : list A) (x : A) :
  StronglySorted R (a ++ x :: b) -> forall y, In y b -> R x y.
Proof.
  induction a as [|z a IH]; simpl; intros H y Hy.
  - inversion H as [|? ? _ Hx]; subst.
    eapply List.Forall_forall in Hx; eauto.
  - inversion H; subst. eauto.
Qed.

Lemma statements_sorted t cols lines :
  StronglySorted place_le (statements self t cols lines).
Proof.
  unfold statements.
  assert (Hins : forall l, In l (List.map (fun l => {| SQL.p_kind := SQL.KInsert;
             SQL.p_table := t; SQL.p_text := l |}) lines) ->
             place l = (2 * rank t)%nat).
  { intros l Hl. apply List.in_map_iff in Hl. destruct Hl as (x & <- & _).
    unfold place. simpl. lia. }
  apply strongly_sorted_app; [repeat constructor| |].
  - apply strongly_sorted_app.
    + induction lines as [|l lines IH]; simpl; constructor.
      * apply IH. intros; apply Hins; simpl; auto.
      * apply List.Forall_forall. intros q Hq. unfold place_le.
        rewrite (Hins q) by (simpl; auto). unfold place. simpl. lia.
    + destruct (SQL._lazy_constraints self);
        [destruct (lookup_table (SQL._constraints self) t)|];
        (destruct (SQL._create_indexes self);
           [destruct (od_get String.eqb (SQL._indexes self) t)|]);
        simpl; repeat constructor.
    + intros x y Hx Hy. unfold place_le. rewrite (Hins x Hx).
      unfold place.
      assert (SQL.p_table y = t) as ->; [|lia].
      destruct (SQL._lazy_constraints self);
        [destruct (lookup_table (SQL._constraints self) t)|];
        (destruct (SQL._create_indexes self);
           [destruct (od_get String.eqb (SQL._indexes self) t)|]);
        simpl in Hy; intuition (subst; reflexivity).
  - intros x y [<-|[]] Hy. unfold place_le, place. cbn [SQL.p_kind SQL.p_table is_load].
    assert (SQL.p_table y = t) as ->; [|lia].
    apply (in_statements t cols lines). unfold statements.
    apply in_or_app. now right.
Qed.

Lemma blocks_sorted (blocks : list block) :
  StronglySorted (fun a b => (rank a < rank b)%nat) (List.map block_table blocks) ->
  StronglySorted place_le (List.flat_map (block_statements self) blocks).
Proof.
  induction blocks as [|b blocks IH]; intros H; cbn [List.flat_map]; [constructor|].
  inversion H as [|? ? Hs Hb]; subst.
  apply strongly_sorted_app; [apply statements_sorted|now apply IH|].
  intros x y Hx Hy. apply in_statements in Hx. destruct Hx as [Hx _].
  apply List.in_flat_map in Hy. destruct Hy as (b' & Hb' & Hy).
  apply in_statements in Hy. destruct Hy as [Hy _].
  eapply List.Forall_forall in Hb; [|apply List.in_map, Hb'].
  unfold place_le, place, block_table in *. rewrite Hx, Hy.
  destruct (is_load (SQL.p_kind x)), (is_load (SQL.p_kind y)); lia.
Qed.

End Pieces.

Lemma strongly_sorted_filter {A} (R : A -> A -> Prop) (f : A -> bool) (l : list A) :
  StronglySorted R l -> StronglySorted R (List.filter f l).
Proof.
  induction 1 as [|x l Hs IH Hx]; simpl; [constructor|].
  destruct (f x); [|exact IH]. constructor; [exact IH|].
  apply List.Forall_forall. intros y Hy. apply List.filter_In in Hy.
  eapply List.Forall_forall in Hx; [exact Hx|tauto].
Qed.

Lemma tables_ranked (db : Database.t) :
  StronglySorted (fun a b => (rank a < rank b)%nat) (nonempty_tables db).
Proof.
  apply strongly_sorted_filter.
  repeat (constructor; [|repeat (constructor; [vm_compute; lia|]); constructor]).
  constructor.
Qed.

Lemma lazy_constraints_form db minified t cs :
  In t Database._tables ->
  lookup_table (SQL._constraints (SQL.__init__ db minified "standard")) t = Ok cs ->
  List.Forall (fun c => String.prefix (alter_table t) c = true) cs.
Proof.
  simpl. intros Ht.
  repeat (destruct Ht as [<-|Ht];
          [intros [= <-]; repeat (constructor; [vm_compute; reflexivity|]); constructor|]).
  destruct Ht.
Qed.

Lemma inline_constraints_form db minified t cs :
  In t Database._tables ->
  lookup_table (SQL._constraints (SQL.__init__ db minified "sqlite")) t = Ok cs ->
  List.Forall (fun c => String.prefix inline_constraint c = true) cs.
Proof.
  simpl. intros Ht.
  repeat (destruct Ht as [<-|Ht];
          [intros [= <-]; repeat (constructor; [vm_compute; reflexivity|]); constructor|]).
  destruct Ht.
Qed.

Lemma in_no_banner p ps :
  In p (no_banner ps) <-> In p ps /\ is_banner (SQL.p_kind p) = false.
Proof.
  unfold no_banner. rewrite List.filter_In, negb_true_iff. reflexivity.
Qed.

Lemma block_of_piece self (blocks : list block) p :
  In p (List.flat_map (block_statements self) blocks) ->
  exists b, In b blocks /\ In p (block_statements self b).
Proof. intros H. apply List.in_flat_map in H. exact H. Qed.

(** C3 (as written) fails: with a state and a mesoregion, the standard
    dialect writes the primary key of [uf] as an ALTER TABLE statement before
    the CREATE TABLE and the INSERT of [mesorregiao]. *)
Lemma C3_counterexample :
  exists out i j k,
    SQL.__str__ (SQL.__init__ db_one_child false "standard") = Ok out
    /\ Py.find "ALTER TABLE uf" out = Some i
    /\ Py.find "CREATE TABLE mesorregiao" out = Some j
    /\ Py.find "INSERT INTO mesorregiao" out = Some k
    /\ (i < j)%nat /\ (i < k)%nat.
Proof.
  eexists. eexists. eexists. eexists.
  split; [vm_compute; reflexivity|].
  split; [vm_compute; reflexivity|].
  split; [vm_compute; reflexivity|].
  split; [vm_compute; reflexivity|].
  split; apply Nat.ltb_lt; vm_compute; reflexivity.
Qed.

(** C3 (amended). Under the standard dialect every table with records gets
    its primary-key and foreign-key constraints as ALTER TABLE ... ADD
    CONSTRAINT statements of their own, written after the CREATE TABLE and
    all INSERT statements of that table and of every table before it: what
    follows them creates or fills later tables only. Under the sqlite
    dialect no such statement is written, and every CREATE TABLE carries the
    constraints of its table inline, after its columns. *)
Theorem C3_constraints_after_own_table :
  forall (db : Database.t) (minified : bool),
    let std := SQL.__init__ db minified "standard" in
    let lite := SQL.__init__ db minified "sqlite" in
    (forall ps, SQL.pieces std = Ok ps ->
       (forall p, In p ps -> SQL.p_kind p = SQL.KConstraints ->
          exists cs, lookup_table (SQL._constraints std) (SQL.p_table p) = Ok cs
                     /\ SQL.p_text p = SQL.__constraints cs
                     /\ List.Forall
                          (fun c => String.prefix (alter_table (SQL.p_table p)) c = true)
                          cs)
       /\ (forall t, In t Database._tables -> has_records db t = true ->
             exists p, In p ps /\ SQL.p_kind p = SQL.KConstraints
                       /\ SQL.p_table p = t)
       /\ (forall l1 p l2, ps = (l1 ++ p :: l2)%list ->
             SQL.p_kind p = SQL.KConstraints ->
             (exists q, In q l1 /\ SQL.p_kind q = SQL.KCreateTable
                        /\ SQL.p_table q = SQL.p_table p)
             /\ forall q, In q l2 -> is_load (SQL.p_kind q) = true ->
                          (rank (SQL.p_table p) < rank (SQL.p_table q))%nat))
    /\ (forall ps, SQL.pieces lite = Ok ps ->
          (forall p, In p ps -> SQL.p_kind p <> SQL.KConstraints)
          /\ (forall p, In p ps -> SQL.p_kind p = SQL.KCreateTable ->
                exists tcols cs,
                  lookup_table (SQL._tables lite) (SQL.p_table p) = Ok tcols
                  /\ lookup_table (SQL._constraints lite) (SQL.p_table p) = Ok cs
                  /\ SQL.p_text p = SQL.__table (SQL.p_table p) (tcols ++ cs)
                  /\ List.Forall
                       (fun c => String.prefix inline_constraint c = true) cs)).
Proof.
  intros db minified std lite. split.
  - intros ps Hps.
    destruct (pieces_blocks std ps Hps) as (blocks & Hnb & Htabs & Hok).
    change (BaseExporter._db (SQL.base std)) with db in Htabs.
    assert (Hsorted : StronglySorted place_le (no_banner ps)).
    { rewrite Hnb. apply blocks_sorted. rewrite Htabs. apply tables_ranked. }
    assert (Hin : forall p, In p ps -> is_banner (SQL.p_kind p) = false ->
              exists b, In b blocks /\ In p (block_statements std b)
                        /\ In (block_table b) Database._tables).
    { intros p Hp Hk. assert (Hp' : In p (no_banner ps)) by now apply in_no_banner.
      rewrite Hnb in Hp'. apply block_of_piece in Hp'.
      destruct Hp' as (b & Hb & Hpb). exists b. split; [exact Hb|]. split; [exact Hpb|].
      assert (Ht : In (block_table b) (nonempty_tables db)).
      { rewrite <- Htabs. now apply List.in_map. }
      apply List.filter_In in Ht. tauto. }
    split; [|split].
    + intros p Hp Hk. destruct (Hin p Hp) as (b & Hb & Hpb & Ht); [now rewrite Hk|].
      apply in_statements in Hpb. destruct Hpb as [Htab Hcases]. fold (block_table b) in *.
      destruct Hcases as [->|[[Hk' _]|[(_ & cs & Hcs & ->)|Hk']]]; try (simpl in Hk; congruence).
      exists cs. cbn [SQL.p_table SQL.p_text]. split; [exact Hcs|]. split; [reflexivity|].
      eapply lazy_constraints_form; eauto.
    + intros t Ht Hr.
      assert (Htn : In t (List.map block_table blocks)).
      { rewrite Htabs. apply List.filter_In. auto. }
      apply List.in_map_iff in Htn. destruct Htn as (b & <- & Hb).
      eapply List.Forall_forall in Hok; [|exact Hb].
      destruct Hok as (tcols & cs & _ & Hcs & _).
      exists {| SQL.p_kind := SQL.KConstraints; SQL.p_table := block_table b;
                SQL.p_text := SQL.__constraints cs |}.
      split; [|split; reflexivity].
      apply (in_no_banner _ ps). rewrite Hnb. apply List.in_flat_map.
      exists b. split; [exact Hb|]. now apply constraints_in_statements.
    + intros l1 p l2 -> Hk.
      assert (Hafter : forall q, In q l2 -> is_load (SQL.p_kind q) = true ->
                (rank (SQL.p_table p) < rank (SQL.p_table q))%nat).
      { intros q Hq Hload. unfold no_banner in Hsorted.
        rewrite List.filter_app in Hsorted. cbn [List.filter] in Hsorted.
        rewrite Hk in Hsorted. cbn [is_banner negb] in Hsorted.
        assert (Hq' : In q (List.filter (fun p => negb (is_banner (SQL.p_kind p))) l2)).
        { apply List.filter_In. split; [exact Hq|]. now destruct (SQL.p_kind q). }
        pose proof (strongly_sorted_after _ _ _ _ Hsorted q Hq') as Hle.
        unfold place_le, place in Hle. rewrite Hk, Hload in Hle. cbn [is_load] in Hle. lia. }
      split; [|exact Hafter].
      destruct (Hin p) as (b & Hb & Hpb & Ht);
        [apply in_or_app; right; now left|now rewrite Hk|].
      pose proof (create_in_statements std (fst (fst b)) (snd (fst b)) (snd b)) as Hc.
      fold (block_statements std b) in Hc.
      apply in_statements in Hpb. destruct Hpb as [Htab _].
      set (c := {| SQL.p_kind := SQL.KCreateTable; SQL.p_table := fst (fst b);
                   SQL.p_text := SQL.__table (fst (fst b)) (snd (fst b)) |}) in *.
      assert (Hcps : In c (l1 ++ p :: l2)).
      { apply (in_no_banner c). rewrite Hnb. apply List.in_flat_map. eauto. }
      exists c. split; [|split; [reflexivity|now rewrite Htab]].
      apply in_app_or in Hcps. destruct Hcps as [Hc1|[Hc2|Hc3]]; [exact Hc1| |].
      * subst p. discriminate Hk.
      * specialize (Hafter c Hc3 eq_refl). rewrite Htab in Hafter.
        cbn [SQL.p_table c] in Hafter. lia.
  - intros ps Hps.
    destruct (pieces_blocks lite ps Hps) as (blocks & Hnb & Htabs & Hok).
    change (BaseExporter._db (SQL.base lite)) with db in Htabs.
    assert (Hin : forall p, In p ps -> is_banner (SQL.p_kind p) = false ->
              exists b, In b blocks /\ In p (block_statements lite b)
                        /\ In (block_table b) Database._tables).
    { intros p Hp Hk. assert (Hp' : In p (no_banner ps)) by now apply in_no_banner.
      rewrite Hnb in Hp'. apply block_of_piece in Hp'.
      destruct Hp' as (b & Hb & Hpb). exists b. split; [exact Hb|]. split; [exact Hpb|].
      assert (Ht : In (block_table b) (nonempty_tables db)).
      { rewrite <- Htabs. now apply List.in_map. }
      apply List.filter_In in Ht. tauto. }
    split.
    + intros p Hp Hk. destruct (Hin p Hp) as (b & Hb & Hpb & Ht); [now rewrite Hk|].
      apply in_statements in Hpb. destruct Hpb as [Htab Hcases].
      destruct Hcases as [->|[[Hk' _]|[(Hl & _)|Hk']]];
        try (simpl in Hk; congruence). discriminate Hl.
    + intros p Hp Hk. destruct (Hin p Hp) as (b & Hb & Hpb & Ht); [now rewrite Hk|].
      eapply List.Forall_forall in Hok; [|exact Hb].
      destruct Hok as (tcols & cs & Htc & Hcs & Hcols).
      apply in_statements in Hpb. destruct Hpb as [Htab Hcases].
      fold (block_table b) in *.
      destruct Hcases as [->|[[Hk' _]|[(Hl & _)|Hk']]];
        [|congruence|discriminate Hl|congruence].
      cbn [SQL.p_table SQL.p_text]. exists tcols, cs.
      split; [exact Htc|]. split; [exact Hcs|]. split.
      * now rewrite Hcols.
      * eapply inline_constraints_form; eauto.
Qed.

(** C3 (amended) at one state with one mesoregion, minified: the
    constraints of [uf] are the third piece written, after the CREATE TABLE
    and the INSERT of [uf]; the pieces of [mesorregiao] follow them. *)
Lemma C3_constraints_after_own_table_witness :
  exists ps l1 p l2,
    SQL.pieces (SQL.__init__ db_one_child true "standard") = Ok ps
    /\ ps = (l1 ++ p :: l2)%list
    /\ SQL.p_kind p = SQL.KConstraints /\ SQL.p_table p = "uf"
    /\ List.map SQL.p_kind l1 = [SQL.KCreateTable; SQL.KInsert]
    /\ (exists q, In q l1 /\ SQL.p_kind q = SQL.KCreateTable
                  /\ SQL.p_table q = SQL.p_table p)
    /\ forall q, In q l2 -> is_load (SQL.p_kind q) = true ->
                 (rank (SQL.p_table p) < rank (SQL.p_table q))%nat.
Proof.
  destruct (C3_constraints_after_own_table db_one_child true) as [Hstd _].
  eexists. eexists. eexists. eexists.
  split; [vm_compute; reflexivity|].
  split; [instantiate (3 := [_; _]); reflexivity|].
  split; [reflexivity|]. split; [reflexivity|]. split; [reflexivity|].
  match goal with
  | |- (exists q, In q ?l1 /\ _ /\ _ = SQL.p_table ?p) /\ (forall r, In r ?l2 -> _) =>
      refine (proj2 (proj2 (Hstd (l1 ++ p :: l2)%list _)) l1 p l2 eq_refl eq_refl)
  end.
  vm_compute; reflexivity.
Defined.

(** ** Flattened serialization: the sort *)

#[local] Arguments composite_key : simpl never.

Lemma lex_ltb_irrefl (a : list Z) : lex_ltb a a = false.
Proof. induction a as [|x a IH]; simpl; [reflexivity|]. now rewrite Z.eqb_refl. Qed.

Lemma lex_ltb_trans (a b c : list Z) :
  lex_ltb a b = true -> lex_ltb b c = true -> lex_ltb a c = true.
Proof.
  revert b c. induction a as [|x a IH]; intros [|y b] [|z c]; simpl; try congruence.
  destruct (Z.eqb_spec x y), (Z.eqb_spec y z), (Z.eqb_spec x z); subst;
    try lia; eauto; rewrite ?Z.ltb_lt; try lia; try congruence.
Qed.

Lemma lex_ltb_trichotomy (a b : list Z) :
  lex_ltb a b = false -> lex_ltb b a = false -> a = b.
Proof.
  revert b. induction a as [|x a IH]; intros [|y b]; simpl; try congruence.
  destruct (Z.eqb_spec x y), (Z.eqb_spec y x); subst; try lia.
  intros H1 H2. f_equal. now apply IH.
Qed.

Lemma lex_lt_le_trans (a b c : list Z) :
  lex_ltb a b = true -> key_le b c -> lex_ltb a c = true.
Proof.
  unfold key_le. intros Hab Hcb.
  destruct (lex_ltb b c) eqn:Hbc; [eapply lex_ltb_trans; eauto|].
  now rewrite <- (lex_ltb_trichotomy b c Hbc Hcb).
Qed.

Lemma key_le_trans (a b c : list Z) : key_le a b -> key_le b c -> key_le a c.
Proof.
  unfold key_le. intros Hba Hcb. destruct (lex_ltb c a) eqn:Hca; [|reflexivity].
  assert (H : lex_ltb c b = true) by (eapply lex_lt_le_trans; eauto).
  congruence.
Qed.

Lemma tuple_lt_ints (a b : list Z) :
  Serializers.tuple_lt (List.map VInt a) (List.map VInt b) = Ok (lex_ltb a b).
Proof.
  revert b. induction a as [|x a IH]; intros [|y b]; simpl; try reflexivity.
  destruct (Z.eqb x y); [apply IH|reflexivity].
Qed.

Lemma sort_key_numeric (r : list (string * value)) :
  ids_numeric r -> Serializers.sort_key r = List.map VInt (composite_key r).
Proof.
  intros H. unfold Serializers.sort_key, composite_key. fold key_fields.
  rewrite List.map_map. apply List.map_ext_in. intros k Hk.
  unfold Serializers.get_or_0, field_or_zero.
  destruct (H k Hk) as [->|[->|[z ->]]]; try reflexivity.
  simpl. destruct (Z.eqb_spec z 0) as [->|]; reflexivity.
Qed.

Lemma sort_insert_numeric x sorted :
  ids_numeric x -> List.Forall ids_numeric sorted ->
  Serializers.sort_insert Serializers.sort_key x sorted = Ok (key_insert x sorted).
Proof.
  intros Hx. induction 1 as [|y sorted Hy Hs IH]; cbn [Serializers.sort_insert key_insert].
  - reflexivity.
  - rewrite (sort_key_numeric x Hx), (sort_key_numeric y Hy), tuple_lt_ints.
    cbn [Py.bind]. destruct (lex_ltb (composite_key x) (composite_key y));
      [reflexivity|]. now rewrite IH.
Qed.

Lemma key_insert_numeric x sorted :
  ids_numeric x -> List.Forall ids_numeric sorted ->
  List.Forall ids_numeric (key_insert x sorted).
Proof.
  intros Hx. induction 1 as [|y sorted Hy Hs IH]; cbn [key_insert].
  - constructor; [exact Hx|constructor].
  - destruct (lex_ltb (composite_key x) (composite_key y)).
    + constructor; [exact Hx|]. constructor; assumption.
    + constructor; assumption.
Qed.

Lemma sort_numeric_from l acc :
  List.Forall ids_numeric l -> List.Forall ids_numeric acc ->
  foldM (fun sorted x => Serializers.sort_insert Serializers.sort_key x sorted) acc l
  = Ok (fold_left (fun sorted x => key_insert x sorted) l acc).
Proof.
  intros Hl. revert acc. induction Hl as [|x l Hx Hl IH]; intros acc Hacc; cbn [key_insert].
  - reflexivity.
  - simpl. rewrite (sort_insert_numeric x acc Hx Hacc). cbn [Py.bind].
    apply IH. now apply key_insert_numeric.
Qed.

Lemma sort_numeric l :
  List.Forall ids_numeric l ->
  Serializers.sort Serializers.sort_key l = Ok (key_sort l).
Proof. intros H. apply sort_numeric_from; [exact H|constructor]. Qed.

Lemma key_insert_in x sorted z :
  In z (key_insert x sorted) -> z = x \/ In z sorted.
Proof.
  induction sorted as [|y s IH]; cbn [key_insert].
  - intros [<-|[]]. now left.
  - destruct (lex_ltb (composite_key x) (composite_key y)); cbn [In]; intuition.
Qed.

Lemma key_insert_sorted x sorted :
  StronglySorted record_le sorted -> StronglySorted record_le (key_insert x sorted).
Proof.
  induction 1 as [|y s Hs IH Hy]; cbn [key_insert].
  - repeat constructor.
  - destruct (lex_ltb (composite_key x) (composite_key y)) eqn:Hlt.
    + constructor; [constructor; assumption|].
      assert (Hxy : record_le x y).
      { unfold record_le, key_le. destruct (lex_ltb (composite_key y) _) eqn:Hyx;
          [|reflexivity].
        pose proof (lex_ltb_trans _ _ _ Hlt Hyx) as H. now rewrite lex_ltb_irrefl in H. }
      constructor; [exact Hxy|].
      eapply List.Forall_impl; [|exact Hy]. intros z Hz.
      unfold record_le in *. eapply key_le_trans; eauto.
    + constructor; [exact IH|].
      apply List.Forall_forall. intros z Hz. apply key_insert_in in Hz.
      destruct Hz as [->|Hz]; [exact Hlt|].
      eapply List.Forall_forall in Hy; eauto.
Qed.

Lemma key_insert_perm x sorted : Permutation (x :: sorted) (key_insert x sorted).
Proof.
  induction sorted as [|y s IH]; cbn [key_insert]; [reflexivity|].
  destruct (lex_ltb (composite_key x) (composite_key y)); [reflexivity|].
  rewrite perm_swap. now constructor.
Qed.

Lemma key_insert_stable k x sorted :
  StronglySorted record_le sorted ->
  List.filter (has_key k) (key_insert x sorted)
  = (List.filter (has_key k) sorted ++ List.filter (has_key k) [x])%list.
Proof.
  induction 1 as [|y s Hs IH Hy]; [reflexivity|].
  cbn [key_insert].
  destruct (lex_ltb (composite_key x) (composite_key y)) eqn:Hlt.
  - cbn [List.filter]. destruct (has_key k x) eqn:Hkx; [|now rewrite app_nil_r].
    assert (Hk : composite_key x = k).
    { unfold has_key in Hkx.
      destruct (List.list_eq_dec Z.eq_dec (composite_key x) k); [assumption|discriminate]. }
    (* every record from [y] on has a larger key than [x] *)
    assert (Hnone : forall z, In z (y :: s) -> has_key k z = false).
    { intros z Hz. unfold has_key.
      destruct (List.list_eq_dec Z.eq_dec (composite_key z) k) as [Hzk|]; [|reflexivity].
      exfalso.
      assert (Hxz : lex_ltb (composite_key x) (composite_key z) = true).
      { destruct Hz as [<-|Hz]; [exact Hlt|].
        eapply List.Forall_forall in Hy; [|exact Hz].
        eapply lex_lt_le_trans; eauto. }
      rewrite Hk, Hzk, lex_ltb_irrefl in Hxz. discriminate. }
    assert (Hempty : List.filter (has_key k) (y :: s) = []).
    { clear -Hnone. induction (y :: s) as [|z l IH]; [reflexivity|]. simpl.
      rewrite (Hnone z) by (simpl; auto). apply IH. intros; apply Hnone; simpl; auto. }
    cbn [List.filter] in Hempty. now rewrite Hempty.
  - cbn [List.filter]. rewrite IH. now destruct (has_key k y).
Qed.

Lemma key_sort_from l acc :
  StronglySorted record_le acc ->
  let out := fold_left (fun sorted x => key_insert x sorted) l acc in
  StronglySorted record_le out
  /\ Permutation (acc ++ l) out
  /\ forall k, List.filter (has_key k) out
               = (List.filter (has_key k) acc ++ List.filter (has_key k) l)%list.
Proof.
  revert acc. induction l as [|x l IH]; intros acc Hacc; cbn [fold_left].
  - rewrite app_nil_r. split; [exact Hacc|]. split; [reflexivity|].
    intros k. now rewrite app_nil_r.
  - destruct (IH (key_insert x acc) (key_insert_sorted x acc Hacc)) as (Hs & Hp & Hst).
    split; [exact Hs|]. split.
    + etransitivity; [|exact Hp].
      etransitivity; [symmetry; apply Permutation_middle|].
      change (x :: acc ++ l)%list with ((x :: acc) ++ l)%list.
      apply Permutation_app_tail, key_insert_perm.
    + intros k. rewrite Hst, key_insert_stable by exact Hacc.
      rewrite <- app_assoc. f_equal.
      cbn [List.filter]. now destruct (has_key k x).
Qed.

Lemma strongly_sorted_impl {A} (R R' : A -> A -> Prop) (l : list A) :
  (forall a b, R a b -> R' a b) -> StronglySorted R l -> StronglySorted R' l.
Proof.
  intros Himp. induction 1 as [|a l Hl IH Hall]; constructor.
  - exact IH.
  - eapply List.Forall_impl; [|exact Hall]. intros b. apply Himp.
Qed.

Lemma sorted_adjacent {A} (R : A -> A -> Prop) (l : list A) :
  StronglySorted R l ->
  forall i a b, nth_error l i = Some a -> nth_error l (S i) = Some b -> R a b.
Proof.
  induction 1 as [|x l Hs IH Hx]; intros i a b Ha Hb.
  - destruct i; discriminate.
  - destruct i as [|i].
    + injection Ha as <-. simpl in Hb. destruct l as [|y l]; [discriminate|].
      injection Hb as <-. now inversion Hx.
    + simpl in Ha, Hb. eapply IH; eauto.
Qed.

Section FlattenedOrder.
Variable row : Type.
Variable Entities : list Serializers.Entity.
Variable loadAll : list row.
Variable getattr : row -> string -> list row.
Variable serialize_row_flat : row -> list (string * value).
Variable gettext : string -> string.

Lemma records_step_present (recs : list (string * list row)) (e : Serializers.Entity) :
  present recs "states" ->
  exists recs', Serializers.records_step row getattr recs e = Ok recs'
    /\ (forall k, present recs k -> present recs' k)
    /\ present recs' (Serializers.table_name e).
Proof.
  intros [states Hs]. unfold Serializers.records_step.
  destruct (od_get String.eqb recs (Serializers.table_name e)) as [l|] eqn:He.
  - exists recs. split; [reflexivity|]. split; [auto|]. now exists l.
  - rewrite Hs. eexists. split; [reflexivity|]. split.
    + intros k Hk. now apply od_set_get_keep.
    + apply od_set_get_same.
Qed.

Lemma records_fold_present (es : list Serializers.Entity) :
  forall recs, present recs "states" ->
  exists recs', foldM (Serializers.records_step row getattr) recs es = Ok recs'
    /\ (forall k, present recs k -> present recs' k)
    /\ (forall e, In e es -> present recs' (Serializers.table_name e)).
Proof.
  induction es as [|e es IH]; intros recs Hs; cbn [foldM].
  - exists recs. split; [reflexivity|]. split; [auto|]. intros e [].
  - destruct (records_step_present recs e Hs) as (r1 & -> & Hkeep & Hnew).
    cbn [Py.bind]. destruct (IH r1 (Hkeep _ Hs)) as (r2 & -> & Hkeep2 & Hall).
    exists r2. split; [reflexivity|]. split; [auto|].
    intros e' [<-|He']; auto.
Qed.

Lemma records_of_returns {A} (self : Serializers.obj row A) (e : Serializers.Entity) :
  cache_ok Entities self -> In e Entities ->
  exists l self',
    Serializers.records_of row Entities loadAll getattr
      (Serializers.table_name e) self = (Ok l, self')
    /\ cache_ok Entities self'.
Proof.
  intros Hc He. unfold Serializers.records_of, Serializers.__records__,
    Serializers.cachedmethod, cache_ok in *.
  destruct (Serializers.cached_records self) as [recs|] eqn:Hcache.
  - destruct (Hc e He) as [l Hl]. rewrite Hl. exists l, self.
    split; [reflexivity|]. now rewrite Hcache.
  - unfold Serializers.records_body.
    destruct (records_fold_present Entities [("states", loadAll)]) as (recs & -> & _ & Hall).
    { exists loadAll. reflexivity. }
    destruct (Hall e He) as [l Hl]. rewrite Hl. eexists. eexists.
    split; [reflexivity|]. exact Hall.
Qed.

Lemma flatten_loop_returns {A} (es : list Serializers.Entity) :
  (forall e, In e es -> In e Entities) ->
  forall acc (self : Serializers.obj row A), cache_ok Entities self ->
  exists records self',
    Serializers.flatten_loop row Entities loadAll getattr serialize_row_flat gettext
      es acc self = (Ok records, self').
Proof.
  induction es as [|e es IH]; intros Hsub acc self Hc; cbn [Serializers.flatten_loop].
  - eauto.
  - destruct (records_of_returns self e Hc) as (l & self' & -> & Hc');
      [apply Hsub; now left|].
    apply IH; [intros; apply Hsub; now right|exact Hc'].
Qed.

(** X19. When the translation leaves the six key names as they are, the
    flattened serialization returns its records sorted by the composite key
    of their hierarchy ids (state_id, mesoregion_id, microregion_id,
    municipality_id, district_id, subdistrict_id), an absent field counting
    as zero: when the ids are numeric the call returns a permutation of the
    collected records in which any two adjacent records are in key order (as
    are any two records, the earlier against the later), and records with
    the same key keep the order in which they were collected. *)
Theorem X19_flattened_sorted_when_keys_untranslated :
  forall (self : Serializers.obj row (list (list (string * value)))),
    (forall k, In k key_fields -> gettext k = k) ->
    cache_ok Entities self ->
    exists records self',
      Serializers.flatten_loop row Entities loadAll getattr serialize_row_flat
        gettext Entities [] (Serializers.count_run row self) = (Ok records, self')
      /\ (List.Forall ids_numeric records ->
          exists out,
            Serializers.flattened_body row Entities loadAll getattr
              serialize_row_flat gettext self = (Ok out, self')
            /\ Permutation records out
            /\ (forall i a b,
                  nth_error out i = Some a -> nth_error out (S i) = Some b ->
                  key_le (hierarchy_key gettext a) (hierarchy_key gettext b))
            /\ StronglySorted
                 (fun a b => key_le (hierarchy_key gettext a) (hierarchy_key gettext b))
                 out
            /\ (forall k, List.filter (has_hierarchy_key gettext k) out
                          = List.filter (has_hierarchy_key gettext k) records)).
Proof.
  intros self Hfix Hc.
  assert (Hkey : forall r, hierarchy_key gettext r = composite_key r).
  { intros r. unfold hierarchy_key, composite_key. apply List.map_ext_in.
    intros k Hk. now rewrite (Hfix k Hk). }
  assert (Hhas : forall k r, has_hierarchy_key gettext k r = has_key k r).
  { intros k r. unfold has_hierarchy_key, has_key. now rewrite Hkey. }
  destruct (flatten_loop_returns Entities (fun e H => H) []
              (Serializers.count_run row self) Hc) as (records & self' & Hloop).
  exists records, self'. split; [exact Hloop|]. intros Hnum.
  exists (key_sort records). unfold Serializers.flattened_body. rewrite Hloop.
  rewrite (sort_numeric records Hnum).
  destruct (key_sort_from records [] (SSorted_nil _)) as (Hs & Hp & Hst).
  assert (Hs' : StronglySorted
                  (fun a b => key_le (hierarchy_key gettext a) (hierarchy_key gettext b))
                  (key_sort records)).
  { eapply strongly_sorted_impl; [|exact Hs]. intros a b Hab. cbv beta.
    rewrite !Hkey. exact Hab. }
  split; [reflexivity|]. split; [exact Hp|]. split; [|split; [exact Hs'|]].
  - exact (sorted_adjacent _ _ Hs').
  - intros k. rewrite (List.filter_ext _ _ (Hhas k)).
    rewrite (List.filter_ext _ _ (Hhas k) records). apply Hst.
Qed.
End FlattenedOrder.

Lemma X19_flattened_sorted_when_keys_untranslated_witness :
  exists out self',
    Serializers.flattened_body Z sample_entities [11; 12] sample_getattr
      sample_serialize_row_flat (fun s => s) (fresh_serializer _) = (Ok out, self')
    /\ List.map (hierarchy_key (fun s => s)) out
       = [ [11; 0; 0; 0; 0; 0]; [11; 1101; 0; 0; 0; 0]; [11; 1102; 0; 0; 0; 0];
           [12; 0; 0; 0; 0; 0] ]
    /\ StronglySorted
         (fun a b => key_le (hierarchy_key (fun s => s) a)
                            (hierarchy_key (fun s => s) b)) out.
Proof.
  destruct (X19_flattened_sorted_when_keys_untranslated Z sample_entities [11; 12]
              sample_getattr sample_serialize_row_flat (fun s => s)
              (fresh_serializer _) (fun k _ => eq_refl) I)
    as (records & self' & Hloop & Hsorted).
  vm_compute in Hloop. injection Hloop as <- <-.
  destruct Hsorted as (out & Hout & _ & _ & Hs & _).
  - repeat (apply List.Forall_cons;
              [intros k Hk; simpl in Hk;
               repeat (destruct Hk as [<-|Hk]; [vm_compute; eauto|]); destruct Hk|]).
    apply List.Forall_nil.
  - exists out. eexists. split; [exact Hout|]. split; [|exact Hs].
    vm_compute in Hout. injection Hout as <-. vm_compute. reflexivity.
Defined.

(** C4 at a failing input. The keys of the flattened records go through
    [_] before the list is sorted, and the sort reads the six ids under
    their untranslated names. Under a catalogue that translates the names
    every sort key is all zeros and the list stays as collected: the states
    11 and 12 first, then the mesoregions 1101 and 1102 of state 11, so that
    state 12 comes before the mesoregion 1101 of state 11 although its
    composite key is the greater one. *)
Lemma C4_translated_records_are_not_sorted :
  let state id := [("id_uf", VInt id); ("nome_uf", VStr "state")] in
  let mesoregion id :=
    [("id_uf", VInt 11); ("id_mesorregiao", VInt id);
     ("nome_mesorregiao", VStr "meso")] in
  let out := [state 11; state 12; mesoregion 1101; mesoregion 1102] in
  fst (Serializers.FlattenedSerializer_serialize Z sample_entities [11; 12]
         ordered_getattr sample_serialize_row_flat translated (fresh_serializer _))
  = Ok out
  /\ List.map Serializers.sort_key out
     = List.repeat (List.repeat (VInt 0) 6) 4
  /\ nth_error out 1 = Some (state 12)
  /\ nth_error out 2 = Some (mesoregion 1101)
  /\ hierarchy_key translated (state 12) = [12; 0; 0; 0; 0; 0]
  /\ hierarchy_key translated (mesoregion 1101) = [11; 1101; 0; 0; 0; 0]
  /\ ~ key_le (hierarchy_key translated (state 12))
              (hierarchy_key translated (mesoregion 1101)).
Proof.
  cbv zeta. repeat split; try (vm_compute; reflexivity).
  vm_compute. discriminate.
Qed.

(** ** SQL: what minifying does to string values *)

(** C2 at a failing input. For a state named [Sao Joao, Vila] the plain
    script holds the name as it is, and the minified script holds
    [Sao Joao,Vila]: the pass that removes blanks after commas rewrote the
    inside of the quoted value. *)
Lemma C2_minify_rewrites_quoted_value :
  exists plain mini,
    SQL.__str__ (SQL.__init__ db_comma_name false "standard") = Ok plain
    /\ SQL.__str__ (SQL.__init__ db_comma_name true "standard") = Ok mini
    /\ sql_string_values plain = ["Sao Joao, Vila"]
    /\ sql_string_values mini = ["Sao Joao,Vila"]
    /\ mini = "CREATE TABLE uf(id SMALLINT NOT NULL,nome VARCHAR(32) NOT NULL);"
              +:+ "INSERT INTO uf VALUES(11,'Sao Joao,Vila');"
              +:+ "ALTER TABLE uf ADD CONSTRAINT pk_uf PRIMARY KEY(id);".
Proof.
  eexists. eexists.
  split; [vm_compute; reflexivity|].
  split; [vm_compute; reflexivity|].
  split; [vm_compute; reflexivity|].
  split; vm_compute; reflexivity.
Qed.

(** C5 at a failing input. Read back, the minified SQL render and the plain
    one give different values: the plain script returns the names of the
    database, the minified one returns them with the run of blanks collapsed
    and the blanks inside the parentheses removed. *)
Lemma C5_minified_sql_reads_back_differently :
  exists plain mini,
    SQL.__str__ (SQL.__init__ db_blank_names false "standard") = Ok plain
    /\ SQL.__str__ (SQL.__init__ db_blank_names true "standard") = Ok mini
    /\ sql_string_values plain = ["Alta  Floresta"; "Leste ( Sede )"]
    /\ sql_string_values mini = ["Alta Floresta"; "Leste (Sede)"]
    /\ sql_string_values mini <> sql_string_values plain.
Proof.
  eexists. eexists.
  split; [vm_compute; reflexivity|].
  split; [vm_compute; reflexivity|].
  split; [vm_compute; reflexivity|].
  split; [vm_compute; reflexivity|].
  vm_compute. discriminate.
Qed.

(* ===================================================================== *)
(** * Further properties                                                 *)
(* ===================================================================== *)

(** ** SQL: the statements of the script *)

Lemma mapM_length {A B} (f : A -> result B) (l : list A) (ys : list B) :
  mapM f l = Ok ys -> List.length ys = List.length l.
Proof.
  revert ys. induction l as [|x l IH]; intros ys; cbn [mapM].
  - intros [= <-]. reflexivity.
  - destruct (f x); cbn [Py.bind]; [|discriminate].
    destruct (mapM f l); cbn [Py.bind]; [|discriminate].
    intros [= <-]. simpl. f_equal. now apply IH.
Qed.

Lemma mapM_ok_inv {A B} (f : A -> result B) (l : list A) (ys : list B) :
  mapM f l = Ok ys -> forall x, In x l -> exists y, f x = Ok y.
Proof.
  revert ys. induction l as [|x l IH]; intros ys; cbn [mapM].
  - intros _ x [].
  - destruct (f x) as [y|] eqn:Hx; cbn [Py.bind]; [|discriminate].
    destruct (mapM f l) as [ys'|]; cbn [Py.bind]; [|discriminate].
    intros _ x' [<-|Hin]; [eauto|]. eapply IH; eauto.
Qed.

Section Script.
Variable self : SQL.t.
Let db := BaseExporter._db (SQL.base self).

Lemma inserts_of_app t a b :
  inserts_of t (a ++ b) = (inserts_of t a ++ inserts_of t b)%list.
Proof. unfold inserts_of. now rewrite List.filter_app, List.map_app. Qed.

Lemma inserts_of_note t what t' : inserts_of t (note self what t') = [].
Proof. unfold note. now destruct (BaseExporter._minified _). Qed.

Lemma inserts_of_lines t t' lines :
  inserts_of t (List.map (fun l => {| SQL.p_kind := SQL.KInsert; SQL.p_table := t';
                                      SQL.p_text := l |}) lines)
  = if String.eqb t' t then lines else [].
Proof.
  unfold inserts_of. induction lines as [|l lines IH]; cbn [List.map List.filter].
  - now destruct (String.eqb t' t).
  - cbn [is_kind SQL.p_kind SQL.p_table andb].
    destruct (String.eqb t' t); cbn [List.map]; [now f_equal|exact IH].
Qed.

Lemma inserts_of_cons_other t p l :
  is_kind SQL.KInsert p = false -> inserts_of t (p :: l) = inserts_of t l.
Proof. intros H. unfold inserts_of. cbn [List.filter]. now rewrite H. Qed.

(** The INSERT lines of one round of the loop are those of its records. *)
Lemma table_pieces_inserts t t' ps :
  SQL.table_pieces self t' = Ok ps ->
  exists rows lines,
    Database._data db !! t' = Some rows
    /\ mapM (SQL.insert_line self t') rows = Ok lines
    /\ inserts_of t ps = if String.eqb t' t then lines else [].
Proof.
  unfold SQL.table_pieces, getitem. fold db.
  destruct (Database._data db !! t') as [rows|]; cbn [Py.bind]; [|discriminate].
  destruct rows as [|it rows0] eqn:Erows.
  { intros [= <-]. exists [], []. repeat split. now destruct (String.eqb t' t). }
  cbv iota. rewrite <- Erows. clear Erows it rows0.
  fold (note self "Structure" t'). fold (note self "Data" t').
  fold (note self "Constraints" t'). fold (note self "Indexes" t').
  match goal with |- Py.bind ?m _ = _ -> _ =>
    destruct m as [cols|e]; cbn [Py.bind]; [|discriminate] end.
  destruct (mapM (SQL.insert_line self t') rows) as [lines|e] eqn:Hl; cbn [Py.bind];
    [|discriminate].
  match goal with |- Py.bind ?m _ = _ -> _ =>
    destruct m as [cons|e] eqn:Hcons; cbn [Py.bind]; [|discriminate] end.
  intros [= <-]. exists rows, lines. split; [reflexivity|]. split; [exact Hl|].
  assert (Hc : inserts_of t cons = []).
  { destruct (SQL._lazy_constraints self); [|now injection Hcons as <-].
    destruct (lookup_table (SQL._constraints self) t'); cbn [Py.bind] in Hcons;
      [|discriminate].
    injection Hcons as <-. now rewrite inserts_of_app, inserts_of_note. }
  assert (Hi : inserts_of t
            (if SQL._create_indexes self
             then match od_get String.eqb (SQL._indexes self) t' with
                  | Some ixs =>
                      (note self "Indexes" t'
                       ++ [ {| SQL.p_kind := SQL.KIndexes; SQL.p_table := t';
                               SQL.p_text := SQL.__indexes ixs |} ])%list
                  | None => []
                  end
             else []) = []).
  { destruct (SQL._create_indexes self); [|reflexivity].
    destruct (od_get String.eqb (SQL._indexes self) t'); [|reflexivity].
    now rewrite inserts_of_app, inserts_of_note. }
  repeat first [ rewrite inserts_of_note | rewrite inserts_of_lines | rewrite Hc
               | rewrite Hi | rewrite inserts_of_app
               | rewrite inserts_of_cons_other by reflexivity ].
  cbn [app]. now rewrite app_nil_r.
Qed.

Lemma tables_inserts t ts pss :
  List.NoDup ts -> In t ts ->
  mapM (SQL.table_pieces self) ts = Ok pss ->
  exists rows lines,
    Database._data db !! t = Some rows
    /\ mapM (SQL.insert_line self t) rows = Ok lines
    /\ inserts_of t (List.concat pss) = lines.
Proof.
  revert pss. induction ts as [|t' ts IH]; intros pss Hnd Hin; [destruct Hin|].
  cbn [mapM]. destruct (SQL.table_pieces self t') as [ps|e] eqn:Ht; cbn [Py.bind];
    [|discriminate].
  destruct (mapM (SQL.table_pieces self) ts) as [pss'|e] eqn:Hts; cbn [Py.bind];
    [|discriminate].
  intros [= <-]. cbn [List.concat]. rewrite inserts_of_app.
  inversion Hnd as [|? ? Hnotin Hnd']; subst.
  destruct (table_pieces_inserts t t' ps Ht) as (rows & lines & Hrows & Hlines & Hins).
  destruct (String.eqb_spec t' t) as [->|Hne].
  - exists rows, lines. split; [exact Hrows|]. split; [exact Hlines|].
    rewrite Hins.
    (* no later round writes for [t] *)
    assert (Hrest : forall ts' pss'', ~ In t ts' ->
              mapM (SQL.table_pieces self) ts' = Ok pss'' ->
              inserts_of t (List.concat pss'') = []).
    { clear IH. induction ts' as [|u ts' IH]; intros pss'' Hn; cbn [mapM].
      - intros [= <-]. reflexivity.
      - destruct (SQL.table_pieces self u) as [psu|e] eqn:Hu; cbn [Py.bind];
          [|discriminate].
        destruct (mapM (SQL.table_pieces self) ts') as [pss1|e] eqn:Hts1; cbn [Py.bind];
          [|discriminate].
        intros [= <-]. cbn [List.concat]. rewrite inserts_of_app.
        destruct (table_pieces_inserts t u psu Hu) as (_ & l & _ & _ & ->).
        destruct (String.eqb_spec u t) as [->|_]; [exfalso; apply Hn; now left|].
        apply IH; [|reflexivity]. intros H; apply Hn; now right. }
    rewrite (Hrest ts pss' Hnotin Hts). apply app_nil_r.
  - rewrite Hins. cbn [app]. destruct Hin as [E|Hin]; [contradiction|].
    now apply IH.
Qed.

(** Success of the loop means every table is there and every record of it
    has every field of its table, none of them [None]. *)
Lemma table_pieces_ok_items t ps :
  SQL.table_pieces self t = Ok ps ->
  exists rows, Database._data db !! t = Some rows
    /\ forall it fields f,
         In it rows -> lookup_table Database._fields t = Ok fields -> In f fields ->
         exists v, it !! f = Some v /\ v <> VNone.
Proof.
  intros Ht. destruct (table_pieces_inserts t t ps Ht) as (rows & lines & Hrows & Hl & _).
  exists rows. split; [exact Hrows|]. intros it fields f Hit Hf Hin.
  destruct (mapM_ok_inv _ _ _ Hl it Hit) as [line Hline].
  unfold SQL.insert_line in Hline. rewrite Hf in Hline. cbn [Py.bind] in Hline.
  unfold SQL.insert_data in Hline.
  match type of Hline with Py.bind (Py.bind ?m _) _ = _ =>
    destruct m as [kvs|e] eqn:Hkvs; cbn [Py.bind] in Hline; [|discriminate] end.
  destruct (mapM_ok_inv _ _ _ Hkvs f Hin) as [kv Hkv].
  unfold getitem in Hkv. destruct (it !! f) as [v|]; cbn [Py.bind] in Hkv; [|discriminate].
  exists v. split; [reflexivity|]. intros ->. discriminate Hkv.
Qed.

End Script.

(** X1. The script has one INSERT statement per record: for every table of
    the schema, the INSERT lines written for it are the lines of its
    records, one each, in record order. *)
Theorem X1_one_insert_per_record :
  forall (self : SQL.t) (ps : list SQL.piece) (t : string),
    SQL.pieces self = Ok ps ->
    In t Database._tables ->
    exists rows lines,
      Database._data (BaseExporter._db (SQL.base self)) !! t = Some rows
      /\ mapM (SQL.insert_line self t) rows = Ok lines
      /\ inserts_of t ps = lines
      /\ List.length (inserts_of t ps) = List.length rows.
Proof.
  intros self ps t Hps Ht. unfold SQL.pieces in Hps.
  destruct (mapM (SQL.table_pieces self) Database._tables) as [pss|e] eqn:Hm;
    cbn [Py.bind] in Hps; [|discriminate].
  injection Hps as <-.
  destruct (tables_inserts self t Database._tables pss) as (rows & lines & Hr & Hl & Hi);
    [|exact Ht|exact Hm|].
  - simpl. repeat constructor; simpl; intuition discriminate.
  - exists rows, lines. repeat split; try assumption.
    rewrite Hi. eapply mapM_length, Hl.
Qed.

Lemma X1_one_insert_per_record_witness :
  exists ps,
    SQL.pieces (SQL.__init__ db_one_child false "standard") = Ok ps
    /\ inserts_of "mesorregiao" ps
       = ["INSERT INTO mesorregiao VALUES (1101, 11, 'Madeira-Guapore');" +:+ SQL.nl]
    /\ inserts_of "distrito" ps = [].
Proof.
  eexists. split; [vm_compute; reflexivity|].
  split; [|vm_compute; reflexivity].
  match goal with
  | |- inserts_of _ ?ps = _ =>
      destruct (X1_one_insert_per_record
                  (SQL.__init__ db_one_child false "standard") ps "mesorregiao")
        as (rows & lines & Hr & Hl & Hi & _);
        [vm_compute; reflexivity|simpl; auto|]
  end.
  vm_compute in Hr. injection Hr as <-.
  vm_compute in Hl. injection Hl as <-. rewrite Hi. vm_compute. reflexivity.
Defined.

(** X2. The SQL exporter does not skip what it cannot write: when
    [__str__] returns, every table of the schema is present in [_data] and
    every record has every field of its table, none of them [None]; so a
    missing table, a missing field or a [None] value makes the export
    raise. *)
Theorem X2_sql_returns_only_on_complete_records :
  forall (self : SQL.t) (out : string),
    SQL.__str__ self = Ok out ->
    forall t, In t Database._tables ->
      exists rows,
        Database._data (BaseExporter._db (SQL.base self)) !! t = Some rows
        /\ forall it fields f,
             In it rows -> lookup_table Database._fields t = Ok fields ->
             In f fields -> exists v, it !! f = Some v /\ v <> VNone.
Proof.
  intros self out Hout t Ht. unfold SQL.__str__, SQL.pieces in Hout.
  destruct (mapM (SQL.table_pieces self) Database._tables) as [pss|e] eqn:Hm;
    cbn [Py.bind] in Hout; [|discriminate].
  destruct (mapM_ok_inv _ _ _ Hm t Ht) as [ps Hps].
  eapply table_pieces_ok_items, Hps.
Qed.

Lemma X2_sql_returns_only_on_complete_records_witness :
  exists out rows,
    SQL.__str__ (SQL.__init__ db_one_child true "sqlite") = Ok out
    /\ Database._data db_one_child !! "uf" = Some rows
    /\ forall it, In it rows -> exists v, it !! "nome" = Some v /\ v <> VNone.
Proof.
  eexists.
  destruct (X2_sql_returns_only_on_complete_records
              (SQL.__init__ db_one_child true "sqlite") _ ltac:(vm_compute; reflexivity)
              "uf" ltac:(simpl; auto)) as (rows & Hr & Hitems).
  exists rows. split; [reflexivity|]. split; [exact Hr|].
  intros it Hit. apply (Hitems it ["id"; "nome"] "nome" Hit eq_refl). simpl. auto.
Defined.

(** A missing value: the export of a record whose name is [None] raises
    [AttributeError], that of a record without name raises [KeyError]. *)
Lemma sql_none_name_raises :
  SQL.__str__ (SQL.__init__
                 (loaded [] [("uf", [ {[ "id" := VInt 11; "nome" := VNone ]} ])])
                 false "standard")
  = Err (AttributeError "'NoneType' object has no attribute 'replace'")
  /\ SQL.__str__ (SQL.__init__ (loaded [] [("uf", [ {[ "id" := VInt 11 ]} ])])
                    false "standard")
     = Err (KeyError "nome").
Proof. split; vm_compute; reflexivity. Qed.

Section StatementOrder.
Variable self : SQL.t.

Lemma statements_in_order t cols lines :
  StronglySorted statement_le (statements self t cols lines).
Proof.
  unfold statements.
  set (ins := List.map (fun l => {| SQL.p_kind := SQL.KInsert; SQL.p_table := t;
                                    SQL.p_text := l |}) lines).
  set (cons := if SQL._lazy_constraints self
               then match lookup_table (SQL._constraints self) t with
                    | Ok cs => [ {| SQL.p_kind := SQL.KConstraints; SQL.p_table := t;
                                    SQL.p_text := SQL.__constraints cs |} ]
                    | Err _ => []
                    end
               else []).
  set (idx := if SQL._create_indexes self
              then match od_get String.eqb (SQL._indexes self) t with
                   | Some ixs => [ {| SQL.p_kind := SQL.KIndexes; SQL.p_table := t;
                                      SQL.p_text := SQL.__indexes ixs |} ]
                   | None => []
                   end
              else []).
  assert (Hins : forall p, In p ins -> statement_place p = (4 * rank t + 1)%nat).
  { intros p Hp. apply List.in_map_iff in Hp. destruct Hp as (l & <- & _). reflexivity. }
  assert (Hcons : forall p, In p cons -> statement_place p = (4 * rank t + 2)%nat).
  { subst cons. intros p Hp. destruct (SQL._lazy_constraints self); [|destruct Hp].
    destruct (lookup_table (SQL._constraints self) t); [|destruct Hp].
    destruct Hp as [<-|[]]. reflexivity. }
  assert (Hidx : forall p, In p idx -> statement_place p = (4 * rank t + 3)%nat).
  { subst idx. intros p Hp. destruct (SQL._create_indexes self); [|destruct Hp].
    destruct (od_get String.eqb (SQL._indexes self) t); [|destruct Hp].
    destruct Hp as [<-|[]]. reflexivity. }
  assert (Hsame : forall (l : list SQL.piece) n,
            (forall p, In p l -> statement_place p = n) -> StronglySorted statement_le l).
  { induction l as [|p l IH]; intros n Hn; constructor.
    - apply (IH n). intros; apply Hn; now right.
    - apply List.Forall_forall. intros q Hq. unfold statement_le.
      rewrite (Hn p), (Hn q); simpl; auto. }
  apply strongly_sorted_app; [repeat constructor| |].
  - apply strongly_sorted_app; [eapply Hsame, Hins| |].
    + apply strongly_sorted_app; [eapply Hsame, Hcons|eapply Hsame, Hidx|].
      intros x y Hx Hy. unfold statement_le. rewrite (Hcons x Hx), (Hidx y Hy). lia.
    + intros x y Hx Hy. unfold statement_le. rewrite (Hins x Hx).
      apply in_app_or in Hy. destruct Hy as [Hy|Hy];
        [rewrite (Hcons y Hy)|rewrite (Hidx y Hy)]; lia.
  - intros x y [<-|[]] Hy. unfold statement_le.
    change (statement_place _) with (4 * rank t + 0)%nat at 1.
    apply in_app_or in Hy. destruct Hy as [Hy|Hy]; [rewrite (Hins y Hy); lia|].
    apply in_app_or in Hy. destruct Hy as [Hy|Hy];
      [rewrite (Hcons y Hy)|rewrite (Hidx y Hy)]; lia.
Qed.

Lemma blocks_in_order (blocks : list block) :
  StronglySorted (fun a b => (rank a < rank b)%nat) (List.map block_table blocks) ->
  StronglySorted statement_le (List.flat_map (block_statements self) blocks).
Proof.
  induction blocks as [|b blocks IH]; intros H; cbn [List.flat_map]; [constructor|].
  inversion H as [|? ? Hs Hb]; subst.
  apply strongly_sorted_app; [apply statements_in_order|now apply IH|].
  intros x y Hx Hy. apply in_statements in Hx. destruct Hx as [Hx _].
  apply List.in_flat_map in Hy. destruct Hy as (b' & Hb' & Hy).
  apply in_statements in Hy. destruct Hy as [Hy _].
  eapply List.Forall_forall in Hb; [|apply List.in_map, Hb'].
  unfold statement_le, statement_place, block_table in *. rewrite Hx, Hy.
  destruct (SQL.p_kind x), (SQL.p_kind y); simpl; lia.
Qed.

Lemma creates_of_blocks (blocks : list block) :
  List.map SQL.p_table
    (List.filter (is_kind SQL.KCreateTable)
       (List.flat_map (block_statements self) blocks))
  = List.map block_table blocks.
Proof.
  induction blocks as [|b blocks IH]; [reflexivity|].
  cbn [List.flat_map List.map]. rewrite List.filter_app, List.map_app, IH.
  assert (H : List.map SQL.p_table
                (List.filter (is_kind SQL.KCreateTable) (block_statements self b))
              = [block_table b]); [|now rewrite H].
  unfold block_statements, statements.
  cbn [app List.filter is_kind SQL.p_kind List.map SQL.p_table].
  rewrite !List.filter_app.
  replace (List.filter (is_kind SQL.KCreateTable)
             (List.map (fun l => {| SQL.p_kind := SQL.KInsert;
                                    SQL.p_table := fst (fst b); SQL.p_text := l |})
                       (snd b))) with (@nil SQL.piece)
    by (induction (snd b); [reflexivity|assumption]).
  destruct (SQL._lazy_constraints self);
    [destruct (lookup_table (SQL._constraints self) (fst (fst b)))|];
    (destruct (SQL._create_indexes self);
       [destruct (od_get String.eqb (SQL._indexes self) (fst (fst b)))|]);
    reflexivity.
Qed.
End StatementOrder.

Lemma filter_no_banner (k : SQL.kind) (ps : list SQL.piece) :
  k <> SQL.KBanner ->
  List.filter (is_kind k) (no_banner ps) = List.filter (is_kind k) ps.
Proof.
  intros Hk. unfold no_banner. induction ps as [|[kp tp xp] ps IH]; [reflexivity|].
  destruct k; [congruence|..]; destruct kp;
    cbn [List.filter is_banner SQL.p_kind negb is_kind]; rewrite ?IH; reflexivity.
Qed.

(** X3. The statements of the script follow the schema: banners aside,
    tables come in the order of [_tables] (ancestors before descendants),
    and within a table the CREATE TABLE comes first, then the INSERTs, then
    the constraints, then the indexes. There is one CREATE TABLE per table
    that has records, and banners are written only when the script is not
    minified. *)
Theorem X3_statements_follow_schema_order :
  forall (self : SQL.t) (ps : list SQL.piece),
    SQL.pieces self = Ok ps ->
    StronglySorted statement_le (no_banner ps)
    /\ List.map SQL.p_table (List.filter (is_kind SQL.KCreateTable) ps)
       = nonempty_tables (BaseExporter._db (SQL.base self))
    /\ (BaseExporter._minified (SQL.base self) = true -> no_banner ps = ps).
Proof.
  intros self ps Hps.
  destruct (pieces_blocks self ps Hps) as (blocks & Hnb & Htabs & _).
  split; [|split].
  - rewrite Hnb. apply blocks_in_order. rewrite Htabs. apply tables_ranked.
  - rewrite <- (filter_no_banner SQL.KCreateTable) by discriminate.
    rewrite Hnb, creates_of_blocks. exact Htabs.
  - intros Hmin. unfold SQL.pieces in Hps.
    destruct (mapM (SQL.table_pieces self) Database._tables) as [pss|e] eqn:Hm;
      cbn [Py.bind] in Hps; [|discriminate].
    injection Hps as <-.
    assert (Hall : forall ts pss', mapM (SQL.table_pieces self) ts = Ok pss' ->
              List.Forall (fun p => is_banner (SQL.p_kind p) = false)
                          (List.concat pss')).
    { induction ts as [|t ts IH]; intros pss'; cbn [mapM].
      - intros [= <-]. constructor.
      - destruct (SQL.table_pieces self t) as [pt|e] eqn:Ht; cbn [Py.bind];
          [|discriminate].
        destruct (mapM (SQL.table_pieces self) ts) as [pss1|e] eqn:Hts; cbn [Py.bind];
          [|discriminate].
        intros [= <-]. cbn [List.concat]. apply List.Forall_app. split; [|now apply IH].
        clear IH Hts. unfold SQL.table_pieces in Ht. rewrite Hmin in Ht.
        destruct (getitem _ t) as [[|it rows]|]; cbn [Py.bind] in Ht;
          [injection Ht as <-; constructor| |discriminate].
        match type of Ht with Py.bind ?m _ = _ =>
          destruct m as [cols|]; cbn [Py.bind] in Ht; [|discriminate] end.
        match type of Ht with Py.bind ?m _ = _ =>
          destruct m as [lines|]; cbn [Py.bind] in Ht; [|discriminate] end.
        match type of Ht with Py.bind ?m _ = _ =>
          destruct m as [cons|] eqn:Hc; cbn [Py.bind] in Ht; [|discriminate] end.
        injection Ht as <-. cbn [app].
        constructor; [reflexivity|]. apply List.Forall_app. split.
        + apply List.Forall_forall. intros p Hp. apply List.in_map_iff in Hp.
          destruct Hp as (l & <- & _). reflexivity.
        + apply List.Forall_app. split.
          * destruct (SQL._lazy_constraints self);
              [|injection Hc as <-; constructor].
            destruct (lookup_table (SQL._constraints self) t); cbn [Py.bind] in Hc;
              [|discriminate].
            injection Hc as <-. repeat constructor.
          * destruct (SQL._create_indexes self); [|constructor].
            destruct (od_get String.eqb (SQL._indexes self) t); repeat constructor. }
    specialize (Hall _ _ Hm). unfold no_banner. revert Hall.
    generalize (List.concat pss) as l.
    induction l as [|p l IH]; intros Hall; [reflexivity|].
    inversion Hall as [|? ? Hp Hl]; subst. cbn [List.filter]. rewrite Hp. cbn [negb].
    f_equal. now apply IH.
Qed.

Lemma X3_statements_follow_schema_order_witness :
  exists ps,
    SQL.pieces (SQL.__init__ db_one_child true "standard") = Ok ps
    /\ List.map SQL.p_table (List.filter (is_kind SQL.KCreateTable) ps)
       = ["uf"; "mesorregiao"]
    /\ List.map statement_place ps = [0; 1; 2; 4; 5; 6; 7]%nat.
Proof.
  eexists. split; [vm_compute; reflexivity|].
  match goal with
  | |- List.map _ (List.filter _ ?ps) = _ /\ _ =>
      destruct (X3_statements_follow_schema_order
                  (SQL.__init__ db_one_child true "standard") ps)
        as (_ & Hc & _); [vm_compute; reflexivity|]
  end.
  split; [rewrite Hc; vm_compute; reflexivity|vm_compute; reflexivity].
Defined.

(** ** SQL: databases that render *)

Lemma forall2_of_exists {A B} (P : A -> B -> Prop) (l : list A) :
  (forall x, In x l -> exists y, P x y) -> exists ys, Forall2 P l ys.
Proof.
  induction l as [|x l IH]; intros H; [exists []; constructor|].
  destruct (H x (or_introl eq_refl)) as [y Hy].
  destruct IH as [ys Hys]; [intros; apply H; now right|].
  exists (y :: ys). now constructor.
Qed.

Lemma init_lookups db minified dialect t :
  In t Database._tables ->
  exists tcols cs,
    lookup_table (SQL._tables (SQL.__init__ db minified dialect)) t = Ok tcols
    /\ lookup_table (SQL._constraints (SQL.__init__ db minified dialect)) t = Ok cs.
Proof.
  simpl. intros Ht.
  repeat (destruct Ht as [<-|Ht]; [eexists; eexists; split; reflexivity|]).
  destruct Ht.
Qed.

(** X4. A database that has its six tables, ints in the id columns and a
    string as name in every record is always rendered: [SQL.__str__] returns a
    script, under either dialect, minified or not, and the INSERT written
    for a record is [INSERT INTO t VALUES (ids, 'name');] with the ids in
    schema order and the quotes of the name escaped. *)
Theorem X4_sql_renders_well_typed_databases :
  forall (db : Database.t) (minified : bool) (dialect : string),
    well_typed db ->
    let self := SQL.__init__ db minified dialect in
    (exists out, SQL.__str__ self = Ok out)
    /\ forall t rows it,
         In t Database._tables -> Database._data db !! t = Some rows -> In it rows ->
         exists zs s,
           Forall2 (fun f z => it !! f = Some (VInt z)) (int_columns t) zs
           /\ it !! "nome" = Some (VStr s)
           /\ SQL.insert_line self t it
              = Ok ("INSERT INTO " +:+ t +:+ " VALUES ("
                    +:+ join ", "
                          (List.map str_of_int zs
                           ++ ["'" +:+ escape_quotes (SQL._escape_char self) s +:+ "'"])
                    +:+ ");" +:+ SQL.nl).
Proof.
  intros db minified dialect Hwt self.
  assert (Hline : forall t rows it,
            In t Database._tables -> Database._data db !! t = Some rows -> In it rows ->
            exists zs s,
              Forall2 (fun f z => it !! f = Some (VInt z)) (int_columns t) zs
              /\ it !! "nome" = Some (VStr s)
              /\ SQL.insert_line self t it
                 = Ok ("INSERT INTO " +:+ t +:+ " VALUES ("
                       +:+ join ", "
                             (List.map str_of_int zs
                              ++ ["'" +:+ escape_quotes (SQL._escape_char self) s
                                  +:+ "'"])
                       +:+ ");" +:+ SQL.nl)).
  { intros t rows it Ht Hrows Hit. destruct (Hwt t Ht) as (rows' & Hrows' & Hitems).
    rewrite Hrows in Hrows'. injection Hrows' as <-.
    destruct (Hitems it Hit) as (Hints & s & Hs).
    destruct (forall2_of_exists _ _ Hints) as [zs Hzs].
    exists zs, s. split; [exact Hzs|]. split; [exact Hs|].
    now apply insert_line_spec. }
  split; [|exact Hline].
  unfold SQL.__str__, SQL.pieces.
  destruct (mapM_ok (SQL.table_pieces self) Database._tables) as [pss ->];
    [|cbn [Py.bind]; eauto].
  intros t Ht. destruct (Hwt t Ht) as (rows & Hrows & _).
  destruct (init_lookups db minified dialect t Ht) as (tcols & cs & Htc & Hcs).
  fold self in Htc, Hcs.
  unfold SQL.table_pieces, getitem.
  change (BaseExporter._db (SQL.base self)) with db. rewrite Hrows. cbn [Py.bind].
  destruct rows as [|it0 rows0] eqn:Erows; [eauto|]. rewrite <- Erows in *.
  cbv iota. rewrite Htc, Hcs. cbn [Py.bind].
  destruct (mapM_ok (SQL.insert_line self t) rows) as [lines Hlines].
  { intros it Hit. destruct (Hline t rows it Ht Hrows Hit) as (zs & s & _ & _ & ->).
    eauto. }
  destruct (SQL._lazy_constraints self); cbn [Py.bind]; rewrite Hlines;
    cbn [Py.bind]; eauto.
Qed.

Lemma X4_sql_renders_well_typed_databases_witness :
  well_typed db_one_child
  /\ exists out, SQL.__str__ (SQL.__init__ db_one_child true "sqlite") = Ok out.
Proof.
  assert (H : well_typed db_one_child).
  { intros t Ht. simpl in Ht.
    repeat (destruct Ht as [<-|Ht];
            [eexists; split; [vm_compute; reflexivity|];
             intros it Hit; simpl in Hit;
             repeat (destruct Hit as [<-|Hit];
                     [split; [intros f Hf; vm_compute in Hf;
                              repeat (destruct Hf as [<-|Hf]; [vm_compute; eauto|]);
                              destruct Hf
                             |vm_compute; eauto]|]);
             destruct Hit|]).
    destruct Ht. }
  split; [exact H|].
  exact (proj1 (X4_sql_renders_well_typed_databases db_one_child true "sqlite" H)).
Defined.

(** ** The minifiers: what [re.sub] leaves *)

Lemma chars_app (a b : string) : chars (a +:+ b) = (chars a ++ chars b)%list.
Proof.
  induction a as [|c a IH]; [reflexivity|].
  rewrite append_cons. unfold chars in *. cbn [list_ascii_of_string app]. now rewrite IH.
Qed.

(** [re.sub] writes characters of the subject or of the replacement only. *)
Lemma sub_go_chars (r : Re.re) (repl : string) (s : string) :
  forall skip bef c,
    In c (chars (Re.sub_go r repl skip bef s)) -> In c (chars repl) \/ In c (chars s).
Proof.
  induction s as [|c0 s IH]; intros skip bef c; cbn [Re.sub_go].
  - intros [].
  - destruct skip as [|k].
    + destruct (Re.match_len r bef (String c0 s)) as [[|n]|].
      * cbn. intros [<-|H]; [right; now left|].
        destruct (IH _ _ _ H); [now left|right; now right].
      * rewrite chars_app. intros H. apply in_app_or in H. destruct H as [H|H];
          [now left|]. destruct (IH _ _ _ H); [now left|right; now right].
      * cbn. intros [<-|H]; [right; now left|].
        destruct (IH _ _ _ H); [now left|right; now right].
    + intros H. destruct (IH _ _ _ H); [now left|right; now right].
Qed.

Lemma run_split (p : ascii -> bool) (s : string) :
  String.length s = (run_length p s + String.length (after_run p s))%nat.
Proof.
  induction s as [|c s IH]; [reflexivity|]. cbn [run_length after_run].
  destruct (p c); cbn [String.length]; lia.
Qed.

(** A greedy repetition of a character class takes the whole run, when what
    follows cannot fail. *)
Lemma exec_star_class {R} (p : ascii -> bool)
    (k : list ascii -> string -> option R) :
  (forall b a, k b a <> None) ->
  forall aft bef,
    Re.exec (Re.Star (Re.Chr p)) bef aft k = k (run_rev p aft bef) (after_run p aft).
Proof.
  intros Hk. induction aft as [|c aft IH]; intros bef; [reflexivity|].
  cbn [Re.exec String.length run_rev after_run].
  destruct (p c) eqn:Hp.
  - assert (Hlt : (String.length aft <? S (String.length aft))%nat = true)
      by (apply Nat.ltb_lt; lia).
    rewrite Hlt.
    specialize (IH (c :: bef)). cbn [Re.exec] in IH.
    rewrite IH. destruct (k (run_rev p aft (c :: bef)) (after_run p aft)) eqn:Hres;
      [reflexivity|]. now apply Hk in Hres.
  - reflexivity.
Qed.

Lemma exec_seq_class {R} (p : ascii -> bool) (b : Re.re) (bef : list ascii)
    (c : ascii) (s : string) (k : list ascii -> string -> option R) :
  Re.exec (Re.Seq (Re.Chr p) b) bef (String c s) k
  = if p c then Re.exec b (c :: bef) s k else None.
Proof. reflexivity. Qed.

Lemma match_len_class_run (p : ascii -> bool) (bef : list ascii) (c : ascii)
    (s : string) :
  Re.match_len (Re.Plus (Re.Chr p)) bef (String c s)
  = if p c then Some (S (run_length p s)) else None.
Proof.
  unfold Re.match_len, Re.Plus. rewrite exec_seq_class. destruct (p c); [|reflexivity].
  rewrite exec_star_class by discriminate.
  f_equal. pose proof (run_split p s). cbn [String.length]. lia.
Qed.

(** Replacing every run of a class by nothing deletes the class. *)
Lemma sub_class_runs_deleted (p : ascii -> bool) (s : string) :
  forall skip bef,
    (skip <= run_length p s)%nat ->
    Re.sub_go (Re.Plus (Re.Chr p)) "" skip bef s = delete_chars p s.
Proof.
  induction s as [|c s IH]; intros skip bef Hskip; [reflexivity|].
  cbn [Re.sub_go delete_chars]. cbn [run_length] in Hskip.
  destruct skip as [|k].
  - rewrite match_len_class_run. destruct (p c).
    + rewrite append_nil_l. apply IH. lia.
    + f_equal. apply IH. lia.
  - destruct (p c); [apply IH; lia|lia].
Qed.

(** Replacing every run of a class by one character leaves no other
    character of the class. *)
Lemma sub_class_runs_replaced (p : ascii -> bool) (x : ascii) (s : string) :
  forall skip bef c,
    In c (chars (Re.sub_go (Re.Plus (Re.Chr p)) (String x "") skip bef s)) ->
    p c = true -> c = x.
Proof.
  induction s as [|c0 s IH]; intros skip bef c; cbn [Re.sub_go]; [intros []|].
  destruct skip as [|k]; [|apply IH].
  rewrite match_len_class_run. destruct (p c0) eqn:Hp.
  - cbn. intros [<-|H] Hc; [reflexivity|]. eapply IH; eauto.
  - cbn. intros [<-|H] Hc; [congruence|]. eapply IH; eauto.
Qed.

(** X5. A minified SQL script is one line: the only white space left in it
    is the blank, whatever the records hold (no newline, tab or carriage
    return, also inside the quoted values). *)
Theorem X5_minified_sql_has_only_blanks :
  forall (self : SQL.t) (out : string) (c : ascii),
    BaseExporter._minified (SQL.base self) = true ->
    SQL.__str__ self = Ok out ->
    In c (chars out) -> isspace c = true -> c = " "%char.
Proof.
  intros self out c Hmin Hout Hc Hsp. unfold SQL.__str__ in Hout.
  destruct (SQL.pieces self) as [ps|e]; cbn [Py.bind] in Hout; [|discriminate].
  rewrite Hmin in Hout. injection Hout as <-.
  unfold SQL.minify, SQL.minify_passes in Hc. cbn [fold_left fst snd] in Hc.
  unfold Re.sub in Hc.
  apply sub_go_chars in Hc. destruct Hc as [[<-|[]]|Hc]; [discriminate Hsp|].
  apply sub_go_chars in Hc. destruct Hc as [[]|Hc].
  apply sub_go_chars in Hc. destruct Hc as [[]|Hc].
  eapply (sub_class_runs_replaced isspace " "%char); eauto.
Qed.

Lemma X5_minified_sql_has_only_blanks_witness :
  exists out,
    SQL.__str__ (SQL.__init__ db_one_child true "standard") = Ok out
    /\ forall c, In c (chars out) -> isspace c = true -> c = " "%char.
Proof.
  eexists. split; [vm_compute; reflexivity|].
  intros c.
  apply (X5_minified_sql_has_only_blanks (SQL.__init__ db_one_child true "standard"));
    [reflexivity|vm_compute; reflexivity].
Defined.

(** X6. The minified property list is the plain one with every newline and
    every tab deleted (those inside the values as well) and nothing else
    changed. *)
Theorem X6_minified_plist_deletes_newlines_and_tabs :
  forall (decode_utf8 : string -> result string)
         (writePlistToString :
            list (string * list (value * list (string * value))) -> string)
         (db : Database.t) (plain : string),
    plist.__str__ decode_utf8 writePlistToString (exporter db false) = Ok plain ->
    plist.__str__ decode_utf8 writePlistToString (exporter db true)
    = Ok (delete_chars (fun c => Ascii.eqb c Re.newline || Ascii.eqb c plist.tab)
                       plain).
Proof.
  intros decode_utf8 writePlistToString db plain. unfold plist.__str__.
  change (BaseExporter.__toDict__ decode_utf8 (exporter db true) true true)
    with (BaseExporter.__toDict__ decode_utf8 (exporter db false) true true).
  destruct (BaseExporter.__toDict__ decode_utf8 (exporter db false) true true) as [d|e];
    cbn [Py.bind]; [|discriminate].
  cbn [BaseExporter._minified exporter]. intros [= <-]. f_equal.
  unfold Re.sub, plist.newlines_tabs. apply sub_class_runs_deleted. lia.
Qed.

Lemma X6_minified_plist_deletes_newlines_and_tabs_witness :
  plist.__str__ Ok sample_plist_writer (exporter db_one_child true)
  = Ok "<key>uf</key><key>mesorregiao</key>".
Proof.
  rewrite (X6_minified_plist_deletes_newlines_and_tabs Ok sample_plist_writer
             db_one_child
             (String plist.tab "<key>uf</key>" +:+ SQL.nl
              +:+ String plist.tab "<key>mesorregiao</key>" +:+ SQL.nl));
    vm_compute; reflexivity.
Defined.

(** ** [Database]: what repeated construction does to the header *)

Lemma construct_all_cols (bases : list Database.Base) (c : Database.class_store) :
  Database.cls_cols (construct_all bases c)
  = (Database.cls_cols c
     ++ List.concat (List.repeat init_cols (List.length bases)))%list.
Proof.
  revert c. induction bases as [|b bases IH]; intros c; cbn [construct_all fold_left].
  - cbn. now rewrite app_nil_r.
  - fold (construct_all bases (snd (Database.__init__ b c))). rewrite IH.
    unfold Database.__init__. cbn [snd]. rewrite init_step_cols.
    fold init_cols. cbn [List.length List.repeat List.concat].
    now rewrite <- app_assoc.
Qed.

Lemma construct_all_rows (bases : list Database.Base) (c : Database.class_store) :
  Database.cls_rows (construct_all bases c) = Database.cls_rows c.
Proof.
  revert c. induction bases as [|b bases IH]; intros c; [reflexivity|].
  cbn [construct_all fold_left].
  fold (construct_all bases (snd (Database.__init__ b c))). rewrite IH.
  unfold Database.__init__. cbn [snd]. apply init_step_rows.
Qed.

Lemma repeated_cols_length (n : nat) :
  List.length (List.concat (List.repeat init_cols n)) = (12 * n)%nat.
Proof.
  induction n as [|n IH]; [reflexivity|].
  cbn [List.repeat List.concat]. rewrite List.length_app, IH.
  change (List.length init_cols) with 12%nat. lia.
Qed.

(** X7. Every construction of a [Database] appends the twelve column names
    to the one class-level list, whatever it held: after [n] constructions in
    a program the CSV header of any instance has [12 n] columns, the twelve
    names repeated [n] times, while no row is added. *)
Theorem X7_header_grows_with_every_database :
  forall (bases : list Database.Base) (i : Database.instance),
    let c := construct_all bases Database.class_body in
    let db := Database.attrs i c in
    Database._cols db = List.concat (List.repeat init_cols (List.length bases))
    /\ List.length (Database._cols db) = (12 * List.length bases)%nat
    /\ Database._rows db = []
    /\ CSV.written_rows (exporter db false)
       = Ok [ List.map VStr
                (List.concat (List.repeat init_cols (List.length bases))) ].
Proof.
  intros bases i c db.
  assert (Hcols : Database._cols db
                  = List.concat (List.repeat init_cols (List.length bases))).
  { subst db c. cbn [Database.attrs Database._cols]. now rewrite construct_all_cols. }
  assert (Hrows : Database._rows db = []).
  { subst db c. cbn [Database.attrs Database._rows].
    rewrite construct_all_rows. reflexivity. }
  split; [exact Hcols|]. split; [|split; [exact Hrows|]].
  - rewrite Hcols. apply repeated_cols_length.
  - unfold CSV.written_rows. cbn [BaseExporter._db exporter]. rewrite Hcols, Hrows.
    assert (Hh : forall n, CSV.header_row (List.concat (List.repeat init_cols n))
                 = Ok (List.map VStr (List.concat (List.repeat init_cols n)))).
    { induction n as [|n IH]; [reflexivity|].
      cbn [List.repeat List.concat]. unfold CSV.header_row in *.
      assert (Happ : forall a b ya yb,
                mapM (fun col => Py.bind (encode_utf8 col) (fun b0 => Ok (VStr b0))) a = Ok ya ->
                mapM (fun col => Py.bind (encode_utf8 col) (fun b0 => Ok (VStr b0))) b = Ok yb ->
                mapM (fun col => Py.bind (encode_utf8 col) (fun b0 => Ok (VStr b0))) (a ++ b)
                = Ok (ya ++ yb)%list).
      { induction a as [|x a IHa]; intros b ya yb; cbn [mapM app].
        - intros [= <-] Hb. exact Hb.
        - destruct (encode_utf8 x); cbn [Py.bind]; [|discriminate].
          destruct (mapM _ a) eqn:Ha; cbn [Py.bind]; [|discriminate].
          intros [= <-] Hb. now rewrite (IHa b _ yb eq_refl Hb). }
      rewrite List.map_app. apply Happ; [vm_compute; reflexivity|exact IH]. }
    rewrite Hh. reflexivity.
Qed.

(** ** [CSV]: header and rows *)

Lemma header_row_ascii (cols : list string) :
  List.forallb isascii cols = true ->
  CSV.header_row cols = Ok (List.map VStr cols).
Proof.
  unfold CSV.header_row. induction cols as [|c cols IH]; cbn [List.forallb mapM];
    [reflexivity|].
  intros H. apply andb_prop in H. destruct H as [Hc Hcols].
  unfold encode_utf8 at 1. rewrite Hc. cbn [Py.bind]. rewrite (IH Hcols). reflexivity.
Qed.

Lemma header_row_not_ascii (cols : list string) :
  List.forallb isascii cols = false ->
  CSV.header_row cols
  = Err (UnicodeDecodeError "'ascii' codec can't decode byte").
Proof.
  unfold CSV.header_row. induction cols as [|c cols IH]; cbn [List.forallb mapM];
    [discriminate|].
  unfold encode_utf8 at 1. destruct (isascii c); cbn [andb Py.bind]; [|reflexivity].
  intros H. now rewrite (IH H).
Qed.

Section CsvText.
Variable writerow : CSV.quoting -> list value -> string.

(** X8. The CSV export writes the header and then one row per data row, in
    order, with [QUOTE_MINIMAL] when minified and [QUOTE_NONNUMERIC]
    otherwise; it returns iff every column name is ASCII, and raises
    [UnicodeDecodeError] before anything is written otherwise. *)
Theorem X8_csv_header_then_one_row_per_record :
  forall (self : BaseExporter.t),
    let db := BaseExporter._db self in
    let q := if BaseExporter._minified self then CSV.QUOTE_MINIMAL
             else CSV.QUOTE_NONNUMERIC in
    (List.forallb isascii (Database._cols db) = true ->
     CSV.__str__ writerow self
     = Ok (writerow q (List.map VStr (Database._cols db))
           +:+ concat_all (List.map (fun row => writerow q (List.filter truthy row))
                                    (Database._rows db)))
     /\ exists rows, CSV.written_rows self = Ok rows
                     /\ List.length rows = S (List.length (Database._rows db)))
    /\ (List.forallb isascii (Database._cols db) = false ->
        CSV.__str__ writerow self
        = Err (UnicodeDecodeError "'ascii' codec can't decode byte")).
Proof.
  intros self db q. unfold CSV.__str__, CSV.written_rows. fold db. split.
  - intros H. rewrite (header_row_ascii _ H). cbn [Py.bind]. split.
    + f_equal. cbn [List.map concat_all]. unfold CSV.quoting_of. fold q. f_equal.
      rewrite List.map_map. f_equal. apply List.map_ext. intros row.
      now rewrite data_row_filter.
    + eexists. split; [reflexivity|]. cbn [List.length]. now rewrite List.length_map.
  - intros H. rewrite (header_row_not_ascii _ H). reflexivity.
Qed.
End CsvText.

Lemma X8_csv_header_then_one_row_per_record_witness :
  (exists rows, CSV.written_rows (exporter db_falsy_row true) = Ok rows
                /\ List.length rows = 2%nat)
  /\ CSV.__str__ (fun _ row => "") (exporter db_latin_column true)
     = Err (UnicodeDecodeError "'ascii' codec can't decode byte").
Proof.
  destruct (X8_csv_header_then_one_row_per_record (fun _ row => "")
              (exporter db_falsy_row true)) as [Hok _].
  destruct (X8_csv_header_then_one_row_per_record (fun _ row => "")
              (exporter db_latin_column true)) as [_ Herr].
  split.
  - destruct (Hok eq_refl) as (_ & rows & Hr & Hlen). exists rows. auto.
  - apply Herr. reflexivity.
Defined.

(** ** [DTB.export_db]: what is written, and when *)

Section ExportRuns.
Variable parsers : list (string * (Database.t -> result Database.t)).
Variable exporters : list (string * DTB.Exporter).


End ExportRuns.



(** ** Serializers: the records and their shape *)

Lemma od_get_set {V} (d : list (string * V)) (k k' : string) (v : V) :
  od_get String.eqb (od_set String.eqb d k v) k'
  = if String.eqb k k' then Some v else od_get String.eqb d k'.
Proof.
  unfold od_get. induction d as [|[k0 v0] d IH]; cbn [od_set List.find fst].
  - destruct (String.eqb k k'); reflexivity.
  - destruct (String.eqb_spec k0 k) as [->|Hne]; cbn [List.find fst].
    + destruct (String.eqb k k'); reflexivity.
    + destruct (String.eqb_spec k0 k') as [->|Hne'].
      * destruct (String.eqb_spec k k'); [congruence|reflexivity].
      * exact IH.
Qed.

Section Records.
Variable row : Type.
Variable Entities : list Serializers.Entity.
Variable loadAll : list row.
Variable getattr : row -> string -> list row.

Let tables_filled := @records_filled row loadAll getattr.

Lemma records_step_filled recs e :
  tables_filled recs ->
  exists recs', Serializers.records_step row getattr recs e = Ok recs'
    /\ tables_filled recs'
    /\ od_get String.eqb recs' (Serializers.table_name e)
       = Some (records_for loadAll getattr (Serializers.table_name e))
    /\ forall k, od_get String.eqb recs k <> None -> od_get String.eqb recs' k <> None.
Proof.
  intros [Hs Hall]. unfold Serializers.records_step.
  destruct (od_get String.eqb recs (Serializers.table_name e)) as [l|] eqn:He.
  - exists recs. split; [reflexivity|]. split; [split; assumption|].
    split; [now rewrite He, (Hall _ _ He)|auto].
  - rewrite Hs. eexists. split; [reflexivity|].
    assert (Hne : String.eqb (Serializers.table_name e) "states" = false).
    { destruct (String.eqb_spec (Serializers.table_name e) "states") as [E|]; [|reflexivity].
      rewrite E in He. congruence. }
    split; [split|split].
    + rewrite od_get_set, Hne. exact Hs.
    + intros k v. rewrite od_get_set.
      destruct (String.eqb_spec (Serializers.table_name e) k) as [<-|_]; [|apply Hall].
      intros [= <-]. unfold records_for. now rewrite Hne.
    + rewrite od_get_set, String.eqb_refl. unfold records_for. now rewrite Hne.
    + intros k Hk. rewrite od_get_set.
      destruct (String.eqb (Serializers.table_name e) k); [discriminate|exact Hk].
Qed.

Lemma records_fold_filled es :
  forall recs, tables_filled recs ->
  exists recs', foldM (Serializers.records_step row getattr) recs es = Ok recs'
    /\ tables_filled recs'
    /\ (forall e, In e es ->
          od_get String.eqb recs' (Serializers.table_name e)
          = Some (records_for loadAll getattr (Serializers.table_name e))).
Proof.
  induction es as [|e es IH]; intros recs Hf; cbn [foldM].
  - exists recs. split; [reflexivity|]. split; [exact Hf|]. intros e [].
  - destruct (records_step_filled recs e Hf) as (r1 & -> & Hf1 & He & _).
    cbn [Py.bind]. destruct (IH r1 Hf1) as (r2 & Hfold & Hf2 & Hall).
    rewrite Hfold. exists r2. split; [reflexivity|]. split; [exact Hf2|].
    intros e' [<-|He']; [|now apply Hall].
    destruct Hf2 as [_ Hv]. destruct (od_get String.eqb r2 (Serializers.table_name e))
      as [v|] eqn:Hr2.
    + now rewrite (Hv _ _ Hr2).
    + exfalso.
      assert (Hkeep : forall es' ra rb,
                foldM (Serializers.records_step row getattr) ra es' = Ok rb ->
                forall k, od_get String.eqb ra k <> None -> od_get String.eqb rb k <> None).
      { clear. induction es' as [|x es' IHe]; intros ra rb; cbn [foldM].
        - intros [= <-]. auto.
        - unfold Serializers.records_step at 1.
          destruct (od_get String.eqb ra (Serializers.table_name x)) eqn:Hx;
            cbn [Py.bind].
          + apply IHe.
          + destruct (od_get String.eqb ra "states"); cbn [Py.bind]; [|discriminate].
            intros Hfold k Hk. eapply IHe; [exact Hfold|].
            rewrite od_get_set. destruct (String.eqb (Serializers.table_name x) k);
              [discriminate|exact Hk]. }
      eapply Hkeep; [exact Hfold| |exact Hr2]. rewrite He. discriminate.
Qed.

Lemma records_loaded :
  forall (A : Type) (self : Serializers.obj row A),
    Serializers.cached_records self = None ->
    exists recs self',
      Serializers.__records__ row Entities loadAll getattr self = (Ok recs, self')
      /\ od_get String.eqb recs "states" = Some loadAll
      /\ (forall e, In e Entities ->
            od_get String.eqb recs (Serializers.table_name e)
            = Some (records_for loadAll getattr (Serializers.table_name e)))
      /\ Serializers.cached_records self' = Some recs
      /\ Serializers.loads self' = S (Serializers.loads self)
      /\ Serializers.runs self' = Serializers.runs self.
Proof.
  intros A self Hnone.
  unfold Serializers.__records__, Serializers.cachedmethod, Serializers.records_body.
  rewrite Hnone.
  destruct (records_fold_filled Entities [("states", loadAll)]) as (recs & -> & Hf & Hall).
  { split; [reflexivity|]. intros k v. unfold od_get. cbn [List.find fst].
    destruct (String.eqb_spec "states" k) as [<-|_]; [|discriminate].
    cbn. intros [= <-]. reflexivity. }
  eexists. eexists. split; [reflexivity|]. destruct Hf as [Hs _].
  repeat split; assumption.
Qed.

(** X11. [__records__] on an instance without cache loads the dataset once
    and returns a map that holds, under [states], the states as loaded, and
    under the name of every entity the records of that table: the states
    themselves or the descendants of every state, in state order; the map is
    cached on the instance. *)
Theorem X11_records_by_table :
  forall (A : Type) (self : Serializers.obj row A),
    Serializers.cached_records self = None ->
    exists recs self',
      Serializers.__records__ row Entities loadAll getattr self = (Ok recs, self')
      /\ od_get String.eqb recs "states" = Some loadAll
      /\ (forall e, In e Entities ->
            od_get String.eqb recs (Serializers.table_name e)
            = Some (records_for loadAll getattr (Serializers.table_name e)))
      /\ Serializers.cached_records self' = Some recs
      /\ Serializers.loads self' = S (Serializers.loads self)
      /\ Serializers.runs self' = Serializers.runs self.
Proof. exact records_loaded. Qed.
End Records.

Lemma X11_records_by_table_witness :
  exists recs self',
    Serializers.__records__ Z sample_entities [11; 12] sample_getattr
      (fresh_serializer unit) = (Ok recs, self')
    /\ od_get String.eqb recs "mesoregions" = Some [1102; 1101]
    /\ Serializers.loads self' = 1%nat.
Proof.
  destruct (X11_records_by_table Z sample_entities [11; 12] sample_getattr unit
              (fresh_serializer unit) eq_refl)
    as (recs & self' & Hr & _ & Hall & _ & Hloads & _).
  exists recs, self'. split; [exact Hr|]. split; [|exact Hloads].
  apply (Hall {| Serializers.table_name := "mesoregions";
                 Serializers.columns := ["id"; "state_id"; "name"] |}).
  simpl. auto.
Defined.

Section SerializerTables.
Variable row : Type.
Variable Entities : list Serializers.Entity.
Variable loadAll : list row.
Variable getattr : row -> string -> list row.
Variable serialize_row : row -> list (string * value).
Variable gettext : string -> string.

Lemma records_of_filled {A} (self : Serializers.obj row A) (e : Serializers.Entity) :
  cache_filled Entities loadAll getattr self -> In e Entities ->
  exists self',
    Serializers.records_of row Entities loadAll getattr
      (Serializers.table_name e) self
    = (Ok (records_for loadAll getattr (Serializers.table_name e)), self')
    /\ cache_filled Entities loadAll getattr self'
    /\ Serializers.cached_records self' <> None
    /\ Serializers._options self' = Serializers._options self
    /\ Serializers.loads self'
       = match Serializers.cached_records self with
         | Some _ => Serializers.loads self
         | None => S (Serializers.loads self)
         end.
Proof.
  intros Hc He. unfold Serializers.records_of.
  destruct (Serializers.cached_records self) as [recs|] eqn:Hcache.
  - unfold Serializers.__records__, Serializers.cachedmethod. rewrite Hcache.
    unfold cache_filled in Hc. rewrite Hcache in Hc. rewrite (Hc e He).
    exists self. split; [reflexivity|]. split; [unfold cache_filled; now rewrite Hcache|].
    split; [now rewrite Hcache|]. auto.
  - destruct (records_loaded row Entities loadAll getattr A self Hcache)
      as (recs & self' & Hrec & _ & Hall & Hcached & Hloads & _).
    rewrite Hrec, (Hall e He). exists self'. split; [reflexivity|].
    split; [unfold cache_filled; now rewrite Hcached|].
    split; [now rewrite Hcached|]. split; [|exact Hloads].
    eapply records_runs, Hrec.
Qed.

Let loop {A} := @Serializers.serialize_loop row Entities loadAll getattr serialize_row
                   gettext A.
Let ne := has_rows loadAll getattr.

Lemma loop_loads {A} es :
  (forall e, In e es -> In e Entities) ->
  forall acc (self self' : Serializers.obj row A) r,
    cache_filled Entities loadAll getattr self ->
    loop es acc self = (r, self') ->
    Serializers.loads self'
    = match Serializers.cached_records self, es with
      | None, _ :: _ => S (Serializers.loads self)
      | _, _ => Serializers.loads self
      end.
Proof.
  unfold loop. induction es as [|e es IH]; intros Hsub acc self self' r Hc;
    cbn [Serializers.serialize_loop].
  - intros [= <- <-]. now destruct (Serializers.cached_records self).
  - destruct (records_of_filled self e Hc (Hsub e (or_introl eq_refl)))
      as (s1 & -> & Hc1 & Hsome & _ & Hloads).
    assert (Hrest : forall acc' r' s', Serializers.serialize_loop row Entities loadAll
              getattr serialize_row gettext es acc' s1 = (r', s') ->
              Serializers.loads s' = Serializers.loads s1).
    { intros acc' r' s' H. rewrite (IH (fun x Hx => Hsub x (or_intror Hx)) _ _ _ _ Hc1 H).
      destruct (Serializers.cached_records s1); [reflexivity|congruence]. }
    assert (Hgoal : Serializers.loads s1
                    = match Serializers.cached_records self with
                      | Some _ => Serializers.loads self
                      | None => S (Serializers.loads self)
                      end) by exact Hloads.
    destruct (records_for loadAll getattr (Serializers.table_name e)) as [|x l].
    + intros H. rewrite (Hrest _ _ _ H), Hgoal.
      now destruct (Serializers.cached_records self).
    + destruct (mapM _ _) as [rs|err].
      * intros H. rewrite (Hrest _ _ _ H), Hgoal.
        now destruct (Serializers.cached_records self).
      * intros [= <- <-]. rewrite Hgoal.
        now destruct (Serializers.cached_records self).
Qed.

(** X12. However many tables it serializes, [Serializer.serialize] loads
    the dataset at most once: on an instance without caches a call (whether
    it returns or raises) leaves the load count one higher, or unchanged
    when the schema has no entity. *)
Theorem X12_serialize_loads_dataset_once :
  forall (self self1 : Serializers.obj row _) r,
    Serializers.cached_serialize self = None ->
    Serializers.cached_records self = None ->
    Serializers.Serializer_serialize row Entities loadAll getattr serialize_row
      gettext self = (r, self1) ->
    Serializers.loads self1
    = match Entities with
      | [] => Serializers.loads self
      | _ :: _ => S (Serializers.loads self)
      end.
Proof.
  intros self self1 r Hs Hr. unfold Serializers.Serializer_serialize,
    Serializers.cachedmethod. rewrite Hs.
  assert (Hc : cache_filled Entities loadAll getattr (Serializers.count_run row self)).
  { unfold cache_filled. cbn [Serializers.count_run Serializers.cached_records].
    now rewrite Hr. }
  destruct (Serializers.serialize_loop _ _ _ _ _ _ _ _ _) as [[r0|e] s'] eqn:Hl;
    intros [= <- <-];
    pose proof (loop_loads Entities (fun e H => H) [] (Serializers.count_run row self)
                  s' _ Hc Hl) as H;
    cbn [Serializers.count_run Serializers.cached_records Serializers.loads] in H;
    rewrite Hr in H; exact H.
Qed.

Lemma loop_tables {A} es :
  (forall e, In e es -> In e Entities) ->
  forall acc (self self' : Serializers.obj row A) r,
    cache_filled Entities loadAll getattr self ->
    loop es acc self = (Ok r, self') ->
    forall lab,
    lab = (fun e => label (Serializers._options self) gettext
                      (Serializers.table_name e)) ->
    List.NoDup (List.map fst acc ++ List.map lab (List.filter ne es)) ->
    List.map fst r = (List.map fst acc ++ List.map lab (List.filter ne es))%list
    /\ (forall k v, od_get String.eqb acc k = Some v ->
          ~ In k (List.map lab (List.filter ne es)) -> od_get String.eqb r k = Some v)
    /\ (forall e, In e es -> ne e = true ->
          exists rs, od_get String.eqb r (lab e) = Some rs
            /\ mapM (Serializers.serialize_record row serialize_row gettext
                       (Serializers._options self) e)
                    (records_for loadAll getattr (Serializers.table_name e)) = Ok rs).
Proof.
  unfold loop. induction es as [|e es IH]; intros Hsub acc self self' r Hc;
    cbn [Serializers.serialize_loop].
  - intros [= <- <-] lab _ _. cbn. rewrite app_nil_r. split; [reflexivity|].
    split; [auto|]. intros e [].
  - destruct (records_of_filled self e Hc (Hsub e (or_introl eq_refl)))
      as (s1 & -> & Hc1 & _ & Hopt & _).
    intros Hloop lab Hdef.
    assert (Hlab : forall x, label (Serializers._options s1) gettext
                     (Serializers.table_name x) = lab x).
    { intros x. rewrite Hdef. now rewrite Hopt. }
    assert (Hdef1 : lab = (fun e0 => label (Serializers._options s1) gettext
                                       (Serializers.table_name e0))).
    { rewrite Hdef. now rewrite Hopt. }
    destruct (records_for loadAll getattr (Serializers.table_name e)) as [|x l] eqn:Hrows.
    + assert (Hno : ne e = false) by (unfold ne, has_rows; now rewrite Hrows).
      cbn [List.filter]. rewrite Hno. intros Hnd.
      destruct (IH (fun y Hy => Hsub y (or_intror Hy)) _ _ _ _ Hc1 Hloop lab Hdef1 Hnd)
        as (Hk & Hkeep & Hall).
      split; [exact Hk|]. split; [exact Hkeep|].
      intros e' [<-|He'] Hne.
      { unfold ne, has_rows in Hne. now rewrite Hrows in Hne. }
      destruct (Hall e' He' Hne) as (rs & Hget & Hm). exists rs.
      rewrite <- Hopt. auto.
    + assert (Hyes : ne e = true) by (unfold ne, has_rows; now rewrite Hrows).
      rewrite <- Hrows in *. rewrite Hopt in Hloop.
      destruct (mapM _ _) as [rs|err] eqn:Hm; [|discriminate].
      cbn [List.filter]. rewrite Hyes. cbn [List.map]. intros Hnd.
      fold (label (Serializers._options self) gettext (Serializers.table_name e)) in Hloop.
      replace (label (Serializers._options self) gettext (Serializers.table_name e))
        with (lab e) in Hloop by now rewrite Hdef.
      assert (Hfresh : ~ In (lab e) (List.map fst acc)).
      { intros Hin. apply List.NoDup_remove_2 in Hnd. apply Hnd.
        apply in_or_app. now left. }
      destruct (IH (fun y Hy => Hsub y (or_intror Hy)) _ _ _ _ Hc1 Hloop lab Hdef1)
        as (Hk & Hkeep & Hall).
      { rewrite od_set_keys_fresh by exact Hfresh. rewrite <- app_assoc. exact Hnd. }
      assert (Hlater : ~ In (lab e) (List.map lab (List.filter ne es))).
      { intros Hin. apply List.NoDup_remove_2 in Hnd. apply Hnd.
        apply in_or_app. now right. }
      split; [rewrite Hk, od_set_keys_fresh by exact Hfresh;
              now rewrite <- app_assoc|].
      split.
      * intros k v Hacc Hn. apply Hkeep.
        -- rewrite od_get_set. destruct (String.eqb_spec (lab e) k) as [<-|_];
             [|exact Hacc]. exfalso. apply Hn. now left.
        -- intros Hin. apply Hn. now right.
      * intros e' [<-|He'] Hne.
        { exists rs. split; [|exact Hm]. apply Hkeep; [|exact Hlater].
          now rewrite od_get_set, String.eqb_refl. }
        destruct (Hall e' He' Hne) as (rs' & Hget & Hm'). exists rs'.
        rewrite <- Hopt. auto.
Qed.

(** X13. [Serializer.serialize] returns one table per entity that has
    records, in schema order and under its (localized) name, and leaves out
    the entities without records; the table of an entity holds one
    serialized record per record of the entity, in order. This is for an
    instance without caches and table names that stay distinct once
    localized. *)
Theorem X13_serialize_one_table_per_nonempty_entity :
  forall (self self1 : Serializers.obj row _) r,
    Serializers.cached_serialize self = None ->
    Serializers.cached_records self = None ->
    Serializers.Serializer_serialize row Entities loadAll getattr serialize_row
      gettext self = (Ok r, self1) ->
    let lab e := label (Serializers._options self) gettext (Serializers.table_name e) in
    List.NoDup (List.map lab (List.filter (has_rows loadAll getattr) Entities)) ->
    List.map fst r = List.map lab (List.filter (has_rows loadAll getattr) Entities)
    /\ (forall e, In e Entities -> has_rows loadAll getattr e = true ->
          exists rs,
            od_get String.eqb r (lab e) = Some rs
            /\ mapM (Serializers.serialize_record row serialize_row gettext
                       (Serializers._options self) e)
                    (records_for loadAll getattr (Serializers.table_name e)) = Ok rs
            /\ List.length rs
               = List.length (records_for loadAll getattr (Serializers.table_name e))).
Proof.
  intros self self1 r Hs Hr. unfold Serializers.Serializer_serialize,
    Serializers.cachedmethod. rewrite Hs.
  assert (Hc : cache_filled Entities loadAll getattr (Serializers.count_run row self)).
  { unfold cache_filled. cbn [Serializers.count_run Serializers.cached_records].
    now rewrite Hr. }
  destruct (Serializers.serialize_loop _ _ _ _ _ _ _ _ _) as [[r0|e] s'] eqn:Hl;
    [|discriminate].
  intros [= <- <-] Hnd.
  destruct (loop_tables Entities (fun e H => H) [] (Serializers.count_run row self)
              s' _ Hc Hl _ eq_refl Hnd) as (Hk & _ & Hall).
  split; [exact Hk|]. intros e He Hne. destruct (Hall e He Hne) as (rs & Hget & Hm).
  exists rs. split; [exact Hget|]. split; [exact Hm|]. eapply mapM_length, Hm.
Qed.
End SerializerTables.

Lemma X12_serialize_loads_dataset_once_witness :
  let out := Serializers.Serializer_serialize Z sample_entities [11; 12]
               sample_getattr sample_serialize_row (fun s => s)
               (fresh_serializer _) in
  Serializers.loads (snd out) = 1%nat.
Proof.
  intros out.
  apply (X12_serialize_loads_dataset_once Z sample_entities [11; 12] sample_getattr
           sample_serialize_row (fun s => s) (fresh_serializer _) (snd out) (fst out)
           eq_refl eq_refl).
  apply surjective_pairing.
Defined.

Lemma X13_serialize_one_table_per_nonempty_entity_witness :
  exists r self1,
    Serializers.Serializer_serialize Z sample_entities [11; 12] sample_getattr
      sample_serialize_row (fun s => s) (fresh_serializer _) = (Ok r, self1)
    /\ List.map fst r = ["states"; "mesoregions"]
    /\ exists rs, od_get String.eqb r "mesoregions" = Some rs /\ List.length rs = 2%nat.
Proof.
  eexists. eexists. split; [reflexivity|].
  match goal with |- List.map fst ?r = _ /\ _ =>
    destruct (X13_serialize_one_table_per_nonempty_entity Z sample_entities [11; 12]
                sample_getattr sample_serialize_row (fun s => s) (fresh_serializer _)
                _ r eq_refl eq_refl eq_refl) as (Hk & Hall)
  end.
  - vm_compute. repeat constructor; simpl; intuition discriminate.
  - split; [exact Hk|].
    destruct (Hall {| Serializers.table_name := "mesoregions";
                      Serializers.columns := ["id"; "state_id"; "name"] |})
      as (rs & Hget & _ & Hlen).
    + simpl. auto.
    + reflexivity.
    + exists rs. split; [exact Hget|exact Hlen].
Defined.

Section RecordShape.
Variable row : Type.
Variable serialize_row : row -> list (string * value).
Variable gettext : string -> string.

Lemma record_fold (o : Serializers.options) (_record : list (string * value))
    (cols : list string) :
  forall acc,
    (forall c, In c cols -> exists v, od_get String.eqb _record c = Some v) ->
    List.NoDup (List.map fst acc ++ List.map (label o gettext) cols) ->
    exists rest,
      foldM (fun record column =>
               match od_get String.eqb _record column with
               | None => Err (KeyError column)
               | Some value =>
                   let column := if Serializers.localize o then gettext column
                                 else column in
                   Ok (od_set String.eqb record column
                         (if Serializers.forceStr o then VStr (str value) else value))
               end) acc cols = Ok (acc ++ rest)%list
      /\ List.Forall2 (column_item o gettext _record) cols rest.
Proof.
  induction cols as [|c cols IH]; intros acc Hall Hnd; cbn [foldM].
  - exists []. rewrite app_nil_r. split; [reflexivity|constructor].
  - destruct (Hall c (or_introl eq_refl)) as [v Hv]. rewrite Hv. cbn [Py.bind].
    cbn [List.map] in Hnd.
    assert (Hfresh : ~ In (label o gettext c) (List.map fst acc)).
    { intros Hin. apply List.NoDup_remove_2 in Hnd. apply Hnd, in_or_app. now left. }
    destruct (IH (od_set String.eqb acc (label o gettext c) (written o v)))
      as (rest & Hfold & Hrest).
    + intros c' Hc'. apply Hall. now right.
    + rewrite od_set_keys_fresh by exact Hfresh. rewrite <- app_assoc. exact Hnd.
    + exists ((label o gettext c, written o v) :: rest). split.
      * unfold label, written in Hfold. rewrite Hfold. f_equal.
        assert (Hset : forall (d : list (string * value)) k w,
                  ~ In k (List.map fst d) ->
                  od_set String.eqb d k w = (d ++ [(k, w)])%list).
        { induction d as [|[k0 w0] d IHd]; intros k w Hk; cbn [od_set app].
          - reflexivity.
          - destruct (String.eqb_spec k0 k) as [->|_].
            + exfalso. apply Hk. now left.
            + f_equal. apply IHd. intros Hin. apply Hk. now right. }
        fold (label o gettext c). fold (written o v).
        rewrite Hset by exact Hfresh. now rewrite <- app_assoc.
      * constructor; [|exact Hrest]. split; [reflexivity|]. exists v. auto.
Qed.

(** X14. A serialized record has exactly the columns of its entity, in
    schema order, whatever else [record.serialize()] returns and in whatever
    order: each column under its (localized) name with the record's value
    for it, turned into a string under [forceStr]. This is for a record
    that has every column and column names that stay distinct once
    localized. *)
Theorem X14_record_has_the_entity_columns :
  forall (o : Serializers.options) (e : Serializers.Entity) (r : row),
    (forall c, In c (Serializers.columns e) ->
       exists v, od_get String.eqb (serialize_row r) c = Some v) ->
    List.NoDup (List.map (label o gettext) (Serializers.columns e)) ->
    exists record,
      Serializers.serialize_record row serialize_row gettext o e r = Ok record
      /\ List.Forall2 (column_item o gettext (serialize_row r))
           (Serializers.columns e) record.
Proof.
  intros o e r Hall Hnd. unfold Serializers.serialize_record.
  destruct (record_fold o (serialize_row r) (Serializers.columns e) [] Hall Hnd)
    as (rest & Hfold & Hrest).
  exists rest. split; [exact Hfold|exact Hrest].
Qed.

Lemma record_fold_missing (o : Serializers.options) (_record : list (string * value))
    (pre : list string) (c : string) (post : list string) :
  forall acc,
    (forall c', In c' pre -> exists v, od_get String.eqb _record c' = Some v) ->
    od_get String.eqb _record c = None ->
    foldM (fun record column =>
             match od_get String.eqb _record column with
             | None => Err (KeyError column)
             | Some value =>
                 let column := if Serializers.localize o then gettext column
                               else column in
                 Ok (od_set String.eqb record column
                       (if Serializers.forceStr o then VStr (str value) else value))
             end) acc (pre ++ c :: post)%list = Err (KeyError c).
Proof.
  induction pre as [|c0 pre IH]; intros acc Hpre Hc; cbn [foldM app].
  - now rewrite Hc.
  - destruct (Hpre c0 (or_introl eq_refl)) as [v ->]. cbn [Py.bind].
    apply IH; [|exact Hc]. intros c' Hc'. apply Hpre. now right.
Qed.

(** X15. A record that lacks a column of its entity is not serialized:
    [KeyError] is raised for the first column, in schema order, that
    [record.serialize()] does not have. *)
Theorem X15_missing_column_raises_key_error :
  forall (o : Serializers.options) (e : Serializers.Entity) (r : row) pre c post,
    Serializers.columns e = (pre ++ c :: post)%list ->
    (forall c', In c' pre -> exists v, od_get String.eqb (serialize_row r) c' = Some v) ->
    od_get String.eqb (serialize_row r) c = None ->
    Serializers.serialize_record row serialize_row gettext o e r = Err (KeyError c).
Proof.
  intros o e r pre c post Hcols Hpre Hc. unfold Serializers.serialize_record.
  rewrite Hcols. now apply record_fold_missing.
Qed.
End RecordShape.

Lemma X14_record_has_the_entity_columns_witness :
  exists record,
    Serializers.serialize_record Z sample_serialize_row (fun s => s)
      {| Serializers.localize := false; Serializers.forceStr := true |}
      {| Serializers.table_name := "mesoregions";
         Serializers.columns := ["name"; "id"] |} 1101 = Ok record
    /\ List.map fst record = ["name"; "id"].
Proof.
  destruct (X14_record_has_the_entity_columns Z sample_serialize_row (fun s => s)
              {| Serializers.localize := false; Serializers.forceStr := true |}
              {| Serializers.table_name := "mesoregions";
                 Serializers.columns := ["name"; "id"] |} 1101)
    as (record & Hrec & Hcols).
  - intros c [<-|[<-|[]]]; eexists; reflexivity.
  - vm_compute. repeat constructor; simpl; intuition discriminate.
  - exists record. split; [exact Hrec|].
    inversion Hcols as [|c1 kv1 l1 rest1 [H1 _] Hcols1]; subst.
    inversion Hcols1 as [|c2 kv2 l2 rest2 [H2 _] Hcols2]; subst.
    inversion Hcols2; subst. cbn [List.map]. now rewrite H1, H2.
Defined.

Lemma X15_missing_column_raises_key_error_witness :
  Serializers.serialize_record Z sample_serialize_row (fun s => s)
    {| Serializers.localize := false; Serializers.forceStr := false |}
    {| Serializers.table_name := "states";
       Serializers.columns := ["id"; "state_id"; "name"] |} 11
  = Err (KeyError "state_id").
Proof.
  apply (X15_missing_column_raises_key_error Z sample_serialize_row (fun s => s) _
           {| Serializers.table_name := "states";
              Serializers.columns := ["id"; "state_id"; "name"] |} 11
           ["id"] "state_id" ["name"] eq_refl).
  - intros c' [<-|[]]. eexists; reflexivity.
  - reflexivity.
Defined.

Section FlattenedRecords.
Variable row : Type.
Variable Entities : list Serializers.Entity.
Variable loadAll : list row.
Variable getattr : row -> string -> list row.
Variable serialize_row_flat : row -> list (string * value).
Variable gettext : string -> string.

Lemma flatten_loop_collects {A} es :
  (forall e, In e es -> In e Entities) ->
  forall acc (self self' : Serializers.obj row A) r,
    cache_filled Entities loadAll getattr self ->
    Serializers.flatten_loop row Entities loadAll getattr serialize_row_flat gettext
      es acc self = (r, self') ->
    r = Ok (acc ++ flattened_records es loadAll getattr serialize_row_flat gettext)%list.
Proof.
  induction es as [|e es IH]; intros Hsub acc self self' r Hc;
    cbn [Serializers.flatten_loop].
  - intros [= <- <-]. unfold flattened_records. cbn. now rewrite app_nil_r.
  - destruct (records_of_filled row Entities loadAll getattr self e Hc
                (Hsub e (or_introl eq_refl))) as (s1 & -> & Hc1 & _).
    intros Hloop.
    rewrite (IH (fun x Hx => Hsub x (or_intror Hx)) _ _ _ _ Hc1 Hloop).
    unfold flattened_records. cbn [List.flat_map]. now rewrite <- app_assoc.
Qed.

(** X16. The flattened serialization holds every record of the dataset
    once: on an instance without caches, when the ids are numeric, it
    returns a rearrangement of the flattened records of all tables (so as
    many records as the dataset has), and stores that list on the
    instance. *)
Theorem X16_flattened_holds_every_record_once :
  forall (self : Serializers.obj row (list (list (string * value)))),
    Serializers.cached_serialize self = None ->
    Serializers.cached_records self = None ->
    List.Forall ids_numeric
      (flattened_records Entities loadAll getattr serialize_row_flat gettext) ->
    exists out self1,
      Serializers.FlattenedSerializer_serialize row Entities loadAll getattr
        serialize_row_flat gettext self = (Ok out, self1)
      /\ Permutation
           (flattened_records Entities loadAll getattr serialize_row_flat gettext) out
      /\ List.length out
         = List.length
             (flattened_records Entities loadAll getattr serialize_row_flat gettext)
      /\ Serializers.cached_serialize self1 = Some out.
Proof.
  intros self Hs Hr Hnum.
  unfold Serializers.FlattenedSerializer_serialize, Serializers.cachedmethod.
  rewrite Hs. unfold Serializers.flattened_body.
  assert (Hc : cache_filled Entities loadAll getattr (Serializers.count_run row self)).
  { unfold cache_filled. cbn [Serializers.count_run Serializers.cached_records].
    now rewrite Hr. }
  destruct (Serializers.flatten_loop _ _ _ _ _ _ _ _ _) as [r s'] eqn:Hl.
  pose proof (flatten_loop_collects Entities (fun e H => H) []
                (Serializers.count_run row self) s' r Hc Hl) as ->.
  cbn [app]. rewrite (sort_numeric _ Hnum).
  destruct (key_sort_from
              (flattened_records Entities loadAll getattr serialize_row_flat gettext)
              [] (SSorted_nil _)) as (_ & Hp & _).
  eexists. eexists. split; [reflexivity|]. cbn [app] in Hp.
  split; [exact Hp|]. split; [symmetry; apply Permutation_length, Hp|reflexivity].
Qed.
End FlattenedRecords.

Lemma X16_flattened_holds_every_record_once_witness :
  exists out self1,
    Serializers.FlattenedSerializer_serialize Z sample_entities [11; 12]
      sample_getattr sample_serialize_row_flat (fun s => s) (fresh_serializer _)
    = (Ok out, self1)
    /\ List.length out = 4%nat.
Proof.
  destruct (X16_flattened_holds_every_record_once Z sample_entities [11; 12]
              sample_getattr sample_serialize_row_flat (fun s => s)
              (fresh_serializer _) eq_refl eq_refl)
    as (out & self1 & Hout & _ & Hlen & _).
  - match goal with
    | |- List.Forall _ ?l => let l' := eval vm_compute in l in change l with l'
    end.
    repeat first [apply List.Forall_nil | apply List.Forall_cons];
      intros k Hk; simpl in Hk;
      repeat (destruct Hk as [<-|Hk]; [vm_compute; eauto|]); destruct Hk.
  - exists out, self1. split; [exact Hout|]. rewrite Hlen. reflexivity.
Defined.

Lemma value_eqb_eq (a b : value) : value_eqb a b = true <-> a = b.
Proof.
  destruct a as [|x|x], b as [|y|y]; cbn [value_eqb];
    try (split; [discriminate|congruence]); try (split; reflexivity).
  - rewrite Z.eqb_eq. split; congruence.
  - rewrite String.eqb_eq. split; congruence.
Qed.

Lemma od_get_set_eq {K V} (eqb : K -> K -> bool)
    (Heqb : forall a b, eqb a b = true <-> a = b)
    (d : list (K * V)) (k k' : K) (v : V) :
  od_get eqb (od_set eqb d k v) k' = if eqb k k' then Some v else od_get eqb d k'.
Proof.
  assert (Hrefl : forall a, eqb a a = true) by (intros a; now apply Heqb).
  unfold od_get. induction d as [|[k0 v0] d IH]; cbn [od_set List.find fst].
  - destruct (eqb k k'); reflexivity.
  - destruct (eqb k0 k) eqn:E1; cbn [List.find fst].
    + apply Heqb in E1. subst k0. destruct (eqb k k'); reflexivity.
    + destruct (eqb k0 k') eqn:E2.
      * apply Heqb in E2. subst k0. destruct (eqb k k') eqn:E3; [|reflexivity].
        apply Heqb in E3. subst k. rewrite Hrefl in E1. discriminate.
      * exact IH.
Qed.

Lemma od_set_fresh {V} (d : list (string * V)) (k : string) (w : V) :
  ~ In k (List.map fst d) -> od_set String.eqb d k w = (d ++ [(k, w)])%list.
Proof.
  induction d as [|[k0 w0] d IHd]; intros Hk; cbn [od_set app].
  - reflexivity.
  - destruct (String.eqb_spec k0 k) as [->|_].
    + exfalso. apply Hk. now left.
    + f_equal. apply IHd. intros Hin. apply Hk. now right.
Qed.

Lemma od_of_pairs_nodup {V} (l : list (string * V)) :
  List.NoDup (List.map fst l) -> od_of_pairs String.eqb l = l.
Proof.
  unfold od_of_pairs.
  assert (H : forall acc, List.NoDup (List.map fst (acc ++ l)) ->
            fold_left (fun d kv => od_set String.eqb d (fst kv) (snd kv)) l acc
            = (acc ++ l)%list).
  { induction l as [|[k w] l IH]; intros acc Hnd; cbn [fold_left fst snd].
    - now rewrite app_nil_r.
    - rewrite od_set_fresh.
      + rewrite IH; rewrite <- app_assoc; [reflexivity|exact Hnd].
      + rewrite List.map_app in Hnd. cbn [List.map fst] in Hnd.
        apply List.NoDup_remove_2 in Hnd. intros Hin. apply Hnd, in_or_app. now left. }
  intros Hnd. exact (H [] Hnd).
Qed.

Lemma foldM_app {A B} (f : A -> B -> result A) (l1 l2 : list B) (a : A) :
  foldM f a (l1 ++ l2) = Py.bind (foldM f a l1) (fun a' => foldM f a' l2).
Proof.
  revert a. induction l1 as [|x l1 IH]; intros a; cbn [foldM app Py.bind].
  - reflexivity.
  - destruct (f a x) as [a'|e]; cbn [Py.bind]; [apply IH|reflexivity].
Qed.

Lemma table_fields_distinct t :
  In t Database._tables ->
  exists fields, lookup_table Database._fields t = Ok fields
                 /\ In "id" fields /\ List.NoDup fields.
Proof.
  simpl. intros H.
  repeat (destruct H as [<-|H];
          [eexists; split; [reflexivity|split; [simpl; auto 10|]];
           repeat constructor; simpl; intuition discriminate|]).
  destruct H.
Qed.

Section Entries.
Variable decode_utf8 : string -> result string.

Lemma item_obj_fields (fields : list string) (it : item) obj :
  List.NoDup fields ->
  BaseExporter.item_obj decode_utf8 false fields it = Ok obj ->
  obj = List.map (fun f => (f, item_field it f)) fields.
Proof.
  intros Hnd. unfold BaseExporter.item_obj.
  match goal with |- Py.bind ?m _ = _ -> _ => destruct m as [kvs|e] eqn:Hm end;
    cbn [Py.bind]; [|discriminate].
  intros [= <-].
  assert (Hkvs : kvs = List.map (fun f => (f, item_field it f)) fields).
  { clear Hnd. revert kvs Hm. induction fields as [|f fields IH]; intros kvs;
      cbn [mapM List.map].
    - now intros [= <-].
    - unfold getitem at 1, item_field at 1.
      destruct (it !! f) as [v|]; cbn [Py.bind]; [|discriminate].
      assert (Hv : match v with
                   | VStr s => Ok (f, v)
                   | _ => Ok (f, v)
                   end = Ok (f, v) :> result (string * value)) by now destruct v.
      destruct v; cbn [Py.bind];
        (destruct (mapM _ fields) as [kvs'|] eqn:Hrest; cbn [Py.bind]; [|discriminate];
         intros [= <-]; f_equal; now apply IH). }
  rewrite Hkvs. apply od_of_pairs_nodup. rewrite List.map_map. cbn [fst].
  now rewrite List.map_id.
Qed.

Lemma add_item_sets strKeys (fields : list string) tbl (it : item) tbl' :
  List.NoDup fields -> In "id" fields ->
  BaseExporter.add_item decode_utf8 strKeys false fields tbl it = Ok tbl' ->
  tbl' = od_set value_eqb tbl (item_id strKeys it) (item_rest fields it).
Proof.
  intros Hnd Hid. unfold BaseExporter.add_item.
  destruct (BaseExporter.item_obj decode_utf8 false fields it) as [obj|e] eqn:Hobj;
    cbn [Py.bind]; [|discriminate].
  apply item_obj_fields in Hobj; [|exact Hnd]. subst obj.
  assert (Hget : od_get String.eqb
                   (List.map (fun f => (f, item_field it f)) fields) "id"
                 = Some (item_field it "id")).
  { clear Hnd. unfold od_get. induction fields as [|f fields IH]; [destruct Hid|].
    cbn [List.map List.find fst].
    destruct (String.eqb_spec f "id") as [->|Hne]; [reflexivity|].
    apply IH. destruct Hid as [->|Hin]; [congruence|exact Hin]. }
  rewrite Hget. intros [= <-]. unfold item_id, item_rest, od_del. f_equal.
  clear. induction fields as [|f fields IH]; [reflexivity|].
  cbn [List.map List.filter fst].
  destruct (negb (String.eqb f "id")); cbn [List.map]; now rewrite IH.
Qed.

Lemma add_items_keep strKeys (fields : list string) (post : list item) :
  List.NoDup fields -> In "id" fields ->
  forall tbl tbl' k,
    foldM (fun tbl it => BaseExporter.add_item decode_utf8 strKeys false fields tbl it)
      tbl post = Ok tbl' ->
    (forall it', In it' post -> item_id strKeys it' <> k) ->
    od_get value_eqb tbl' k = od_get value_eqb tbl k.
Proof.
  intros Hnd Hid. induction post as [|it' post IH]; intros tbl tbl' k; cbn [foldM].
  - now intros [= <-].
  - destruct (BaseExporter.add_item _ _ _ _ _ _) as [tbl1|e] eqn:Hadd;
      cbn [Py.bind]; [|discriminate].
    intros Hfold Hne. rewrite (IH _ _ _ Hfold) by (intros; apply Hne; now right).
    rewrite (add_item_sets _ _ _ _ _ Hnd Hid Hadd).
    rewrite (od_get_set_eq value_eqb value_eqb_eq).
    destruct (value_eqb (item_id strKeys it') k) eqn:E; [|reflexivity].
    apply value_eqb_eq in E. exfalso. apply (Hne it'); [now left|exact E].
Qed.

Lemma add_items_last strKeys (fields : list string) (pre : list item) (it : item)
    (post : list item) tbl :
  List.NoDup fields -> In "id" fields ->
  foldM (fun tbl it => BaseExporter.add_item decode_utf8 strKeys false fields tbl it)
    [] (pre ++ it :: post) = Ok tbl ->
  (forall it', In it' post -> item_id strKeys it' <> item_id strKeys it) ->
  od_get value_eqb tbl (item_id strKeys it) = Some (item_rest fields it).
Proof.
  intros Hnd Hid. rewrite foldM_app.
  destruct (foldM _ [] pre) as [tbl0|e]; cbn [Py.bind foldM]; [|discriminate].
  destruct (BaseExporter.add_item _ _ _ _ _ _) as [tbl1|e] eqn:Hadd;
    cbn [Py.bind]; [|discriminate].
  intros Hfold Hne. rewrite (add_items_keep _ _ _ Hnd Hid _ _ _ Hfold Hne).
  rewrite (add_item_sets _ _ _ _ _ Hnd Hid Hadd).
  rewrite (od_get_set_eq value_eqb value_eqb_eq).
  assert (Hrefl : value_eqb (item_id strKeys it) (item_id strKeys it) = true)
    by now apply value_eqb_eq.
  now rewrite Hrefl.
Qed.

Lemma add_tables_lookup (self : BaseExporter.t) strKeys (ts : list string) :
  List.NoDup ts ->
  forall acc d,
    foldM (BaseExporter.add_table decode_utf8 self strKeys false) acc ts = Ok d ->
    (forall k, ~ In k ts -> od_get String.eqb d k = od_get String.eqb acc k)
    /\ forall t x rows fields,
         In t ts ->
         Database._data (BaseExporter._db self) !! t = Some (x :: rows) ->
         lookup_table Database._fields t = Ok fields ->
         exists tbl,
           foldM (fun tbl it =>
                    BaseExporter.add_item decode_utf8 strKeys false fields tbl it)
             [] (x :: rows) = Ok tbl
           /\ od_get String.eqb d t = Some tbl.
Proof.
  induction 1 as [|t0 ts Hnotin Hnd IH]; intros acc d; cbn [foldM].
  - intros [= <-]. split; [reflexivity|]. intros t x rows fields [].
  - destruct (BaseExporter.add_table _ _ _ _ _ _) as [acc1|e] eqn:Hadd;
      cbn [Py.bind]; [|discriminate].
    intros Hfold. destruct (IH _ _ Hfold) as (Hkeep & Hall).
    unfold BaseExporter.add_table, getitem in Hadd.
    destruct (Database._data (BaseExporter._db self) !! t0) as [rows0|] eqn:Hrows0;
      cbn [Py.bind] in Hadd; [|discriminate].
    split.
    + intros k Hk. rewrite Hkeep by (intros Hin; apply Hk; now right).
      destruct rows0 as [|x0 rows0]; [now injection Hadd as <-|].
      destruct (lookup_table Database._fields t0) as [fields0|];
        cbn [Py.bind] in Hadd; [|discriminate].
      destruct (foldM _ [] (x0 :: rows0)) as [tbl0|]; cbn [Py.bind] in Hadd;
        [|discriminate].
      injection Hadd as <-. rewrite od_get_set.
      destruct (String.eqb_spec t0 k) as [->|_]; [|reflexivity].
      exfalso. apply Hk. now left.
    + intros t x rows fields [<-|Hin] Hrows Hfields.
      * rewrite Hrows in Hrows0. injection Hrows0 as <-.
        rewrite Hfields in Hadd. cbn [Py.bind] in Hadd.
        destruct (foldM _ [] (x :: rows)) as [tbl0|] eqn:Htbl0; cbn [Py.bind] in Hadd;
          [|discriminate].
        injection Hadd as <-. exists tbl0. split; [exact Htbl0|].
        rewrite Hkeep by exact Hnotin. rewrite od_get_set.
        now rewrite String.eqb_refl.
      * exact (Hall t x rows fields Hin Hrows Hfields).
Qed.

(** X17. In the mapping [__toDict__] builds (here without decoding, as the
    JSON, PHP and YAML exporters call it), the table of a record holds,
    under the record's id (its [str] under [strKeys]), the record's other
    fields in the order of the table's fields, the id itself left out; of
    several records with one id the last one is the one found there. *)
Theorem X17_dict_maps_id_to_other_fields :
  forall (self : BaseExporter.t) strKeys d t pre it post,
    BaseExporter.__toDict__ decode_utf8 self strKeys false = Ok d ->
    In t Database._tables ->
    Database._data (BaseExporter._db self) !! t = Some (pre ++ it :: post)%list ->
    (forall it', In it' post -> item_id strKeys it' <> item_id strKeys it) ->
    exists fields tbl,
      lookup_table Database._fields t = Ok fields
      /\ od_get String.eqb d t = Some tbl
      /\ od_get value_eqb tbl (item_id strKeys it) = Some (item_rest fields it).
Proof.
  intros self strKeys d t pre it post Hd Ht Hrows Hne.
  destruct (table_fields_distinct t Ht) as (fields & Hfields & Hid & Hnd).
  assert (Htables : List.NoDup Database._tables).
  { unfold Database._tables. repeat constructor; simpl; intuition discriminate. }
  destruct (add_tables_lookup self strKeys Database._tables Htables [] d Hd)
    as (_ & Hall).
  destruct (pre ++ it :: post)%list as [|x rows] eqn:Hsplit;
    [now destruct pre|].
  destruct (Hall t x rows fields Ht Hrows Hfields) as (tbl & Htbl & Hget).
  exists fields, tbl. split; [exact Hfields|]. split; [exact Hget|].
  rewrite <- Hsplit in Htbl. exact (add_items_last _ _ _ _ _ _ Hnd Hid Htbl Hne).
Qed.
End Entries.

Lemma X17_dict_maps_id_to_other_fields_witness :
  exists d tbl,
    BaseExporter.__toDict__ Ok (exporter db_repeated_id false) true false = Ok d
    /\ od_get String.eqb d "uf" = Some tbl
    /\ od_get value_eqb tbl (VStr "11") = Some [("nome", VStr "Acre")].
Proof.
  eexists.
  match goal with |- exists tbl, ?run = Ok ?d /\ _ =>
    assert (Hd : run = Ok d) by (vm_compute; reflexivity);
    destruct (X17_dict_maps_id_to_other_fields Ok (exporter db_repeated_id false)
                true d "uf"
                [ {[ "id" := VInt 11; "nome" := VStr "Rondonia" ]} ]
                {[ "id" := VInt 11; "nome" := VStr "Acre" ]}
                [ {[ "id" := VInt 13; "nome" := VStr "Amazonas" ]} ] Hd)
      as (fields & tbl & Hfields & Hget & Hentry)
  end.
  - simpl. auto.
  - vm_compute. reflexivity.
  - intros it' [<-|[]]. vm_compute. discriminate.
  - exists tbl. split; [exact Hd|]. split; [exact Hget|].
    injection Hfields as <-. exact Hentry.
Defined.

Section XmlComments.
Variable decode_utf8 : string -> result string.

Lemma table_nodes_minified (db : Database.t) (t : string) :
  XML.table_nodes decode_utf8 (exporter db true) t
  = Py.bind (XML.table_nodes decode_utf8 (exporter db false) t)
      (fun ns => Ok (List.filter not_comment ns)).
Proof.
  unfold XML.table_nodes. cbn [exporter BaseExporter._db BaseExporter._minified].
  destruct (getitem (Database._data db) t) as [rows|e]; cbn [Py.bind]; [|reflexivity].
  destruct rows as [|x rows]; [reflexivity|].
  destruct (lookup_table Database._fields t) as [fields|e]; cbn [Py.bind];
    [|reflexivity].
  destruct (mapM _ (x :: rows)) as [rs|e]; cbn [Py.bind]; reflexivity.
Qed.

Lemma mapM_table_nodes_minified (db : Database.t) (ts : list string) :
  mapM (XML.table_nodes decode_utf8 (exporter db true)) ts
  = Py.bind (mapM (XML.table_nodes decode_utf8 (exporter db false)) ts)
      (fun cs => Ok (List.map (List.filter not_comment) cs)).
Proof.
  induction ts as [|t ts IH]; cbn [mapM Py.bind]; [reflexivity|].
  rewrite table_nodes_minified, IH.
  clear IH.
  destruct (XML.table_nodes decode_utf8 (exporter db false) t) as [ns|e];
    cbn [Py.bind]; [|reflexivity].
  destruct (mapM _ ts) as [cs|e]; cbn [Py.bind List.map]; reflexivity.
Qed.

Lemma filter_concat {A} (f : A -> bool) (ls : list (list A)) :
  List.filter f (List.concat ls) = List.concat (List.map (List.filter f) ls).
Proof.
  induction ls as [|l ls IH]; cbn [List.concat List.map]; [reflexivity|].
  now rewrite List.filter_app, IH.
Qed.

(** X18. Minifying the XML export changes the document tree in one way
    only: the [database] element built for the minified export is the one
    built for the full export without its comments, and the two raise on
    the same databases with the same error. *)
Theorem X18_minified_xml_drops_only_comments :
  forall (db : Database.t),
    XML.database_element decode_utf8 (exporter db true)
    = Py.bind (XML.database_element decode_utf8 (exporter db false))
        (fun n => Ok (without_comments n)).
Proof.
  intros db. unfold XML.database_element. rewrite mapM_table_nodes_minified.
  destruct (mapM _ Database._tables) as [cs|e]; cbn [Py.bind]; [|reflexivity].
  cbn [without_comments exporter BaseExporter._db]. now rewrite filter_concat.
Qed.
End XmlComments.
